(** * Event lists with good time intervals

    A shallow embedding of [stingray/events.py] (class [EventList]) and the
    verification of its specification.

    - Python objects live in a store: a reference is a key of the heap and
      an instance is its attribute dictionary ([__dict__]), so that
      [setattr], in-place masking and the mutation of the arguments of
      [join] are visible, and two names for one instance alias.
    - Numbers are rationals ([Q]), finite [float64] numbers among them;
      [==] and the order on floats are those of [Q].  The sum that [shift]
      adds and the shift that [change_mjdref] computes are rounded as
      [float64] rounds them ([round64]: to the nearest float, halves to the
      even one).  There is no [inf] and no [nan]: a result beyond the
      largest float is the largest float here.
    - Python lists of numbers and one-dimensional [ndarray]s are both
      sequences of numbers ([VArr]); [np.asarray] of a list is that
      sequence.  No code of the class mutates an array in place (arrays are
      only rebound), so arrays are values.
    - A method read from an instance is bound to it ([VMethod]); a call
      [self.name(...)] looks the name up on the instance first, so that a
      bound method kept on an instance runs on the instance it is bound to.
    - An exception is a result [Raise e]; warnings ([simon],
      [warnings.warn]) are appended to a log kept in the state. *)

From Stdlib Require Import QArith Qabs Qminmax.
From stdpp Require Import gmap strings list sorting.

(** ** Numbers *)

Definition Qltb (x y : Q) : bool := negb (Qle_bool y x).

(** *** [float64]

    A finite float is [m * 2 ^ e] for integers [m] and [e] with
    [|m| < 2 ^ 53] and [-1074 <= e <= 971]. *)

(** [x] rounded to an integer, a half to the even neighbour. *)
Definition round_half_even (x : Q) : Z :=
  let n := Qnum x in
  let d := Z.pos (Qden x) in
  let q := (n / d)%Z in
  match (2 * (n mod d) ?= d)%Z with
  | Lt => q
  | Gt => (q + 1)%Z
  | Eq => if Z.even q then q else (q + 1)%Z
  end.

(** The [e] with [2 ^ e <= x < 2 ^ (e + 1)], for a positive [x]. *)
Definition ilog2 (x : Q) : Z :=
  let e := (Z.log2 (Qnum x) - Z.log2 (Z.pos (Qden x)))%Z in
  if Qle_bool (2 ^ e) x then e else (e - 1)%Z.

(** The largest float. *)
Definition max64 : Q := inject_Z ((2 ^ 53 - 1) * 2 ^ 971).

(** The float nearest to [x]: [x] is rounded to a multiple of [2 ^ e],
    where [e] leaves 53 bits and is at least [-1074]. *)
Definition round64 (x : Q) : Q :=
  let x := Qred x in
  if Qeq_bool x 0 then 0
  else
    let e := Z.max (ilog2 (Qabs x) - 52) (-1074) in
    let y := Qred (inject_Z (round_half_even (x / 2 ^ e)) * 2 ^ e) in
    if Qle_bool (Qabs y) max64 then y
    else if Qle_bool 0 x then max64 else - max64.

(** [x + y], [x - y] and [x * y] on floats *)
Definition fadd (x y : Q) : Q := round64 (x + y).
Definition fsub (x y : Q) : Q := round64 (x - y).
Definition fmul (x y : Q) : Q := round64 (x * y).

(** ** Exceptions and results *)

Inductive exn := TypeError | IndexError | ValueError | AttributeError.

Inductive result (A : Type) :=
| Ok (x : A)
| Raise (e : exn).
Arguments Ok {A} x.
Arguments Raise {A} e.

(** ** numpy on sequences *)

(** A boolean mask is given as a Python list, as in the docstring of
    [apply_mask], or as a boolean array, as [filter_energy_range] and
    [apply_deadtime] compute it. *)
Inductive mask :=
| MaskList (bits : list bool)
| MaskArray (bits : list bool).

Definition mask_bits (m : mask) : list bool :=
  match m with
  | MaskList bits | MaskArray bits => bits
  end.

(** [a[mask]] with a boolean mask: the selected elements in their order; a
    mask of another length raises [IndexError].  The empty list [[]] is not
    a boolean mask for numpy but an empty array of indices: [a[[]]] is
    empty, whatever the length of [a]. *)
Fixpoint select {A} (a : list A) (bits : list bool) : list A :=
  match a, bits with
  | x :: a', b :: bits' => if b then x :: select a' bits' else select a' bits'
  | _, _ => []
  end.

Definition np_getmask {A} (a : list A) (m : mask) : result (list A) :=
  match m with
  | MaskList [] => Ok []
  | _ =>
      if decide (length (mask_bits m) = length a)
      then Ok (select a (mask_bits m)) else Raise IndexError
  end.

(** [a[order]] with an array of indices; an index out of range raises. *)
Definition np_take {A} (a : list A) (order : list nat) : result (list A) :=
  match mapM (λ i, a !! i) order with
  | Some r => Ok r
  | None => Raise IndexError
  end.

(** [np.argsort]: the indices that sort [a].  numpy's default kind does not
    fix the order of equal keys; the proofs below use only that the result
    is a permutation of the indices which sorts [a]. *)
Definition key_le (x y : Q * nat) : Prop := Qle_bool x.1 y.1 = true.

#[global] Instance key_le_dec x y : Decision (key_le x y).
Proof. unfold key_le. apply _. Defined.

Definition sort_keys (a : list Q) : list (Q * nat) :=
  merge_sort key_le (zip a (seq 0 (length a))).

Definition np_argsort (a : list Q) : list nat := (sort_keys a).*2.

(** [np.searchsorted(a, v, side)]: numpy's bisection.  [side='left'] moves
    right while [a[mid] < v], [side='right'] while [a[mid] <= v]. *)
Inductive side := Left | Right.

Definition goes_right (s : side) (x v : Q) : bool :=
  match s with
  | Left => Qltb x v
  | Right => Qle_bool x v
  end.

Fixpoint bisect (fuel : nat) (s : side) (a : list Q) (v : Q) (lo hi : nat) : nat :=
  match fuel with
  | O => lo
  | S fuel' =>
      if (lo <? hi)%nat then
        let mid := (lo + (hi - lo) / 2)%nat in
        match a !! mid with
        | Some x =>
            if goes_right s x v then bisect fuel' s a v (S mid) hi
            else bisect fuel' s a v lo mid
        | None => lo
        end
      else lo
  end.

Definition np_searchsorted (a : list Q) (v : Q) (s : side) : nat :=
  bisect (length a) s a v 0 (length a).

(** [a[i:j]] for indices within [0..len(a)]. *)
Definition slice {A} (a : list A) (i j : nat) : list A := take (j - i) (drop i a).

(** [np.isclose(a, b, atol=atol)]: [|a - b| <= atol + rtol * |b|], where
    [rtol] keeps numpy's default [1e-05]. *)
Definition rtol : Q := 1 # 100000.

Definition np_isclose (a b atol : Q) : bool :=
  Qle_bool (Qabs (a - b)) (atol + rtol * Qabs b).

Definition np_zeros_like (a : list Q) : list Q := replicate (length a) 0%Q.

(** ** Python values *)

(** Instances are named by references into the store. *)
Definition ref := nat.

Inductive value :=
| VNone
| VBool (b : bool)
| VNum (x : Q)
| VStr (s : string)
| VArr (a : list Q)            (* a list of numbers or a 1-d array *)
| VArr2 (g : list (Q * Q))     (* an array of shape (n, 2): a GTI list *)
| VMethod (name : string) (self : ref)
                               (* the method [name] of the class, bound to
                                  the instance [self] *)
| VOther (iterable callable : bool).
                               (* any other object; its [np.shape] is () *)

Definition is_none (v : value) : bool :=
  match v with VNone => true | _ => false end.

(** [isinstance(v, Iterable)] *)
Definition is_iterable (v : value) : bool :=
  match v with
  | VStr _ | VArr _ | VArr2 _ => true
  | VOther it _ => it
  | _ => false
  end.

(** [callable(v)] *)
Definition callable (v : value) : bool :=
  match v with
  | VMethod _ _ => true
  | VOther _ c => c
  | _ => false
  end.

(** [np.shape(v)] *)
Definition np_shape (v : value) : list nat :=
  match v with
  | VArr a => [length a]
  | VArr2 g => [length g; 2%nat]
  | _ => []
  end.

(** [v.shape] and [v.size]: only arrays have them. *)
Definition shape_of (v : value) : result (list nat) :=
  match v with
  | VArr _ | VArr2 _ => Ok (np_shape v)
  | _ => Raise AttributeError
  end.

Definition size_of (v : value) : result nat :=
  match v with
  | VArr a => Ok (length a)
  | VArr2 g => Ok (2 * length g)%nat
  | _ => Raise AttributeError
  end.

(** [np.asarray(v)] *)
Definition np_asarray (v : value) : value := v.

(** [np.asarray(v)[mask]] *)
Definition value_getmask (v : value) (mask : mask) : result value :=
  match v with
  | VArr a =>
      match np_getmask a mask with Ok r => Ok (VArr r) | Raise e => Raise e end
  | VArr2 g =>
      match np_getmask g mask with Ok r => Ok (VArr2 r) | Raise e => Raise e end
  | _ => Raise IndexError
  end.

(** [v + d] for a float [d] *)
Definition value_add (v : value) (d : Q) : result value :=
  match v with
  | VNum x => Ok (VNum (fadd x d))
  | VArr a => Ok (VArr (map (λ t, fadd t d) a))
  | VArr2 g => Ok (VArr2 (map (λ se, (fadd se.1 d, fadd se.2 d)) g))
  | _ => Raise TypeError
  end.

(** [x != y] used as a condition.  Comparing arrays gives an array, whose
    truth value numpy refuses; values of different types differ.  The
    comparison of two objects of other classes depends on those classes and
    is left out. *)
Definition py_ne (x y : value) : result bool :=
  match x, y with
  | (VArr _ | VArr2 _), _ | _, (VArr _ | VArr2 _) => Raise ValueError
  | VNone, VNone => Ok false
  | VBool a, VBool b => Ok (negb (eqb a b))
  | VNum a, VNum b => Ok (negb (Qeq_bool a b))
  | VStr a, VStr b => Ok (negb (String.eqb a b))
  | VMethod f r, VMethod g s => Ok (negb (String.eqb f g && Nat.eqb r s))
  | VOther _ _, VOther _ _ => Raise TypeError   (* not modelled *)
  | _, _ => Ok true
  end.

(** [x + ',' + y] *)
Definition join_label (x y : value) : result value :=
  match x, y with
  | VStr a, VStr b => Ok (VStr (a +:+ "," +:+ b))
  | _, _ => Raise TypeError
  end.

Definition as_num (v : value) : result Q :=
  match v with
  | VNum x => Ok x
  | _ => Raise TypeError
  end.

(** ** The store *)

(** An instance is its attribute dictionary. *)
Abbreviation object := (gmap string value).

Record state := State {
  heap : gmap ref object;
  warnings : list string;
}.

(** Computations: read and write the store, return or raise. *)
Definition M (A : Type) : Type := state → result (A * state).

Definition ret {A} (x : A) : M A := λ σ, Ok (x, σ).

Definition raise {A} (e : exn) : M A := λ _, Raise e.

Definition bind {A B} (m : M A) (k : A → M B) : M B := λ σ,
  match m σ with
  | Ok (x, σ') => k x σ'
  | Raise e => Raise e
  end.

Declare Scope py_scope.
Delimit Scope py_scope with py.
Notation "'let*' x := m 'in' k" := (bind m (λ x, k))
  (at level 10, x name, m at level 100, k at level 200) : py_scope.
Notation "m ;; k" := (bind m (λ _, k))
  (at level 100, right associativity) : py_scope.
Local Open Scope py_scope.

Definition lift {A} (r : result A) : M A := λ σ,
  match r with
  | Ok x => Ok (x, σ)
  | Raise e => Raise e
  end.

Fixpoint for_each {A} (l : list A) (body : A → M unit) : M unit :=
  match l with
  | [] => ret tt
  | x :: l' => body x ;; for_each l' body
  end.

Definition when (b : bool) (m : M unit) : M unit := if b then m else ret tt.

(** [simon(msg)] and [warnings.warn(msg)] *)
Definition simon (msg : string) : M unit := λ σ,
  Ok (tt, State (heap σ) (warnings σ ++ [msg])).

(** A new instance gets a reference that is not in use. *)
Definition alloc (o : object) : M ref := λ σ,
  let r := fresh (dom (heap σ)) in
  Ok (r, State (<[r := o]> (heap σ)) (warnings σ)).

Definition deref (r : ref) : M object := λ σ,
  match heap σ !! r with
  | Some o => Ok (o, σ)
  | None => Raise AttributeError
  end.

(** ** The class *)

(** The names [dir] finds on the class: the methods of [EventList] and what
    every class inherits from [object]. *)
Definition methods : list string :=
  [ "array_attrs"; "meta_attrs"; "to_lc"; "to_lc_list"; "from_lc";
    "simulate_times"; "simulate_energies"; "join"; "read"; "write";
    "filter_energy_range"; "apply_mask"; "apply_deadtime"; "change_mjdref";
    "shift"; "get_meta_dict"; "to_astropy_timeseries";
    "from_astropy_timeseries"; "to_astropy_table"; "from_astropy_table";
    "to_xarray"; "from_xarray"; "to_pandas"; "from_pandas" ].

(** Those among them that are static: they take no instance. *)
Definition static_methods : list string :=
  [ "from_lc"; "read"; "from_astropy_timeseries"; "from_astropy_table";
    "from_xarray"; "from_pandas" ].

Definition object_methods : list string :=
  [ "__class__"; "__delattr__"; "__dir__"; "__eq__"; "__format__"; "__ge__";
    "__getattribute__"; "__gt__"; "__hash__"; "__init__";
    "__init_subclass__"; "__le__"; "__lt__"; "__ne__"; "__new__";
    "__reduce__"; "__reduce_ex__"; "__repr__"; "__setattr__"; "__sizeof__";
    "__str__"; "__subclasshook__" ].

Definition class_dict : gmap string value :=
  list_to_map
    (((λ n, (n, VOther false true)) <$> methods ++ object_methods)
     ++ [ ("__dict__", VOther true false);
          ("__doc__", VStr "Basic class for event list data.");
          ("__module__", VStr "stingray.events");
          ("__weakref__", VNone) ]).

(** [getattr(self, name)] on an instance: its own attribute, else the
    class's.  A method that is found on the class is given as the class has
    it, a callable that is not iterable, which is what [callable] and
    [isinstance(_, Iterable)] see of it; [bound] below gives it bound to
    the instance, for the place where the value is kept. *)
Definition lookup_attr (o : object) (name : string) : option value :=
  match o !! name with
  | Some v => Some v
  | None => class_dict !! name
  end.

Definition attr (σ : state) (r : ref) (name : string) : option value :=
  heap σ !! r ≫= λ o, lookup_attr o name.

Definition getattr (r : ref) (name : string) : M value := λ σ,
  match attr σ r name with
  | Some v => Ok (v, σ)
  | None => Raise AttributeError
  end.

Definition setattr (r : ref) (name : string) (v : value) : M unit := λ σ,
  match heap σ !! r with
  | Some o => Ok (tt, State (<[r := <[name := v]> o]> (heap σ)) (warnings σ))
  | None => Raise AttributeError
  end.

(** [hasattr(self, name)] *)
Definition hasattr (r : ref) (name : string) : M bool := λ σ,
  Ok (bool_decide (is_Some (attr σ r name)), σ).

(** [getattr(self, name)] as the value that it is: a method of the class
    that is not static comes bound to the instance it is read from. *)
Definition bound (self : ref) (o : object) (name : string) : option value :=
  match o !! name with
  | Some v => Some v
  | None =>
      if bool_decide (name ∈ methods ∧ name ∉ static_methods)
      then Some (VMethod name self)
      else class_dict !! name
  end.

Definition getattr_bound (r : ref) (name : string) : M value := λ σ,
  match heap σ !! r ≫= λ o, bound r o name with
  | Some v => Ok (v, σ)
  | None => Raise AttributeError
  end.

(** [self.name(...)]: the instance on which the method [name] runs.  The
    name is looked up on the instance first: when the instance holds
    nothing under it, the method of the class runs on the instance itself;
    when it holds a bound method of that name, as the copies that
    [apply_mask] returns do, the method runs on the instance it is bound
    to.  A value that cannot be called raises [TypeError]; so does here
    what else can be called (a method kept under another name, an object of
    another class), whose call would leave this class. *)
Definition receiver (self : ref) (name : string) : M ref :=
  let* o := deref self in
  match o !! name with
  | None => ret self
  | Some (VMethod f r) => if decide (f = name) then ret r else raise TypeError
  | Some _ => raise TypeError
  end.

(** [self.name(...)], where [body] is the method [name] of the class. *)
Definition method {A} (self : ref) (name : string) (body : ref → M A) : M A :=
  let* r := receiver self name in body r.

(** [dir(self)]: the names of the instance and of the class, sorted, each
    once. *)
Definition str_le (x y : string) : Prop := String.leb x y = true.

#[global] Instance str_le_dec x y : Decision (str_le x y).
Proof. unfold str_le. apply _. Defined.

Definition dir (o : object) : list string :=
  merge_sort str_le (elements (dom o ∪ dom class_dict)).

Definition startswith (pre s : string) : bool := String.prefix pre s.

(** ** [EventList.__init__] *)

(** Keyword arguments are given by name; a parameter left out takes its
    default. *)
Definition kw (kws : list (string * value)) (name : string) (default : value) : value :=
  match list_find (λ p, p.1 = name) kws with
  | Some (_, (_, v)) => v
  | None => default
  end.

Definition init_params : list string :=
  [ "time"; "energy"; "ncounts"; "mjdref"; "dt"; "notes"; "gti"; "pi";
    "high_precision"; "mission"; "instr"; "header"; "detector_id"; "ephem";
    "timeref"; "timesys" ].

Definition EventList (kws : list (string * value)) : M ref :=
  let time := kw kws "time" VNone in
  let energy := kw kws "energy" VNone in
  let gti := kw kws "gti" VNone in
  let pi := kw kws "pi" VNone in
  let* self := alloc ∅ in
  setattr self "energy" (if is_none energy then VNone else np_asarray energy) ;;
  setattr self "notes" (kw kws "notes" (VStr "")) ;;
  setattr self "dt" (kw kws "dt" (VNum 0)) ;;
  setattr self "mjdref" (kw kws "mjdref" (VNum 0)) ;;
  setattr self "gti" (if negb (is_none gti) then np_asarray gti else VNone) ;;
  setattr self "pi" (if is_none pi then VNone else np_asarray pi) ;;
  setattr self "ncounts" (kw kws "ncounts" VNone) ;;
  setattr self "mission" (kw kws "mission" VNone) ;;
  setattr self "instr" (kw kws "instr" VNone) ;;
  setattr self "detector_id" (kw kws "detector_id" VNone) ;;
  setattr self "header" (kw kws "header" VNone) ;;
  setattr self "ephem" (kw kws "ephem" VNone) ;;
  setattr self "timeref" (kw kws "timeref" VNone) ;;
  setattr self "timesys" (kw kws "timesys" VNone) ;;
  let other_kw := filter (λ n, n ∉ init_params) kws.*1 in
  when (negb (bool_decide (other_kw = [])))
       (simon "Unrecognized keywords") ;;
  (if negb (is_none time) then
     (* [interpret_times] leaves an array of numbers as it is *)
     setattr self "time" (np_asarray time) ;;
     let* n := lift (size_of (np_asarray time)) in
     setattr self "ncounts" (VNum (inject_Z (Z.of_nat n)))
   else
     setattr self "time" VNone) ;;
  let* time' := getattr self "time" in
  let* energy' := getattr self "energy" in
  (if negb (is_none time') && negb (is_none energy') then
     let* n := lift (size_of time') in
     let* m := lift (size_of energy') in
     if decide (n ≠ m) then raise ValueError else ret tt
   else ret tt) ;;
  ret self.

(** ** [array_attrs] and [meta_attrs] *)

Fixpoint filterM {A} (f : A → result bool) (l : list A) : result (list A) :=
  match l with
  | [] => Ok []
  | x :: l' =>
      match f x with
      | Ok b =>
          match filterM f l' with
          | Ok r => Ok (if b then x :: r else r)
          | Raise e => Raise e
          end
      | Raise e => Raise e
      end
  end.

Definition get (o : object) (name : string) : result value :=
  match lookup_attr o name with
  | Some v => Ok v
  | None => Raise AttributeError
  end.

(** One test of the comprehension of [array_attrs]; [and] evaluates
    [self.time.shape] only for an iterable value. *)
Definition is_array_attr (o : object) (name : string) : result bool :=
  match get o name with
  | Ok v =>
      if is_iterable v then
        match get o "time" with
        | Ok time =>
            match shape_of time with
            | Ok sh => Ok (bool_decide (np_shape v = sh))
            | Raise e => Raise e
            end
        | Raise e => Raise e
        end
      else Ok false
  | Raise e => Raise e
  end.

Definition array_attrs_of (o : object) : result (list string) :=
  filterM (is_array_attr o) (dir o).

Definition array_attrs (self : ref) : M (list string) :=
  let* o := deref self in lift (array_attrs_of o).

Definition is_meta_attr (o : object) (arr : list string) (name : string) : result bool :=
  if bool_decide (name ∉ arr) && negb (startswith "_" name) then
    match get o name with
    | Ok v => Ok (negb (callable v))
    | Raise e => Raise e
    end
  else Ok false.

Definition meta_attrs_of (o : object) : result (list string) :=
  match array_attrs_of o with
  | Ok arr => filterM (is_meta_attr o arr) (dir o)
  | Raise e => Raise e
  end.

Definition meta_attrs (self : ref) : M (list string) :=
  let* o := deref self in lift (meta_attrs_of o).

(** ** [apply_mask] and [filter_energy_range] *)

(** The copy made without [inplace] takes every public attribute that is
    no array attribute, the methods among them: line 644 has no test of
    [callable], so the copy holds the methods of [self], bound to [self]. *)
Definition apply_mask (self : ref) (mask : mask) (inplace : bool) : M ref :=
  let* arr := method self "array_attrs" array_attrs in
  let* new_ev :=
    (if inplace then ret self
     else
       let* new_ev := EventList [] in
       let* o := deref self in
       for_each (dir o) (λ name,
         if negb (startswith "_" name) && bool_decide (name ∉ arr) then
           let* v := getattr_bound self name in setattr new_ev name v
         else ret tt) ;;
       ret new_ev) in
  for_each arr (λ name,
    let* has := hasattr self name in
    if has then
      let* v := getattr self name in
      if negb (is_none v) then
        let* m := lift (value_getmask (np_asarray v) mask) in
        setattr new_ev name m
      else ret tt
    else ret tt) ;;
  ret new_ev.

(** [(energies >= lo) & (energies < hi)]: a boolean array *)
Definition range_mask (energies : value) (lo hi : Q) : result mask :=
  match energies with
  | VArr e => Ok (MaskArray (map (λ v, Qle_bool lo v && Qltb v hi) e))
  | _ => Raise TypeError
  end.

Definition filter_energy_range (self : ref) (energy_range : Q * Q)
    (inplace use_pi : bool) : M ref :=
  let* energies := (if use_pi then getattr self "pi" else getattr self "energy") in
  let* mask := lift (range_mask energies energy_range.1 energy_range.2) in
  method self "apply_mask" (λ self, apply_mask self mask inplace).

(** ** [shift] and [change_mjdref] *)

(** [copy.deepcopy(self)]: a new instance with the same attributes. *)
Definition deepcopy (self : ref) : M ref :=
  let* o := deref self in alloc o.

Definition shift (self : ref) (time_shift : Q) : M ref :=
  let* new_ev := deepcopy self in
  let* time := getattr new_ev "time" in
  let* time' := lift (value_add time time_shift) in
  setattr new_ev "time" time' ;;
  let* gti := getattr new_ev "gti" in
  let* gti' := lift (value_add gti time_shift) in
  setattr new_ev "gti" gti' ;;
  ret new_ev.

Definition change_mjdref (self : ref) (new_mjdref : Q) : M ref :=
  let* mjdref := (let* v := getattr self "mjdref" in lift (as_num v)) in
  let time_shift := fmul (fsub mjdref new_mjdref) 86400 in
  let* new_ev := shift self time_shift in
  setattr new_ev "mjdref" (VNum new_mjdref) ;;
  ret new_ev.

(** ** GTI algebra *)

(** Modelled from the spec: [check_separate], [append_gtis] and
    [cross_gtis] are imported from [stingray/gti.py], which is not among the
    sources.  Two intervals overlap when they share a region; touching end
    points do not count. *)
Definition overlap (a b : Q * Q) : bool :=
  Qltb (Qmax a.1 b.1) (Qmin a.2 b.2).

(** Modelled from the spec: [check_separate(gti0, gti1)] is true iff no
    interval of [gti0] overlaps any interval of [gti1]. *)
Definition check_separate (gti0 gti1 : list (Q * Q)) : bool :=
  forallb (λ a, forallb (λ b, negb (overlap a b)) gti1) gti0.

(** Modelled from the spec: [append_gtis(gti0, gti1)], the handler of the
    disjoint case, returns the sorted concatenation of the two lists, every
    window kept as it is. *)
Definition gti_le (a b : Q * Q) : Prop := Qle_bool a.1 b.1 = true.

#[global] Instance gti_le_dec a b : Decision (gti_le a b).
Proof. unfold gti_le. apply _. Defined.

Definition append_gtis (gti0 gti1 : list (Q * Q)) : list (Q * Q) :=
  merge_sort gti_le (gti0 ++ gti1).

(** Modelled from the spec: [cross_gtis(gti_list)] returns the
    interval-wise intersection of all the lists given, the windows valid in
    all of them, and the empty list when nothing overlaps. *)
Definition cross_two (gti0 gti1 : list (Q * Q)) : list (Q * Q) :=
  a ← gti0; b ← gti1;
  if overlap a b then [(Qmax a.1 b.1, Qmin a.2 b.2)] else [].

Definition cross_gtis (gti_list : list (list (Q * Q))) : list (Q * Q) :=
  match gti_list with
  | [] => []
  | g :: rest => foldl cross_two g rest
  end.

(** Modelled from the spec: [assign_value_if_none(value, default)] of
    [stingray/utils.py] gives [default] for [None] and [value] otherwise. *)
Definition assign_value_if_none (v default : value) : value :=
  if is_none v then default else v.

(** ** [join] *)

Definition as_arr (v : value) : result (list Q) :=
  match v with
  | VArr a => Ok a
  | _ => Raise ValueError
  end.

Definition as_gti (v : value) : result (list (Q * Q)) :=
  match v with
  | VArr2 g => Ok g
  | _ => Raise ValueError
  end.

Definition getnum (r : ref) (name : string) : M Q :=
  let* v := getattr r name in lift (as_num v).

Definition getarr (r : ref) (name : string) : M (list Q) :=
  let* v := getattr r name in lift (as_arr v).

(** The tolerance on [mjdref] written in the source: [1e-6 / 86400]. *)
Definition mjdref_atol : Q := (1 # 1000000) / 86400.

(** Lines 425-434 for [pi] and 436-446 for [energy]: the same block for
    both names. *)
Definition join_zero_default (name : string) (self other ev_new : ref)
    (order : list nat) : M unit :=
  let* x := getattr self name in
  let* y := getattr other name in
  (if is_none x && is_none y then setattr ev_new name VNone
   else if is_none x || is_none y then
     let* time := getarr self "time" in
     setattr self name (assign_value_if_none x (VArr (np_zeros_like time))) ;;
     let* y := getattr other name in
     let* time := getarr other "time" in
     setattr other name (assign_value_if_none y (VArr (np_zeros_like time)))
   else ret tt) ;;
  let* x := getattr self name in
  let* y := getattr other name in
  if negb (is_none x) && negb (is_none y) then
    let* a := lift (as_arr x) in
    let* b := lift (as_arr y) in
    setattr ev_new name (VArr (a ++ b)) ;;
    let* r := lift (np_take (a ++ b) order) in
    setattr ev_new name (VArr r)
  else ret tt.

(** Lines 448-452 and 453-457: a side with events and no GTI, joined to a
    side with GTIs, gets the interval around its events. *)
Definition join_gti_default (self other : ref) : M unit :=
  let* gti := getattr self "gti" in
  let* gti_o := getattr other "gti" in
  if is_none gti && negb (is_none gti_o) then
    let* time := getarr self "time" in
    if bool_decide (0 < length time)%nat then
      let* dt := getnum self "dt" in
      let first := default 0%Q (head time) in
      let last_ := default 0%Q (last time) in
      setattr self "gti"
        (assign_value_if_none gti (VArr2 [(first - dt / 2, last_ + dt / 2)%Q]))
    else ret tt
  else ret tt.

(** Lines 459-468 *)
Definition join_gti (self other ev_new : ref) : M unit :=
  let* gti := getattr self "gti" in
  let* gti_o := getattr other "gti" in
  if is_none gti && is_none gti_o then setattr ev_new "gti" VNone
  else if negb (is_none gti) && negb (is_none gti_o) then
    let* g0 := lift (as_gti gti) in
    let* g1 := lift (as_gti gti_o) in
    if check_separate g0 g1 then
      setattr ev_new "gti" (VArr2 (append_gtis g0 g1)) ;;
      simon "GTIs in these two event lists do not overlap at all.Merging instead of returning an overlap."
    else
      setattr ev_new "gti" (VArr2 (cross_gtis [g0; g1]))
  else ret tt.

(** Lines 470-474 *)
Definition join_labels (self other ev_new : ref) : M unit :=
  for_each ["mission"; "instr"] (λ name,
    let* x := getattr self name in
    let* y := getattr other name in
    let* differ := lift (py_ne x y) in
    if differ then
      let* l := lift (join_label x y) in setattr ev_new name l
    else setattr ev_new name x).

(** Lines 421-478: the merge, once both sides have times on one epoch. *)
Definition join_merge (self other ev_new : ref) : M ref :=
  let* a := getarr self "time" in
  let* b := getarr other "time" in
  setattr ev_new "time" (VArr (a ++ b)) ;;
  let order := np_argsort (a ++ b) in
  let* sorted := lift (np_take (a ++ b) order) in
  setattr ev_new "time" (VArr sorted) ;;
  join_zero_default "pi" self other ev_new order ;;
  join_zero_default "energy" self other ev_new order ;;
  join_gti_default self other ;;
  join_gti_default other self ;;
  join_gti self other ev_new ;;
  join_labels self other ev_new ;;
  let* mjdref := getattr self "mjdref" in
  setattr ev_new "mjdref" mjdref ;;
  ret ev_new.

(** Lines 399-419, then the merge. *)
Definition join (self other : ref) : M ref :=
  let* ev_new := EventList [] in
  let* dt := getattr self "dt" in
  let* dt_o := getattr other "dt" in
  let* differ := lift (py_ne dt dt_o) in
  (if differ then
     simon "The time resolution is different. Using the rougher by default" ;;
     let* a := lift (as_num dt) in
     let* b := lift (as_num dt_o) in
     setattr ev_new "dt" (VNum (Qmax a b))
   else ret tt) ;;
  let* time := getattr self "time" in
  let* time_o := getattr other "time" in
  if is_none time && is_none time_o then ret ev_new
  else
    (if is_none time then
       simon "One of the event lists you are concatenating is empty." ;;
       setattr self "time" (VArr [])
     else if is_none time_o then
       simon "One of the event lists you are concatenating is empty." ;;
       setattr other "time" (VArr [])
     else ret tt) ;;
    let* mjdref := getnum self "mjdref" in
    let* mjdref_o := getnum other "mjdref" in
    let* other :=
      (if negb (np_isclose mjdref mjdref_o mjdref_atol)
       then change_mjdref other mjdref else ret other) in
    join_merge self other ev_new.

(** ** [to_lc_list] *)

(** [Lightcurve.make_lightcurve] belongs to another module; a light curve
    is kept as the arguments it is made from. *)
Record Lightcurve := make_lightcurve {
  lc_time : list Q;
  lc_dt : Q;
  lc_tstart : Q;
  lc_gti : list (Q * Q);
  lc_tseg : Q;
  lc_mjdref : value;
}.

(** The generator is run to its end: one light curve per GTI, in the order
    of the GTIs. *)
Definition to_lc_list (self : ref) (dt : Q) : M (list Lightcurve) :=
  let* gti := (let* v := getattr self "gti" in lift (as_gti v)) in
  let start_times := gti.*1 in
  let end_times := gti.*2 in
  let tsegs := zip_with Qminus end_times start_times in
  let* time := getarr self "time" in
  let* mjdref := getattr self "mjdref" in
  ret ((λ '(st, end_, tseg),
         let idx_st := np_searchsorted time st Right in
         let idx_end := np_searchsorted time end_ Left in
         make_lightcurve (slice time idx_st idx_end) dt st [(st, end_)] tseg mjdref)
       <$> zip (zip start_times end_times) tsegs).

(** ** Dictionaries *)

(** A Python [dict] with names as keys: its items in the order in which the
    keys were first set. *)
Abbreviation dict := (list (string * value)).

(** [d[key] = v] *)
Fixpoint dict_set (d : dict) (key : string) (v : value) : dict :=
  match d with
  | [] => [(key, v)]
  | (k, w) :: d' =>
      if decide (k = key) then (k, v) :: d' else (k, w) :: dict_set d' key v
  end.

(** [d.get(key)] *)
Fixpoint dict_get (d : dict) (key : string) : option value :=
  match d with
  | [] => None
  | (k, w) :: d' => if decide (k = key) then Some w else dict_get d' key
  end.

(** [d.update(other)] *)
Definition dict_update (d other : dict) : dict :=
  foldl (λ acc kv, dict_set acc kv.1 kv.2) d other.

(** A loop that builds a value. *)
Fixpoint fold_each {A S} (l : list A) (acc : S) (body : S → A → M S) : M S :=
  match l with
  | [] => ret acc
  | x :: l' => let* acc' := body acc x in fold_each l' acc' body
  end.

(** ** [get_meta_dict] *)

Definition get_meta_dict (self : ref) : M dict :=
  let* meta_attrs := meta_attrs self in
  fold_each meta_attrs [] (λ meta_dict key,
    let* val := getattr self key in
    ret (if negb (is_none val) then dict_set meta_dict key val else meta_dict)).

(** ** [to_astropy_table] and [to_pandas] *)

(** [astropy.table.Table] and [pandas.DataFrame] belong to other packages;
    a table is kept as the columns it is made from and the meta data put
    into it. *)
Record Table := make_Table {
  tb_data : dict;
  tb_meta : dict;
}.

Record DataFrame := make_DataFrame {
  df_data : dict;
  df_attrs : dict;
}.

Definition to_astropy_table (self : ref) : M Table :=
  let* array_attrs := array_attrs self in
  let* data :=
    fold_each array_attrs [] (λ data attr,
      let* v := getattr self attr in
      ret (dict_set data attr (np_asarray v))) in
  let* meta := get_meta_dict self in
  ret (make_Table data (dict_update [] meta)).

Definition to_pandas (self : ref) : M DataFrame :=
  let* array_attrs := array_attrs self in
  let* data :=
    fold_each array_attrs [] (λ data attr,
      let* v := getattr self attr in
      ret (dict_set data attr (np_asarray v))) in
  let* meta := get_meta_dict self in
  ret (make_DataFrame data (dict_update [] meta)).

(** ** [to_lc] *)

(** The call [Lightcurve.make_lightcurve(toa, dt, tstart=..., gti=...,
    tseg=..., mjdref=...)] that [to_lc] ends with, where [tstart], [tseg]
    and [gti] can be [None]. *)
Record make_lightcurve_call := make_call {
  call_toa : value;
  call_dt : Q;
  call_tstart : option Q;
  call_gti : value;
  call_tseg : option Q;
  call_mjdref : value;
}.

Definition to_lc (self : ref) (dt : Q) (tstart tseg : option Q) :
    M make_lightcurve_call :=
  let* gti := getattr self "gti" in
  let* span :=
    (if bool_decide (tstart = None) && negb (is_none gti) then
       let* g := lift (as_gti gti) in
       match head g, last g with
       | Some first, Some last_ =>
           let tstart := first.1 in
           ret (Some tstart, Some (last_.2 - tstart)%Q)
       | _, _ => raise IndexError
       end
     else ret (tstart, tseg)) in
  let* time := getattr self "time" in
  let* gti := getattr self "gti" in
  let* mjdref := getattr self "mjdref" in
  ret (make_call time dt span.1 gti span.2 mjdref).

(** ** [from_lc] and [simulate_times] *)

(** What [from_lc] and [simulate_times] read of a light curve: the times of
    its bins, the counts in them and its GTIs. *)
Record binned := make_binned {
  bins_time : list Q;
  bins_counts : list Q;
  bins_gti : value;
}.

(** [int(x)]: towards zero. *)
Definition py_int (x : Q) : Z := Z.quot (Qnum x) (Z.pos (Qden x)).

(** [[x] * n]: empty for a negative [n]. *)
Definition py_repeat (x : Q) (n : Z) : list Q := replicate (Z.to_nat n) x.

Definition from_lc (lc : binned) : M ref :=
  let times :=
    (λ ij, py_repeat ij.1 (py_int ij.2)) <$> zip (bins_time lc) (bins_counts lc) in
  let times := mjoin times in
  EventList [("time", VArr times); ("gti", bins_gti lc)].

(** [len(v)] *)
Definition py_len (v : value) : result nat :=
  match v with
  | VArr a => Ok (length a)
  | VArr2 g => Ok (length g)
  | VStr s => Ok (String.length s)
  | _ => Raise TypeError
  end.

(** The times come from [simulate_times] of [stingray/simulator/base.py],
    which draws them at random: [drawn] is what it returns for [lc]. *)
Definition simulate_times (self : ref) (lc : binned) (drawn : list Q)
    (bin_time : option Q) : M unit :=
  when (negb (bool_decide (bin_time = None)))
       (simon "Bin time will be ignored in simulate_times") ;;
  setattr self "time" (VArr drawn) ;;
  setattr self "gti" (bins_gti lc) ;;
  let* time := getattr self "time" in
  let* n := lift (py_len time) in
  setattr self "ncounts" (VNum (inject_Z (Z.of_nat n))).

(** ** [apply_deadtime] *)

(** [get_deadtime_mask] belongs to [stingray/filters.py]: it is a parameter
    here, a function from the times and the dead time (and the options
    that [apply_deadtime] passes on unread) to the mask and what it returns
    besides.  The mask is a boolean array.  [apply_deadtime] always asks
    for both ([return_all=True]); its own [return_all] decides whether the
    second is returned. *)
Definition apply_deadtime
    (get_deadtime_mask : value → Q → result (list bool * value))
    (self : ref) (deadtime : Q) (inplace return_all : bool) :
    M (ref * option value) :=
  let local_retall := return_all in
  let* time := getattr self "time" in
  let* mask_retall := lift (get_deadtime_mask time deadtime) in
  let* new_ev :=
    method self "apply_mask" (λ self,
      apply_mask self (MaskArray mask_retall.1) inplace) in
  ret (if local_retall then (new_ev, Some mask_retall.2) else (new_ev, None)).

(** * Specification *)

(** ** Vocabulary of the statements *)

(** The store before anything is made. *)
Definition σ0 : state := State ∅ [].

(** [a] is in ascending order, by positions. *)
Definition ascending (a : list Q) : Prop :=
  ∀ i j x y, (i ≤ j)%nat → a !! i = Some x → a !! j = Some y → (x <= y)%Q.

(** [r] is the index of the first element of [a] that has [p], in an array
    where the elements that have [p] come last. *)
Definition first_index (p : Q → Prop) (a : list Q) (r : nat) : Prop :=
  (r ≤ length a)%nat
  ∧ (∀ i x, (i < r)%nat → a !! i = Some x → ¬ p x)
  ∧ (∀ i x, (r ≤ i)%nat → a !! i = Some x → p x).

(** [r] is where the bisection stops: left of it the elements go right. *)
Definition partition_point (s : side) (a : list Q) (v : Q) (r : nat) : Prop :=
  (r ≤ length a)%nat
  ∧ (∀ i x, (i < r)%nat → a !! i = Some x → goes_right s x v = true)
  ∧ (∀ i x, (r ≤ i)%nat → a !! i = Some x → goes_right s x v = false).

(** An event strictly inside a GTI, and inside it with its end points. *)
Definition inside (g : Q * Q) (t : Q) : bool := Qltb g.1 t && Qltb t g.2.

Definition inside_closed (g : Q * Q) (t : Q) : bool :=
  Qle_bool g.1 t && Qle_bool t g.2.

Definition in_some_gti (gti : list (Q * Q)) (t : Q) : bool :=
  existsb (λ g, inside g t) gti.

(** The GTIs are in order and do not overlap: each ends no later than every
    later one starts. *)
Definition gti_ordered (gti : list (Q * Q)) : Prop :=
  StronglySorted (λ g h, (g.2 <= h.1)%Q) gti.

(** ** What an example run leaves *)

Definition state_of {A} (r : result (A * state)) : state :=
  match r with
  | Ok (_, σ) => σ
  | Raise _ => σ0
  end.

Definition returns {A} (m : M A) (σ : state) : option A :=
  match m σ with
  | Ok (x, _) => Some x
  | Raise _ => None
  end.

(** ** Rounding *)

(** [x] is a float, and the sum [x + d] is one too, so that adding [d] to
    [x] rounds nothing. *)
Definition exact_sum (d x : Q) : Prop :=
  (round64 x == x)%Q ∧ (round64 (x + d) == x + d)%Q.

(** [EventList(time=[1], gti=[[0, 2]])] *)
Definition one_store : state :=
  state_of (EventList [("time", VArr [1%Q]); ("gti", VArr2 [(0, 2)%Q])] σ0).

(** ** The segmenter *)

(** The light curve [to_lc_list] makes for the GTI [g]. *)
Definition segment (time : list Q) (dt : Q) (mjdref : value) (g : Q * Q) : Lightcurve :=
  make_lightcurve
    (slice time (np_searchsorted time g.1 Right) (np_searchsorted time g.2 Left))
    dt g.1 [(g.1, g.2)] (g.2 - g.1) mjdref.


(** [EventList(time=[0, 1, 2], gti=[[0, 2]])], the first instance of its
    store: its reference is 0. *)
Definition boundary_store : state :=
  state_of (EventList [("time", VArr [0; 1; 2]%Q); ("gti", VArr2 [(0, 2)%Q])] σ0).

(** ** The classifier and the mask *)

(** The test [array_attrs] makes on the attribute [n] when [self.time] is
    an array of shape [sh]. *)
Definition is_array (o : object) (sh : list nat) (n : string) : bool :=
  match lookup_attr o n with
  | Some v => is_iterable v && bool_decide (np_shape v = sh)
  | None => false
  end.

(** The test [meta_attrs] makes. *)
Definition is_meta (o : object) (sh : list nat) (n : string) : bool :=
  negb (is_array o sh n) && negb (startswith "_" n)
  && match lookup_attr o n with
     | Some v => negb (callable v)
     | None => false
     end.

(** The instance [r] holds no attribute of its own under the name of a
    method, so that its methods are those of the class: as the constructor
    makes it, and unlike the copies that [apply_mask] returns. *)
Definition holds (σ : state) (r : ref) (name : string) : bool :=
  match heap σ !! r ≫= λ o, o !! name with
  | Some _ => true
  | None => false
  end.

Definition plain (σ : state) (r : ref) : bool :=
  forallb (λ name, negb (holds σ r name)) methods.

(** The methods that an instance gives bound to itself. *)
Definition is_method (name : string) : Prop :=
  name ∈ methods ∧ name ∉ static_methods.

(** [v[bits]] for an array [v] *)
Definition mask_value (bits : list bool) (v : value) : value :=
  match v with
  | VArr a => VArr (select a bits)
  | VArr2 g => VArr2 (select g bits)
  | _ => v
  end.

(** What one round of each loop of [apply_mask] does to the new instance. *)
Definition copy_step (self : ref) (o : object) (arr : list string)
    (acc : object) (name : string) : object :=
  if negb (startswith "_" name) && bool_decide (name ∉ arr) then
    match bound self o name with
    | Some v => <[name := v]> acc
    | None => acc
    end
  else acc.

Definition mask_step (o : object) (bits : list bool) (acc : object)
    (name : string) : object :=
  match lookup_attr o name with
  | Some v => <[name := mask_value bits v]> acc
  | None => acc
  end.

(** The attributes [EventList()] starts with. *)
Definition empty_event : object :=
  list_to_map
    [ ("energy", VNone); ("notes", VStr ""); ("dt", VNum 0);
      ("mjdref", VNum 0); ("gti", VNone); ("pi", VNone); ("ncounts", VNone);
      ("mission", VNone); ("instr", VNone); ("detector_id", VNone);
      ("header", VNone); ("ephem", VNone); ("timeref", VNone);
      ("timesys", VNone); ("time", VNone) ].

(** [EventList(time=[5], gti=[[0, 10]])] with a private attribute
    [_hidden = [7]]: one event, one GTI. *)
Definition private_store : state :=
  state_of
    ((let* e := EventList [("time", VArr [5%Q]); ("gti", VArr2 [(0, 10)%Q])] in
      setattr e "_hidden" (VArr [7%Q])) σ0).

(** The event list of the docstring of [apply_mask]:
    [EventList(time=[0, 1, 2], mission="nustar")] with
    [bubuattr = [222, 111, 333]]. *)
Definition bubu_store : state :=
  state_of
    ((let* e := EventList [("time", VArr [0; 1; 2]%Q); ("mission", VStr "nustar")] in
      setattr e "bubuattr" (VArr [222; 111; 333]%Q)) σ0).

(** [EventList(time=[0, 1, 2], energy=[0.3, 0.5, 2.0])] *)
Definition energy_store : state :=
  state_of
    (EventList [("time", VArr [0; 1; 2]%Q);
                ("energy", VArr [3 # 10; 1 # 2; 2]%Q)] σ0).

(** The store of the docstring after
    [evt.apply_mask([True, True, False])]: the copy is the instance 1. *)
Definition masked_store : state :=
  state_of (apply_mask 0%nat (MaskList [true; true; false]) false bubu_store).

(** The store of [energy_store] after [events.filter_energy_range([0, 1])]:
    the filtered list is the instance 1. *)
Definition filtered_store : state :=
  state_of (filter_energy_range 0%nat (0, 1)%Q false false energy_store).

(** ** Effects on the store *)

(** From [σ] to [σ'] no attribute changes but those in [fp], and no warning
    is lost. *)
Definition only (fp : ref → string → Prop) (σ σ' : state) : Prop :=
  (∀ r n, ¬ fp r n → attr σ' r n = attr σ r n)
  ∧ (∀ m, m ∈ warnings σ → m ∈ warnings σ').

(** ** The parts of [join] *)

(** An attribute [x] that [join] fills with zeros: it is absent on its side,
    which has the times [t], and present ([y]) on the other side. *)
Definition fill (x y : value) (t : list Q) : value :=
  if is_none x && negb (is_none y) then VArr (np_zeros_like t) else x.

(** The time of a side without times, once [join] has made it empty. *)
Definition or_empty (time : value) : value :=
  if is_none time then VArr [] else time.

(** The shift that brings times relative to [mjdref_o] to [mjdref]. *)
Definition epoch_shift (mjdref mjdref_o : Q) : Q :=
  fmul (fsub mjdref_o mjdref) 86400.

(** A value of the other side as [join] uses it: as it is when the epochs
    are close, shifted otherwise. *)
Definition reconcile (mjdref mjdref_o : Q) (v : value) : result value :=
  if np_isclose mjdref mjdref_o mjdref_atol then Ok v
  else value_add v (epoch_shift mjdref mjdref_o).

(** The GTI [join] gives a side with the events [time] and no GTI, when the
    other side has the GTI [gti_o]. *)
Definition default_gti (gti gti_o : value) (time : list Q) (dt : Q) : value :=
  if is_none gti && negb (is_none gti_o) && bool_decide (0 < length time)%nat
  then VArr2 [(default 0 (head time) - dt / 2, default 0 (last time) + dt / 2)%Q]
  else gti.

Definition gti_warning : string :=
  "GTIs in these two event lists do not overlap at all.Merging instead of returning an overlap.".

(** One interval lies in another. *)
Definition within (i j : Q * Q) : Prop := (j.1 <= i.1)%Q ∧ (i.2 <= j.2)%Q.

(** What [join] leaves in the attribute [name], filled with zeros where it
    was absent: on the two sides, whose values were [x] and [y] and whose
    times are [ta] and [tb], and on the result [ev]. *)
Definition zero_default_result (σ' : state) (name : string) (a b ev : ref)
    (x y : value) (ta tb : list Q) (order : list nat) : Prop :=
  attr σ' a name = Some (fill x y ta)
  ∧ attr σ' b name = Some (fill y x tb)
  ∧ (if is_none x && is_none y then attr σ' ev name = Some VNone
     else ∃ p q r,
       fill x y ta = VArr p ∧ fill y x tb = VArr q
       ∧ np_take (p ++ q) order = Ok r
       ∧ attr σ' ev name = Some (VArr r)).

(** What [join] leaves in [gti]: on the two sides, whose GTIs were [ga] and
    [gb], and on the result [ev]. *)
Definition gti_result (σ' : state) (a b ev : ref) (ga' gb' : value) : Prop :=
  attr σ' a "gti" = Some ga'
  ∧ attr σ' b "gti" = Some gb'
  ∧ (is_none ga' || is_none gb' = true → attr σ' ev "gti" = Some VNone)
  ∧ (is_none ga' || is_none gb' = false →
      ∃ g0 g1, ga' = VArr2 g0 ∧ gb' = VArr2 g1
        ∧ attr σ' ev "gti"
          = Some (VArr2 (if check_separate g0 g1 then append_gtis g0 g1
                         else cross_gtis [g0; g1]))
        ∧ (check_separate g0 g1 = true → gti_warning ∈ warnings σ')).

(** The times and the GTIs of the other side on the epoch of the first:
    as they are when the epochs are close, shifted otherwise. *)
Definition on_epoch {A} (shift : Q → A → A) (mjdref mjdref_o : Q) (x : A) : A :=
  if np_isclose mjdref mjdref_o mjdref_atol then x
  else shift (epoch_shift mjdref mjdref_o) x.

Definition shift_times (d : Q) (t : list Q) : list Q := (λ x, fadd x d) <$> t.

Definition shift_gti (d : Q) (g : list (Q * Q)) : list (Q * Q) :=
  (λ se, (fadd se.1 d, fadd se.2 d)) <$> g.

(** ** Example stores for [join] *)

Definition two_lists (a b : list (string * value)) : state :=
  state_of ((let* x := EventList a in EventList b) σ0).

(** [A = EventList(time=[1, 2, 3], gti=[[0, 4]])] at 0 and
    [B = EventList(time=[10, 11], gti=[[9, 12]])] at 1. *)
Definition join_store : state :=
  two_lists [("time", VArr [1; 2; 3]%Q); ("gti", VArr2 [(0, 4)%Q])]
            [("time", VArr [10; 11]%Q); ("gti", VArr2 [(9, 12)%Q])].

(** The same GTIs without times. *)
Definition timeless_store : state :=
  two_lists [("gti", VArr2 [(0, 4)%Q])] [("gti", VArr2 [(9, 12)%Q])].

(** The same lists, [B] with [mjdref=1]. *)
Definition epoch_store : state :=
  two_lists [("time", VArr [1; 2; 3]%Q); ("gti", VArr2 [(0, 4)%Q])]
            [("time", VArr [10; 11]%Q); ("gti", VArr2 [(9, 12)%Q]);
             ("mjdref", VNum 1)].

(** [A = EventList(time=[1], gti=[[0, 3]], mjdref=55000)] and
    [B = EventList(time=[2], gti=[[0, 3]], mjdref=55000.1)]: the epochs are
    8640 s apart.  The float that [55000.1] stands for is the one nearest
    to it. *)
Definition mjd_store : state :=
  two_lists [("time", VArr [1%Q]); ("gti", VArr2 [(0, 3)%Q]);
             ("mjdref", VNum 55000)]
            [("time", VArr [2%Q]); ("gti", VArr2 [(0, 3)%Q]);
             ("mjdref", VNum (round64 (550001 # 10)))].

(** [A = EventList(time=[4, 2], dt=2)] and
    [B = EventList(time=[1, 5, 3], pi=[10, 50, 30], gti=[[0, 6]])]. *)
Definition fill_store : state :=
  two_lists [("time", VArr [4; 2]%Q); ("dt", VNum 2)]
            [("time", VArr [1; 5; 3]%Q); ("pi", VArr [10; 50; 30]%Q);
             ("gti", VArr2 [(0, 6)%Q])].

(** * Further properties: vocabulary *)

(** ** Event lists that [join] accepts *)

(** A per-event attribute: absent, or one number per event. *)
Definition column_ok (v : value) (n : nat) : Prop :=
  v = VNone ∨ ∃ p, v = VArr p ∧ length p = n.

Definition gti_ok (v : value) : Prop := v = VNone ∨ ∃ g, v = VArr2 g.

Definition label_ok (v : value) : Prop := v = VNone ∨ ∃ s, v = VStr s.

(** [r] is an event list with the times [t]: numbers for [dt] and
    [mjdref], [pi] and [energy] absent or one per event, [gti] absent or an
    array of intervals. *)
Record event_list (σ : state) (r : ref) (t : list Q) : Prop := {
  el_time : attr σ r "time" = Some (VArr t);
  el_dt : ∃ dt, attr σ r "dt" = Some (VNum dt);
  el_mjdref : ∃ m, attr σ r "mjdref" = Some (VNum m);
  el_pi : ∃ v, attr σ r "pi" = Some v ∧ column_ok v (length t);
  el_energy : ∃ v, attr σ r "energy" = Some v ∧ column_ok v (length t);
  el_gti : ∃ v, attr σ r "gti" = Some v ∧ gti_ok v;
}.

(** The label [name] ([mission] or [instr]) of the two lists: absent or a
    string on each side. *)
Definition labels (σ : state) (a b : ref) (name : string) (x y : value) : Prop :=
  attr σ a name = Some x ∧ attr σ b name = Some y ∧ label_ok x ∧ label_ok y.

(** The two [mjdref] are close for [join]. *)
Definition same_epoch (σ : state) (a b : ref) : Prop :=
  ∃ ma mb, attr σ a "mjdref" = Some (VNum ma)
           ∧ attr σ b "mjdref" = Some (VNum mb)
           ∧ np_isclose ma mb mjdref_atol = true.

(** [A = EventList(time=[1, 2], mission="nustar")] and
    [B = EventList(time=[5])], whose [mission] is [None]; no GTIs. *)
Definition label_store : state :=
  two_lists [("time", VArr [1; 2]%Q); ("mission", VStr "nustar")]
            [("time", VArr [5%Q])].

(** [A = EventList(time=[1, 2], dt=0.5)] and
    [B = EventList(time=[5], dt=0.5, mjdref=1)]: no GTIs, epochs one day
    apart. *)
Definition apart_store : state :=
  two_lists [("time", VArr [1; 2]%Q); ("dt", VNum (1 # 2))]
            [("time", VArr [5%Q]); ("dt", VNum (1 # 2)); ("mjdref", VNum 1)].

(** The label [join] gives the result: the one of the first list when the
    two are equal, both with a comma between them otherwise. *)
Definition merged_label (x y : value) : value :=
  match x, y with
  | VStr s, VStr t => if (s =? t)%string then x else VStr (s +:+ "," +:+ t)
  | _, _ => x
  end.

(** The attributes [join] sets on its result. *)
Definition join_sets : list string :=
  ["time"; "pi"; "energy"; "gti"; "mission"; "instr"; "mjdref"; "dt"].

(** [A = EventList(time=[1, 2], mission="nustar", dt=0.5)] and
    [B = EventList(time=[5], mission="xmm", dt=0.5)]; no GTIs. *)
Definition mission_store : state :=
  two_lists [("time", VArr [1; 2]%Q); ("mission", VStr "nustar");
             ("dt", VNum (1 # 2))]
            [("time", VArr [5%Q]); ("mission", VStr "xmm");
             ("dt", VNum (1 # 2))].

(** [A = EventList(time=[1, 2, 3], gti=[[0, 4]], dt=0.5)] and
    [B = EventList(time=[10, 11], gti=[[9, 12]], dt=0.5)]. *)
Definition dt_store : state :=
  two_lists [("time", VArr [1; 2; 3]%Q); ("gti", VArr2 [(0, 4)%Q]);
             ("dt", VNum (1 # 2))]
            [("time", VArr [10; 11]%Q); ("gti", VArr2 [(9, 12)%Q]);
             ("dt", VNum (1 # 2))].

(** ** The constructor *)

(** The parameters of [__init__] that become attributes as they are given,
    with their defaults. *)
Definition init_defaults : list (string * value) :=
  [ ("energy", VNone); ("notes", VStr ""); ("dt", VNum 0); ("mjdref", VNum 0);
    ("gti", VNone); ("pi", VNone); ("mission", VNone); ("instr", VNone);
    ("detector_id", VNone); ("header", VNone); ("ephem", VNone);
    ("timeref", VNone); ("timesys", VNone) ].

(** The number [n] as [ncounts] holds it. *)
Definition count (n : nat) : value := VNum (inject_Z (Z.of_nat n)).

(** The keywords that are not parameters of [__init__]. *)
Definition unrecognized (kws : list (string * value)) : list string :=
  filter (λ n, n ∉ init_params) kws.*1.

(** [EventList(time=[1, 2, 3], ncounts=7, colour=5)]: a count that is not
    the number of times, and a keyword that is no parameter. *)
Definition odd_keywords : list (string * value) :=
  [("time", VArr [1; 2; 3]%Q); ("ncounts", VNum 7); ("colour", VNum 5)].

(** ** The meta data and the columns *)

(** What one round of the loop of [get_meta_dict] does to the dictionary,
    and one round of the loop over the array attributes of
    [to_astropy_table] and [to_pandas]. *)
Definition meta_step (o : object) (d : dict) (key : string) : dict :=
  match lookup_attr o key with
  | Some v => if negb (is_none v) then dict_set d key v else d
  | None => d
  end.

Definition column_step (o : object) (d : dict) (name : string) : dict :=
  match lookup_attr o name with
  | Some v => dict_set d name (np_asarray v)
  | None => d
  end.

(** [v] is an array attribute for times of the shape [sh]. *)
Definition array_like (sh : list nat) (v : value) : Prop :=
  is_iterable v = true ∧ np_shape v = sh.

(** [EventList()], the first instance of its store. *)
Definition empty_store : state := state_of (EventList [] σ0).

(** ** Epochs *)

(** The time [t], in seconds after the epoch [mjdref] (in days), as
    seconds after MJD 0. *)
Definition absolute (mjdref t : Q) : Q := (mjdref * 86400 + t)%Q.

(** Adding [d] to [x] rounds nothing. *)
Definition exact_add (d x : Q) : Prop := (fadd x d == x + d)%Q.

(** The shift that [change_mjdref] computes from the epoch [m] to the
    epoch [m'] is the difference of the two, in seconds: nothing is rounded
    in it. *)
Definition exact_epochs (m m' : Q) : Prop :=
  (epoch_shift m' m == (m - m') * 86400)%Q.

(** [EventList(time=[1, 2])]: times, no GTIs. *)
Definition no_gti_store : state :=
  state_of (EventList [("time", VArr [1; 2]%Q)] σ0).

(** [EventList(time=[10, 20], gti=[[0, 30]], mjdref=55000)] *)
Definition mjdref_store : state :=
  state_of (EventList [("time", VArr [10; 20]%Q); ("gti", VArr2 [(0, 30)%Q]);
                       ("mjdref", VNum 55000)] σ0).

(** ** Light curves *)

(** The number of events [from_lc] makes for a bin with the count [c]. *)
Definition bin_events (c : Q) : nat := Z.to_nat (py_int c).

(** How often the instant [t] is among the times [ts]. *)
Definition occurrences (t : Q) (ts : list Q) : nat :=
  length (List.filter (Qeq_bool t) ts).

(** Every GTI ends no earlier than it starts. *)
Definition gti_forward (gti : list (Q * Q)) : Prop :=
  Forall (λ g, (g.1 <= g.2)%Q) gti.

(** [EventList(time=[1, 5, 6], gti=[[0, 2], [4, 7]])] *)
Definition span_store : state :=
  state_of (EventList [("time", VArr [1; 5; 6]%Q);
                       ("gti", VArr2 [(0, 2)%Q; (4, 7)%Q])] σ0).

(** ** Dead time *)

(** A mask generator for the examples: it keeps the events at even places. *)
Definition every_other (time : value) (deadtime : Q) : result (list bool * value) :=
  match time with
  | VArr t => Ok (imap (λ i _, Nat.even i) t, VNone)
  | _ => Raise TypeError
  end.

(** * Verification *)

(** ** Order on numbers *)

Lemma Qltb_lt x y : Qltb x y = true ↔ (x < y)%Q.
Proof.
  unfold Qltb. rewrite negb_true_iff, <- not_true_iff_false, Qle_bool_iff.
  split; [apply Qnot_le_lt | apply Qlt_not_le].
Qed.

Lemma Qltb_ge x y : Qltb x y = false ↔ (y <= x)%Q.
Proof. unfold Qltb. rewrite negb_false_iff. apply Qle_bool_iff. Qed.

Lemma Qle_bool_gt x y : Qle_bool x y = false ↔ (y < x)%Q.
Proof.
  rewrite <- not_true_iff_false, Qle_bool_iff.
  split; [apply Qnot_le_lt | apply Qlt_not_le].
Qed.

#[global] Instance Qle_transitive : Transitive Qle.
Proof. intros x y z. apply Qle_trans. Qed.

(** ** Filtered lists *)

Lemma elem_of_filter_bool {A} (g : A → bool) l x :
  x ∈ List.filter g l ↔ x ∈ l ∧ g x = true.
Proof. rewrite !list_elem_of_In. apply filter_In. Qed.

(** ** Bisection and slices *)

Lemma StronglySorted_ascending a : StronglySorted Qle a → ascending a.
Proof.
  induction 1 as [|x a Hs IH Hall]; intros i j u v Hij Hi Hj.
  - by rewrite lookup_nil in Hi.
  - destruct i as [|i], j as [|j]; simplify_eq/=.
    + apply Qle_refl.
    + rewrite Forall_lookup in Hall. eauto.
    + lia.
    + eapply IH; [|done..]. lia.
Qed.

Lemma StronglySorted_impl {A} (R R' : relation A) l :
  (∀ x y, R x y → R' x y) → StronglySorted R l → StronglySorted R' l.
Proof.
  intros HR. induction 1; constructor; [done|].
  eapply Forall_impl; eauto.
Qed.

Lemma goes_right_mono s x y v :
  (x <= y)%Q → goes_right s y v = true → goes_right s x v = true.
Proof.
  intros Hxy. destruct s; simpl.
  - rewrite !Qltb_lt. intros. by eapply Qle_lt_trans.
  - rewrite !Qle_bool_iff. intros. by eapply Qle_trans.
Qed.

Lemma bisect_spec fuel s a v lo hi :
  ascending a →
  (lo ≤ hi ≤ length a)%nat → (hi - lo ≤ fuel)%nat →
  (∀ i x, (i < lo)%nat → a !! i = Some x → goes_right s x v = true) →
  (∀ i x, (hi ≤ i)%nat → a !! i = Some x → goes_right s x v = false) →
  partition_point s a v (bisect fuel s a v lo hi).
Proof.
  intros Hasc. revert lo hi.
  induction fuel as [|fuel IH]; intros lo hi Hb Hf Hlo Hhi; cbn [bisect].
  - assert (lo = hi) as -> by lia. split; [lia|]. by split.
  - destruct (Nat.ltb_spec lo hi) as [Hlt|Hge].
    2:{ assert (lo = hi) as -> by lia. split; [lia|]. by split. }
    set (mid := (lo + (hi - lo) / 2)%nat).
    assert (lo ≤ mid < hi)%nat as Hmid.
    { unfold mid. split; [lia|].
      assert ((hi - lo) / 2 < hi - lo)%nat; [|lia].
      apply Nat.div_lt; lia. }
    destruct (lookup_lt_is_Some_2 a mid) as [x Hx]; [lia|].
    rewrite Hx. destruct (goes_right s x v) eqn:Hg.
    + apply IH; [lia|lia| |done].
      intros i y Hi Hy. eapply goes_right_mono; [|exact Hg].
      eapply (Hasc i mid); [lia|done..].
    + apply IH; [lia|lia|done|].
      intros i y Hi Hy. destruct (goes_right s y v) eqn:Hgy; [|done].
      rewrite <- Hg. symmetry. eapply goes_right_mono; [|exact Hgy].
      eapply (Hasc mid i); [lia|done..].
Qed.

Lemma np_searchsorted_spec s a v :
  ascending a → partition_point s a v (np_searchsorted a v s).
Proof.
  intros Hasc. apply bisect_spec; [done|lia|lia| |].
  - intros; lia.
  - intros i x Hi Hx. apply lookup_lt_Some in Hx. lia.
Qed.

Lemma partition_point_right a v r :
  partition_point Right a v r → first_index (λ t, (v < t)%Q) a r.
Proof.
  intros (Hr & H1 & H2). split; [done|]. split.
  - intros i x Hi Hx. apply Qle_not_lt, Qle_bool_iff. by apply (H1 i).
  - intros i x Hi Hx. apply Qle_bool_gt. by apply (H2 i).
Qed.

Lemma partition_point_left a v r :
  partition_point Left a v r → first_index (λ t, (v <= t)%Q) a r.
Proof.
  intros (Hr & H1 & H2). split; [done|]. split.
  - intros i x Hi Hx. apply Qlt_not_le, Qltb_lt. by apply (H1 i).
  - intros i x Hi Hx. apply Qltb_ge. by apply (H2 i).
Qed.

Lemma filter_none {A} (p : A → bool) l :
  Forall (λ x, p x = false) l → List.filter p l = [].
Proof. induction 1 as [|x l Hx _ IH]; simpl; [done|]. by rewrite Hx. Qed.

Lemma filter_all {A} (p : A → bool) l :
  Forall (λ x, p x = true) l → List.filter p l = l.
Proof. induction 1 as [|x l Hx _ IH]; simpl; [done|]. by rewrite Hx, IH. Qed.

Lemma slice_inside a st en i j :
  partition_point Right a st i → partition_point Left a en j →
  slice a i j = List.filter (inside (st, en)) a.
Proof.
  intros (Hi & Hi1 & Hi2) (Hj & Hj1 & Hj2). unfold slice.
  rewrite <- (take_drop i a) at 2. rewrite List.filter_app.
  rewrite filter_none.
  2:{ apply Forall_lookup. intros k x Hk.
      apply lookup_take_Some in Hk as [Hk ?].
      apply Hi1 in Hk; [|done]. simpl in Hk. apply Qle_bool_iff in Hk.
      unfold inside. simpl. apply andb_false_iff. left. by apply Qltb_ge. }
  simpl. rewrite <- (take_drop (j - i) (drop i a)) at 2.
  rewrite List.filter_app, filter_all, (filter_none _ (drop _ _)).
  - by rewrite app_nil_r.
  - apply Forall_lookup. intros k x Hk. rewrite !lookup_drop in Hk.
    unfold inside. simpl. apply andb_false_iff. right.
    apply (Hj2 (i + (j - i + k))%nat); [lia|done].
  - apply Forall_lookup. intros k x Hk.
    apply lookup_take_Some in Hk as [Hk ?]. rewrite lookup_drop in Hk.
    unfold inside. simpl. apply andb_true_iff. split.
    + apply Qltb_lt, Qle_bool_gt. apply (Hi2 (i + k)%nat); [lia|done].
    + apply (Hj1 (i + k)%nat); [lia|done].
Qed.

(** Two filters that select disjoint parts of a list, the first part before
    the second, concatenate to the filter of their union. *)
Lemma filter_split {A} (p q : A → bool) l :
  (∀ x, p x = true → q x = false) →
  StronglySorted (λ x y, ¬ (q x = true ∧ p y = true)) l →
  List.filter p l ++ List.filter q l = List.filter (λ x, p x || q x) l.
Proof.
  intros Hpq. induction 1 as [|x l Hs IH Hall]; simpl; [done|].
  destruct (p x) eqn:Hp; simpl.
  - rewrite (Hpq _ Hp). by rewrite <- IH.
  - destruct (q x) eqn:Hq; [|done].
    assert (Forall (λ y, p y = false) l) as Hnone.
    { eapply Forall_impl; [exact Hall|]. simpl. intros y Hy.
      destruct (p y); [|done]. by destruct Hy. }
    rewrite filter_none in IH |- * by done.
    simpl in *. by rewrite <- IH.
Qed.

Lemma segments_concat time gti :
  StronglySorted Qle time → gti_ordered gti →
  concat ((λ g, List.filter (inside g) time) <$> gti)
  = List.filter (in_some_gti gti) time.
Proof.
  intros Ht. induction 1 as [|g gti Hs IH Hall].
  - simpl. by rewrite filter_none; [|apply Forall_true].
  - rewrite fmap_cons. cbn [concat]. rewrite IH. apply filter_split.
    + intros t [Hg1 Hg2]%andb_true_iff.
      apply not_true_iff_false. intros [h [Hh Hin]]%existsb_exists.
      apply andb_true_iff in Hin as [Hh1 _].
      rewrite Forall_forall in Hall. apply list_elem_of_In, Hall in Hh.
      apply Qltb_lt in Hg2, Hh1.
      apply (Qlt_irrefl t). eapply Qlt_le_trans; [exact Hg2|].
      eapply Qle_trans; [exact Hh|]. by apply Qlt_le_weak.
    + eapply StronglySorted_impl; [|exact Ht]. simpl.
      intros x y Hxy [[h [Hh Hin]]%existsb_exists [_ Hy]%andb_true_iff].
      apply andb_true_iff in Hin as [Hh1 _].
      rewrite Forall_forall in Hall. apply list_elem_of_In, Hall in Hh.
      apply Qltb_lt in Hy, Hh1.
      apply (Qlt_irrefl y). eapply Qlt_le_trans; [exact Hy|].
      eapply Qle_trans; [exact Hh|].
      eapply Qle_trans; [|exact Hxy]. by apply Qlt_le_weak.
Qed.

(** ** Running computations *)

Local Open Scope py_scope.

Lemma bind_Ok {A B} (m : M A) (k : A → M B) σ y σ' :
  bind m k σ = Ok (y, σ') ↔ ∃ x σ1, m σ = Ok (x, σ1) ∧ k x σ1 = Ok (y, σ').
Proof.
  unfold bind. split.
  - destruct (m σ) as [[x σ1]|]; [eauto|done].
  - by intros (x & σ1 & -> & ?).
Qed.

Lemma bind_eq {A B} (m : M A) (k : A → M B) σ x σ1 :
  m σ = Ok (x, σ1) → bind m k σ = k x σ1.
Proof. unfold bind. by intros ->. Qed.

Lemma bind_assoc {A B C} (m : M A) (f : A → M B) (k : B → M C) σ :
  bind (bind m f) k σ = bind m (λ x, bind (f x) k) σ.
Proof. unfold bind. by destruct (m σ) as [[??]|]. Qed.

Lemma bind_ret {A B} (x : A) (k : A → M B) σ : bind (ret x) k σ = k x σ.
Proof. done. Qed.

Lemma bind_lift {A B} (x : A) (k : A → M B) σ : bind (lift (Ok x)) k σ = k x σ.
Proof. done. Qed.

Lemma getattr_eq r n σ v : attr σ r n = Some v → getattr r n σ = Ok (v, σ).
Proof. unfold getattr. by intros ->. Qed.

Lemma setattr_eq r n v σ o :
  heap σ !! r = Some o →
  setattr r n v σ = Ok (tt, State (<[r := <[n := v]> o]> (heap σ)) (warnings σ)).
Proof. unfold setattr. by intros ->. Qed.

Lemma bind_getattr {B} r n (k : value → M B) σ v :
  attr σ r n = Some v → bind (getattr r n) k σ = k v σ.
Proof. intros H. apply bind_eq. by apply getattr_eq. Qed.

Lemma bind_setattr {B} r n v (k : unit → M B) σ o :
  heap σ !! r = Some o →
  bind (setattr r n v) k σ
  = k tt (State (<[r := <[n := v]> o]> (heap σ)) (warnings σ)).
Proof. intros H. apply bind_eq. by apply setattr_eq. Qed.

Lemma bind_deref {B} r (k : object → M B) σ o :
  heap σ !! r = Some o → bind (deref r) k σ = k o σ.
Proof. intros H. apply bind_eq. unfold deref. by rewrite H. Qed.

Lemma bind_alloc {B} o (k : ref → M B) σ :
  bind (alloc o) k σ
  = k (fresh (dom (heap σ)))
      (State (<[fresh (dom (heap σ)) := o]> (heap σ)) (warnings σ)).
Proof. done. Qed.

Lemma bind_simon {B} msg (k : unit → M B) σ :
  bind (simon msg) k σ = k tt (State (heap σ) (warnings σ ++ [msg])).
Proof. done. Qed.

(** ** Reading the store *)

Lemma attr_heap σ w : attr (State (heap σ) w) = attr σ.
Proof. done. Qed.

Lemma attr_insert h w r o r' n :
  attr (State (<[r := o]> h) w) r' n
  = if decide (r' = r) then lookup_attr o n else attr (State h w) r' n.
Proof.
  unfold attr. simpl. case_decide as Hr.
  - subst. by rewrite lookup_insert_eq.
  - by rewrite lookup_insert_ne.
Qed.

Lemma lookup_attr_insert o n v n' :
  lookup_attr (<[n := v]> o) n'
  = if decide (n' = n) then Some v else lookup_attr o n'.
Proof.
  unfold lookup_attr. case_decide as Hn.
  - subst. by rewrite lookup_insert_eq.
  - by rewrite lookup_insert_ne.
Qed.

Lemma attr_lookup σ r o n :
  heap σ !! r = Some o → attr σ r n = lookup_attr o n.
Proof. unfold attr. by intros ->. Qed.

Lemma attr_is_Some σ r n v : attr σ r n = Some v → is_Some (heap σ !! r).
Proof. unfold attr. destruct (heap σ !! r); [eauto|done]. Qed.

Lemma fresh_heap (h : gmap ref object) : h !! fresh (dom h) = None.
Proof. apply not_elem_of_dom, is_fresh. Qed.

(** Reads of a store built from inserts. *)
Ltac simpl_attr :=
  repeat first
    [ progress simpl heap in *
    | progress simpl warnings in *
    | rewrite attr_heap
    | rewrite attr_insert
    | rewrite lookup_attr_insert
    | rewrite lookup_insert_eq
    | rewrite lookup_insert_ne by done
    | rewrite insert_insert_eq
    | rewrite decide_True by done
    | rewrite decide_False by done ].

Ltac solve_attr := simpl_attr; first [done | eassumption].

Ltac simpl_val :=
  cbn [value_add value_getmask as_num as_arr as_gti shape_of size_of
       np_asarray is_none assign_value_if_none negb andb orb].

(** One step of a computation whose reads are known. *)
Ltac run_step :=
  first
    [ rewrite bind_assoc
    | progress simpl_val
    | rewrite bind_ret
    | rewrite bind_lift
    | rewrite bind_alloc
    | rewrite bind_simon
    | erewrite bind_getattr by solve_attr
    | erewrite bind_setattr by solve_attr
    | erewrite bind_deref by solve_attr ];
  simpl_attr.

(** ** The segmenter *)

Lemma zip_gti (gti : list (Q * Q)) :
  zip (zip gti.*1 gti.*2) (zip_with Qminus gti.*2 gti.*1)
  = (λ g, (g.1, g.2, g.2 - g.1)%Q) <$> gti.
Proof. induction gti as [|[??] gti IH]; [done|]. rewrite !fmap_cons. cbn [zip_with]. by rewrite IH. Qed.

Lemma to_lc_list_eq σ self time gti mjdref dt :
  attr σ self "time" = Some (VArr time) →
  attr σ self "gti" = Some (VArr2 gti) →
  attr σ self "mjdref" = Some mjdref →
  to_lc_list self dt σ = Ok (segment time dt mjdref <$> gti, σ).
Proof.
  intros Ht Hg Hm. unfold to_lc_list, getarr. repeat run_step.
  unfold ret. do 2 f_equal. rewrite zip_gti, <- list_fmap_compose.
  by apply list_fmap_ext.
Qed.

Lemma StronglySorted_elem_of {A} (R : relation A) l x y :
  StronglySorted R l → x ∈ l → y ∈ l → x = y ∨ R x y ∨ R y x.
Proof.
  induction 1 as [|z l Hs IH Hall]; intros Hx Hy.
  - by apply elem_of_nil in Hx.
  - rewrite Forall_forall in Hall.
    apply elem_of_cons in Hx as [->|Hx], Hy as [->|Hy]; auto.
Qed.

Lemma boundary_in_no_gti gti g t :
  gti_ordered gti → gti_forward gti → g ∈ gti →
  (t == g.1 ∨ t == g.2)%Q → in_some_gti gti t = false.
Proof.
  intros Hord Hfwd Hg Ht. unfold gti_forward in Hfwd.
  rewrite Forall_forall in Hfwd. pose proof (Hfwd g Hg) as Hgg.
  assert (g.1 <= t ∧ t <= g.2)%Q as [Hlo Hhi].
  { destruct Ht as [Ht|Ht]; rewrite Ht; split;
      (done || apply Qle_refl). }
  apply not_true_iff_false. unfold in_some_gti. rewrite existsb_exists.
  intros (h & Hh%list_elem_of_In & Hin).
  apply andb_true_iff in Hin as [Hst%Qltb_lt Hen%Qltb_lt].
  destruct (StronglySorted_elem_of _ _ g h Hord Hg Hh) as [<-|[Hgh|Hhg]].
  - destruct Ht as [Ht|Ht]; rewrite Ht in *; by eapply Qlt_irrefl.
  - apply (Qlt_irrefl t). eapply Qle_lt_trans; [|exact Hst].
    by eapply Qle_trans.
  - apply (Qlt_irrefl t). eapply Qlt_le_trans; [exact Hen|].
    by eapply Qle_trans.
Qed.

(** C3, as the code has it: the segment of the GTI [[st, en]] starts at
    the first event with [time > st] and stops before the first event with
    [time >= en], so it holds exactly the events strictly inside that GTI:
    an event on a boundary of a GTI is not in the segment of that GTI.  For
    GTIs in order that do not overlap, the segments joined in GTI order are
    the events strictly inside some GTI, each once and in their order; when
    moreover no GTI ends before it starts, an event on a boundary of a GTI
    is in no segment at all. *)
Theorem to_lc_list_segments σ self time gti mjdref dt :
  attr σ self "time" = Some (VArr time) →
  attr σ self "gti" = Some (VArr2 gti) →
  attr σ self "mjdref" = Some mjdref →
  Sorted Qle time →
  ∃ lcs,
    to_lc_list self dt σ = Ok (lcs, σ)
    ∧ length lcs = length gti
    ∧ (∀ k st en, gti !! k = Some (st, en) →
        ∃ lc idx_st idx_end,
          lcs !! k = Some lc
          ∧ idx_st = np_searchsorted time st Right
          ∧ idx_end = np_searchsorted time en Left
          ∧ first_index (λ t, (st < t)%Q) time idx_st
          ∧ first_index (λ t, (en <= t)%Q) time idx_end
          ∧ lc_time lc = slice time idx_st idx_end
          ∧ lc_time lc = List.filter (inside (st, en)) time
          ∧ (∀ t, t ∈ lc_time lc ↔ t ∈ time ∧ (st < t)%Q ∧ (t < en)%Q)
          ∧ lc_gti lc = [(st, en)])
    ∧ (gti_ordered gti →
        concat (lc_time <$> lcs) = List.filter (in_some_gti gti) time
        ∧ (gti_forward gti →
           ∀ t g, g ∈ gti → (t == g.1 ∨ t == g.2)%Q →
             t ∉ concat (lc_time <$> lcs))).
Proof.
  intros Ht Hg Hm Hsorted.
  apply Sorted_StronglySorted in Hsorted; [|apply _].
  pose proof (StronglySorted_ascending _ Hsorted) as Hasc.
  eexists. split; [by apply to_lc_list_eq|].
  split; [by rewrite length_fmap|]. split.
  - intros k st en Hk. eexists _, _, _.
    split; [by rewrite list_lookup_fmap, Hk|]. simpl.
    pose proof (np_searchsorted_spec Right time st Hasc) as Hr.
    pose proof (np_searchsorted_spec Left time en Hasc) as Hl.
    split; [done|]. split; [done|].
    split; [by apply partition_point_right|].
    split; [by apply partition_point_left|].
    split; [done|].
    assert (slice time (np_searchsorted time st Right)
              (np_searchsorted time en Left)
            = List.filter (inside (st, en)) time) as Hseg
      by (by apply slice_inside).
    split; [done|]. split; [|done].
    intros t. rewrite Hseg, elem_of_filter_bool. unfold inside. simpl.
    by rewrite andb_true_iff, !Qltb_lt.
  - intros Hord.
    assert (concat (lc_time <$> (segment time dt mjdref <$> gti))
            = List.filter (in_some_gti gti) time) as Hcat.
    { rewrite <- segments_concat by done.
      rewrite <- list_fmap_compose. f_equal. apply list_fmap_ext.
      intros _ [st en] _. simpl.
      apply slice_inside; by apply np_searchsorted_spec. }
    split; [done|]. intros Hfwd t g0 Hg0 Ht0. rewrite Hcat.
    intros [_ Hin]%elem_of_filter_bool.
    by rewrite (boundary_in_no_gti gti g0 t) in Hin.
Qed.

Lemma to_lc_list_segments_witness :
  ∃ lcs,
    to_lc_list 0%nat 1 boundary_store = Ok (lcs, boundary_store)
    ∧ length lcs = 1%nat
    ∧ (∀ k st en, [(0, 2)%Q] !! k = Some (st, en) →
        ∃ lc idx_st idx_end,
          lcs !! k = Some lc
          ∧ idx_st = np_searchsorted [0; 1; 2]%Q st Right
          ∧ idx_end = np_searchsorted [0; 1; 2]%Q en Left
          ∧ first_index (λ t, (st < t)%Q) [0; 1; 2]%Q idx_st
          ∧ first_index (λ t, (en <= t)%Q) [0; 1; 2]%Q idx_end
          ∧ lc_time lc = slice [0; 1; 2]%Q idx_st idx_end
          ∧ lc_time lc = List.filter (inside (st, en)) [0; 1; 2]%Q
          ∧ (∀ t, t ∈ lc_time lc ↔ t ∈ [0; 1; 2]%Q ∧ (st < t)%Q ∧ (t < en)%Q)
          ∧ lc_gti lc = [(st, en)])
    ∧ (gti_ordered [(0, 2)%Q] →
        concat (lc_time <$> lcs)
        = List.filter (in_some_gti [(0, 2)%Q]) [0; 1; 2]%Q
        ∧ (gti_forward [(0, 2)%Q] →
           ∀ t g, g ∈ [(0, 2)%Q] → (t == g.1 ∨ t == g.2)%Q →
             t ∉ concat (lc_time <$> lcs))).
Proof.
  apply (to_lc_list_segments boundary_store 0%nat [0; 1; 2]%Q [(0, 2)%Q]
           (VNum 0) 1%Q).
  - vm_compute. reflexivity.
  - vm_compute. reflexivity.
  - vm_compute. reflexivity.
  - repeat constructor; vm_compute; discriminate.
Defined.

(** C3, the claim as it reads fails: with events at 0, 1 and 2 and the GTI
    [[0, 2]], the lower bound is 1 and not the index 0 of the first event
    with [time >= 0], the upper bound is 2 and not the index 3 of the first
    event with [time > 2], and the events 0 and 2, which lie in the GTI, are
    in no segment. *)
Lemma to_lc_list_drops_boundary_events :
  attr boundary_store 0%nat "time" = Some (VArr [0; 1; 2]%Q)
  ∧ attr boundary_store 0%nat "gti" = Some (VArr2 [(0, 2)%Q])
  ∧ np_searchsorted [0; 1; 2]%Q 0 Right = 1%nat
  ∧ first_index (λ t, (0 <= t)%Q) [0; 1; 2]%Q 0
  ∧ np_searchsorted [0; 1; 2]%Q 2 Left = 2%nat
  ∧ first_index (λ t, (2 < t)%Q) [0; 1; 2]%Q 3
  ∧ returns (let* lcs := to_lc_list 0%nat 1 in ret (lc_time <$> lcs))
      boundary_store = Some [[1%Q]]
  ∧ List.filter (λ t, existsb (λ g, inside_closed g t) [(0, 2)%Q])
      [0; 1; 2]%Q = [0; 1; 2]%Q.
Proof.
  split; [by vm_compute|]. split; [by vm_compute|].
  split; [by vm_compute|]. split.
  { split; [simpl; lia|]. split; [intros; lia|].
    intros i x _ Hx. destruct i as [|[|[|i]]]; simplify_eq/=; by vm_compute. }
  split; [by vm_compute|]. split.
  { split; [simpl; lia|]. split.
    - intros i x Hi Hx. destruct i as [|[|[|i]]]; simplify_eq/=; try lia;
        by vm_compute.
    - intros i x Hi Hx. apply lookup_lt_Some in Hx. simpl in Hx. lia. }
  split; by vm_compute.
Qed.

(** ** [shift] *)

Lemma shift_eq σ s o time gti time' gti' d :
  heap σ !! s = Some o →
  lookup_attr o "time" = Some time → lookup_attr o "gti" = Some gti →
  value_add time d = Ok time' → value_add gti d = Ok gti' →
  shift s d σ
  = Ok (fresh (dom (heap σ)),
        State (<[fresh (dom (heap σ)) := <["gti" := gti']> (<["time" := time']> o)]>
                 (heap σ)) (warnings σ)).
Proof.
  intros Hs Ht Hg Ht' Hg'. unfold shift, deepcopy.
  do 4 run_step. rewrite Ht'. repeat run_step. rewrite Hg'. by repeat run_step.
Qed.

(** Rounding depends on the number only, not on the fraction that stands
    for it. *)
Lemma round64_proper x y : (x == y)%Q → round64 x = round64 y.
Proof. intros Hxy. unfold round64. by rewrite (Qred_complete x y Hxy). Qed.

Lemma shift_back d x : exact_sum d x → (fadd (fadd x d) (- d) == x)%Q.
Proof.
  intros [Hx Hsum]. unfold fadd.
  rewrite (round64_proper (round64 (x + d) + - d) x); [done|].
  rewrite Hsum. ring.
Qed.

(** C7, as the code has it: [shift] returns a new instance, a copy of [s]
    in which [d] is added to each time and each GTI boundary, the sum
    rounded as float64 rounds it, and whose other attributes, [mjdref]
    among them, are those of [s]; [s] itself is left as it was.  Shifting
    the result by [-d] adds [-d] in the same way: a time [x] comes back as
    the float sum of [x + d] (rounded) and [-d], which is [x] again where
    [x + d] needs no rounding. *)
Theorem shift_round_trip σ s t g d :
  attr σ s "time" = Some (VArr t) →
  attr σ s "gti" = Some (VArr2 g) →
  ∃ r σ',
    shift s d σ = Ok (r, σ')
    ∧ heap σ !! r = None
    ∧ heap σ' !! s = heap σ !! s
    ∧ attr σ' r "time" = Some (VArr ((λ x, fadd x d) <$> t))
    ∧ attr σ' r "gti" = Some (VArr2 ((λ se, (fadd se.1 d, fadd se.2 d)) <$> g))
    ∧ attr σ' r "mjdref" = attr σ s "mjdref"
    ∧ (∀ n, n ≠ "time" → n ≠ "gti" → attr σ' r n = attr σ s n)
    ∧ ∃ r2 σ2 t2 g2,
        shift r (- d) σ' = Ok (r2, σ2)
        ∧ attr σ2 r2 "time" = Some (VArr t2)
        ∧ attr σ2 r2 "gti" = Some (VArr2 g2)
        ∧ t2 = (λ x, fadd (fadd x d) (- d)) <$> t
        ∧ g2 = (λ se, (fadd (fadd se.1 d) (- d), fadd (fadd se.2 d) (- d))) <$> g
        ∧ (Forall (exact_sum d) t → Forall2 Qeq t2 t)
        ∧ (Forall (λ se, exact_sum d se.1 ∧ exact_sum d se.2) g →
           Forall2 (λ p q, p.1 == q.1 ∧ p.2 == q.2)%Q g2 g)
        ∧ attr σ2 r2 "mjdref" = attr σ s "mjdref".
Proof.
  intros Ht Hg.
  destruct (attr_is_Some _ _ _ _ Ht) as [o Hs].
  rewrite (attr_lookup _ _ _ _ Hs) in Ht. rewrite (attr_lookup _ _ _ _ Hs) in Hg.
  set (r := fresh (dom (heap σ))).
  assert (heap σ !! r = None) as Hr by apply fresh_heap.
  assert (r ≠ s) as Hrs by (intros ->; congruence).
  eexists r, _. split; [by eapply shift_eq|].
  split; [done|]. split; [by simpl_attr|].
  split; [by simpl_attr|]. split; [by simpl_attr|].
  assert (∀ n, n ≠ "time" → n ≠ "gti" →
    attr (State (<[r := <["gti" := VArr2 ((λ se, (fadd se.1 d, fadd se.2 d)) <$> g)]>
                          (<["time" := VArr ((λ x, fadd x d) <$> t)]> o)]> (heap σ))
            (warnings σ)) r n = attr σ s n) as Hrest.
  { intros n ??. simpl_attr. symmetry. by apply attr_lookup. }
  split; [by apply Hrest|]. split; [done|].
  eexists _, _, _, _. split.
  { eapply shift_eq; [by simpl_attr|by simpl_attr|by simpl_attr|done..]. }
  split; [by simpl_attr|]. split; [by simpl_attr|].
  split; [by rewrite <- list_fmap_compose|].
  split; [by rewrite <- list_fmap_compose|].
  split; [|split].
  - intros Hexact. apply Forall2_fmap_l, Forall2_fmap_l, Forall_Forall2_diag.
    eapply Forall_impl; [exact Hexact|]. intros x. apply shift_back.
  - intros Hexact. apply Forall2_fmap_l, Forall2_fmap_l, Forall_Forall2_diag.
    eapply Forall_impl; [exact Hexact|]. intros [x y] [Hx Hy]. simpl in *.
    split; by apply shift_back.
  - simpl_attr. symmetry. by apply attr_lookup.
Qed.

Lemma shift_round_trip_witness :
  ∃ r σ',
    shift 0%nat 5 boundary_store = Ok (r, σ')
    ∧ attr σ' r "time" = Some (VArr [5; 6; 7]%Q)
    ∧ attr σ' r "gti" = Some (VArr2 [(5, 7)%Q])
    ∧ ∃ r2 σ2,
        shift r (- (5)) σ' = Ok (r2, σ2)
        ∧ attr σ2 r2 "time" = Some (VArr [0; 1; 2]%Q)
        ∧ attr σ2 r2 "gti" = Some (VArr2 [(0, 2)%Q]).
Proof.
  destruct (shift_round_trip boundary_store 0%nat [0; 1; 2]%Q [(0, 2)%Q] 5%Q)
    as (r & σ' & Hrun & _ & _ & Ht & Hg & _ & _ & r2 & σ2 & t2 & g2 & Hrun2
        & Ht2 & Hg2 & -> & -> & _).
  - vm_compute. reflexivity.
  - vm_compute. reflexivity.
  - exists r, σ'. split; [exact Hrun|]. split; [exact Ht|]. split; [exact Hg|].
    exists r2, σ2. split; [exact Hrun2|]. split; [exact Ht2|exact Hg2].
Defined.

(** C7, the claim as it reads fails: the time [1], shifted by [1e17] and
    back, is [0], and the GTI [[0, 2]] comes back as [[0, 0]]: next to
    [1e17] the floats are 16 apart, so [1 + 1e17] and [2 + 1e17] are
    rounded to [1e17].  The error is as large as the time itself; it is
    small only next to the shift. *)
Lemma shift_round_trip_loses_time :
  attr one_store 0%nat "time" = Some (VArr [1%Q])
  ∧ attr one_store 0%nat "gti" = Some (VArr2 [(0, 2)%Q])
  ∧ round64 (10 ^ 17) = (10 ^ 17)%Q
  ∧ returns
      (let* r := shift 0%nat (10 ^ 17) in
       let* time := getattr r "time" in
       let* gti := getattr r "gti" in
       ret (time, gti)) one_store
    = Some (VArr [(10 ^ 17)%Q], VArr2 [(10 ^ 17, 10 ^ 17)%Q])
  ∧ returns
      (let* r := shift 0%nat (10 ^ 17) in
       let* r2 := shift r (- 10 ^ 17) in
       let* time := getattr r2 "time" in
       let* gti := getattr r2 "gti" in
       ret (time, gti)) one_store
    = Some (VArr [0%Q], VArr2 [(0, 0)%Q]).
Proof. repeat split; vm_compute; reflexivity. Qed.

(** ** The classifier *)

Lemma elem_of_dir o n : n ∈ dir o ↔ is_Some (lookup_attr o n).
Proof.
  unfold dir. rewrite merge_sort_Permutation, elem_of_elements, elem_of_union.
  rewrite !elem_of_dom. unfold lookup_attr.
  destruct (o !! n) as [v|]; [|by intuition].
  split; [eauto|]. intros _. left. eauto.
Qed.

Lemma NoDup_dir o : NoDup (dir o).
Proof. unfold dir. rewrite merge_sort_Permutation. apply NoDup_elements. Qed.

Lemma filterM_pure {A} (f : A → result bool) (g : A → bool) l :
  Forall (λ x, f x = Ok (g x)) l → filterM f l = Ok (List.filter g l).
Proof.
  induction 1 as [|x l Hx _ IH]; simpl; [done|].
  rewrite Hx, IH. by destruct (g x).
Qed.

Lemma NoDup_filter_bool {A} (g : A → bool) l : NoDup l → NoDup (List.filter g l).
Proof.
  rewrite !NoDup_ListNoDup. apply List.NoDup_filter.
Qed.

Lemma array_attrs_of_eq o time sh :
  lookup_attr o "time" = Some time → shape_of time = Ok sh →
  array_attrs_of o = Ok (List.filter (is_array o sh) (dir o)).
Proof.
  intros Ht Hsh. apply filterM_pure, Forall_forall. intros n Hn.
  apply elem_of_dir in Hn as [v Hv].
  unfold is_array_attr, is_array, get. rewrite Hv.
  destruct (is_iterable v); [|done]. by rewrite Ht, Hsh.
Qed.

Lemma meta_attrs_of_eq o time sh :
  lookup_attr o "time" = Some time → shape_of time = Ok sh →
  meta_attrs_of o = Ok (List.filter (is_meta o sh) (dir o)).
Proof.
  intros Ht Hsh. unfold meta_attrs_of.
  rewrite (array_attrs_of_eq _ _ _ Ht Hsh).
  apply filterM_pure, Forall_forall. intros n Hn.
  pose proof Hn as [v Hv]%elem_of_dir.
  unfold is_meta_attr, is_meta, get. rewrite Hv.
  assert (bool_decide (n ∉ List.filter (is_array o sh) (dir o))
          = negb (is_array o sh n)) as ->.
  { destruct (is_array o sh n) eqn:Ha; simpl.
    - apply bool_decide_eq_false. intros Hnot. apply Hnot.
      by apply elem_of_filter_bool.
    - apply bool_decide_eq_true. intros [_ ?]%elem_of_filter_bool. congruence. }
  by destruct (negb (is_array o sh n) && negb (startswith "_" n)).
Qed.

Lemma array_attrs_eq σ self time sh :
  attr σ self "time" = Some time → shape_of time = Ok sh →
  ∃ o, heap σ !! self = Some o
    ∧ array_attrs self σ = Ok (List.filter (is_array o sh) (dir o), σ)
    ∧ meta_attrs self σ = Ok (List.filter (is_meta o sh) (dir o), σ).
Proof.
  intros Ht Hsh. destruct (attr_is_Some _ _ _ _ Ht) as [o Hs].
  rewrite (attr_lookup _ _ _ _ Hs) in Ht. exists o. split; [done|].
  unfold array_attrs, meta_attrs. split; run_step.
  - by rewrite (array_attrs_of_eq _ _ _ Ht Hsh).
  - by rewrite (meta_attrs_of_eq _ _ _ Ht Hsh).
Qed.

(** C8, as the code has it: [array_attrs] returns exactly the attributes
    that [dir] finds, private ones included, whose value is iterable and has
    the shape of [time] in all its dimensions; [meta_attrs] returns exactly
    the attributes that are not array attributes, not private and not
    callable; the GTI of a single pair on a stream of one event has the
    shape (1, 2) and not (1,), so it is a meta attribute. *)
Theorem attrs_classified σ self time sh :
  attr σ self "time" = Some time → shape_of time = Ok sh →
  ∃ arr meta,
    array_attrs self σ = Ok (arr, σ)
    ∧ meta_attrs self σ = Ok (meta, σ)
    ∧ (∀ n, n ∈ arr ↔
         (∃ v, attr σ self n = Some v ∧ is_iterable v = true ∧ np_shape v = sh))
    ∧ (∀ n, n ∈ meta ↔
         (∃ v, attr σ self n = Some v ∧ (n ∉ arr)
               ∧ startswith "_" n = false ∧ callable v = false))
    ∧ (∀ t g, time = VArr [t] → attr σ self "gti" = Some (VArr2 [g]) →
         "gti" ∈ meta ∧ "gti" ∉ arr).
Proof.
  intros Ht Hsh.
  destruct (array_attrs_eq _ _ _ _ Ht Hsh) as (o & Hs & Harr & Hmeta).
  eexists _, _. split; [exact Harr|]. split; [exact Hmeta|].
  assert (∀ n, n ∈ List.filter (is_array o sh) (dir o) ↔
    (∃ v, attr σ self n = Some v ∧ is_iterable v = true ∧ np_shape v = sh))
    as Harr_iff.
  { intros n. rewrite elem_of_filter_bool, elem_of_dir.
    rewrite (attr_lookup _ _ _ _ Hs). unfold is_array. split.
    - intros [[v Hv] Ha]. rewrite Hv in Ha.
      apply andb_true_iff in Ha as [? ?%bool_decide_eq_true]. eauto.
    - intros (v & Hv & Hi & Hshape). rewrite Hv. split; [eauto|].
      apply andb_true_iff. split; [done|]. by apply bool_decide_eq_true. }
  assert (∀ n, n ∈ List.filter (is_meta o sh) (dir o) ↔
    (∃ v, attr σ self n = Some v ∧ (n ∉ List.filter (is_array o sh) (dir o))
          ∧ startswith "_" n = false ∧ callable v = false)) as Hmeta_iff.
  { intros n. rewrite elem_of_filter_bool, elem_of_dir.
    rewrite (attr_lookup _ _ _ _ Hs). unfold is_meta. split.
    - intros [[v Hv] Hm]. rewrite Hv in Hm.
      apply andb_true_iff in Hm as [[Ha Hp]%andb_true_iff Hc].
      exists v. split; [done|]. split.
      + intros [_ ?]%elem_of_filter_bool. by destruct (is_array o sh n).
      + split; [by destruct (startswith "_" n)|by destruct (callable v)].
    - intros (v & Hv & Hn & Hp & Hc). rewrite Hv, Hp, Hc. split; [eauto|].
      destruct (is_array o sh n) eqn:Ha; [|done].
      destruct Hn. apply elem_of_filter_bool. split; [|done].
      apply elem_of_dir. eauto. }
  split; [exact Harr_iff|]. split; [exact Hmeta_iff|].
  intros t g -> Hg. simpl in Hsh. injection Hsh as <-.
  assert ("gti" ∉ List.filter (is_array o [1%nat]) (dir o)) as Hnot.
  { rewrite Harr_iff. intros (v & Hv & _ & Hshape). by simplify_eq. }
  split; [|done]. apply Hmeta_iff. eauto.
Qed.

Lemma attrs_classified_witness :
  ∃ arr meta,
    array_attrs 0%nat private_store = Ok (arr, private_store)
    ∧ meta_attrs 0%nat private_store = Ok (meta, private_store)
    ∧ "gti" ∈ meta ∧ "gti" ∉ arr.
Proof.
  destruct (attrs_classified private_store 0%nat (VArr [5%Q]) [1%nat])
    as (arr & meta & Harr & Hmeta & _ & _ & Hgti).
  - vm_compute. reflexivity.
  - reflexivity.
  - exists arr, meta. split; [exact Harr|]. split; [exact Hmeta|].
    apply (Hgti 5%Q (0, 10)%Q); [reflexivity|]. vm_compute. reflexivity.
Defined.

(** C8, the claim as it reads fails: on
    [EventList(time=[5], gti=[[0, 10]])] with the private attribute
    [_hidden = [7]], [array_attrs] returns [_hidden] too, a private name. *)
Lemma array_attrs_keeps_private_names :
  returns (array_attrs 0%nat) private_store = Some ["_hidden"; "time"]
  ∧ startswith "_" "_hidden" = true.
Proof. split; by vm_compute. Qed.

(** ** [apply_mask] *)

Lemma EventList_nil σ :
  EventList [] σ
  = Ok (fresh (dom (heap σ)),
        State (<[fresh (dom (heap σ)) := empty_event]> (heap σ)) (warnings σ)).
Proof.
  unfold EventList. cbn [kw list_find fmap list_fmap filter list_filter].
  repeat run_step. unfold when. rewrite bool_decide_eq_true_2 by done.
  repeat run_step. unfold ret. do 3 f_equal.
Qed.

Lemma select_length_le {A} (a : list A) mask : (length (select a mask) ≤ length a)%nat.
Proof.
  revert mask. induction a as [|x a IH]; intros [|[] mask]; simpl; try lia.
  - specialize (IH mask). lia.
  - specialize (IH mask). lia.
Qed.

Lemma select_sublist {A} (a : list A) mask : sublist (select a mask) a.
Proof.
  revert mask. induction a as [|x a IH]; intros [|[] mask]; simpl.
  - constructor.
  - constructor.
  - constructor.
  - apply sublist_nil_l.
  - by constructor.
  - by constructor.
Qed.

(** ** Methods and instances *)

Lemma class_dict_method n :
  n ∈ methods → class_dict !! n = Some (VOther false true).
Proof.
  unfold methods. intros Hn.
  repeat (apply elem_of_cons in Hn as [->|Hn]; [vm_compute; reflexivity|]).
  by apply elem_of_nil in Hn.
Qed.

Lemma method_public n : n ∈ methods → startswith "_" n = false.
Proof.
  unfold methods. intros Hn.
  repeat (apply elem_of_cons in Hn as [->|Hn]; [vm_compute; reflexivity|]).
  by apply elem_of_nil in Hn.
Qed.

(** Membership in a list of names that is written out. *)
Ltac solve_method := apply (bool_decide_unpack _); vm_compute; exact I.

Lemma plain_lookup σ r o n :
  plain σ r = true → heap σ !! r = Some o → n ∈ methods → o !! n = None.
Proof.
  unfold plain, holds. rewrite forallb_forall. intros Hall Hr Hn.
  specialize (Hall n). rewrite Hr in Hall. simpl in Hall.
  destruct (o !! n); [|done].
  by specialize (Hall (proj1 (list_elem_of_In _ _) Hn)).
Qed.

Lemma receiver_self σ r o n :
  heap σ !! r = Some o → o !! n = None → receiver r n σ = Ok (r, σ).
Proof.
  intros Hr Hn. unfold receiver. erewrite bind_deref by done. by rewrite Hn.
Qed.

Lemma receiver_bound σ r o n r' :
  heap σ !! r = Some o → o !! n = Some (VMethod n r') →
  receiver r n σ = Ok (r', σ).
Proof.
  intros Hr Hn. unfold receiver. erewrite bind_deref by done. rewrite Hn.
  by rewrite decide_True.
Qed.

(** On an instance that holds no method of its own, [self.name(...)] is
    the method of the class on that instance. *)
Lemma method_self {A} σ r o n (body : ref → M A) :
  heap σ !! r = Some o → o !! n = None → method r n body σ = body r σ.
Proof.
  intros Hr Hn. unfold method. apply bind_eq. by eapply receiver_self.
Qed.

Lemma method_plain {A} σ r n v (body : ref → M A) :
  plain σ r = true → attr σ r "time" = Some v → n ∈ methods →
  method r n body σ = body r σ.
Proof.
  intros Hp Hv Hn. destruct (attr_is_Some _ _ _ _ Hv) as [o Hr].
  eapply method_self; [done|]. by eapply plain_lookup.
Qed.

(** On an instance that holds the method [n] bound to [r'], [self.n(...)]
    runs on [r']. *)
Lemma method_bound {A} σ r o n r' (body : ref → M A) :
  heap σ !! r = Some o → o !! n = Some (VMethod n r') →
  method r n body σ = body r' σ.
Proof.
  intros Hr Hn. unfold method. apply bind_eq. by eapply receiver_bound.
Qed.

Lemma bound_is_Some self o n : is_Some (lookup_attr o n) → is_Some (bound self o n).
Proof.
  unfold lookup_attr, bound. destruct (o !! n); [done|].
  case_bool_decide; [eauto|done].
Qed.

(** What is not a method is read as it is. *)
Lemma bound_data self o n v :
  lookup_attr o n = Some v → callable v = false → bound self o n = Some v.
Proof.
  unfold lookup_attr, bound. destruct (o !! n); [done|].
  intros Hv Hc. case_bool_decide as Hm; [|done].
  destruct Hm as [Hm _]. rewrite (class_dict_method n Hm) in Hv.
  by injection Hv as <-.
Qed.

Lemma bound_method self o n :
  o !! n = None → is_method n → bound self o n = Some (VMethod n self).
Proof.
  intros Hn Hm. unfold bound. rewrite Hn. by rewrite bool_decide_eq_true_2.
Qed.

Lemma getattr_bound_eq r n σ o v :
  heap σ !! r = Some o → bound r o n = Some v →
  getattr_bound r n σ = Ok (v, σ).
Proof. intros Hr Hv. unfold getattr_bound. rewrite Hr. simpl. by rewrite Hv. Qed.

Lemma hasattr_eq r n σ v :
  attr σ r n = Some v → hasattr r n σ = Ok (true, σ).
Proof.
  intros Hv. unfold hasattr. by rewrite bool_decide_eq_true_2 by (by rewrite Hv).
Qed.

(** A mask fits an array when it is as long, or when it is the empty
    list, which fits every array. *)
Lemma np_getmask_eq {A} (a : list A) m :
  length (mask_bits m) = length a ∨ m = MaskList [] →
  np_getmask a m = Ok (select a (mask_bits m)).
Proof.
  intros [Hlen| ->]; [|by destruct a]. unfold np_getmask.
  destruct m as [[|b bits]|bits]; simpl in *.
  - by destruct a.
  - by rewrite decide_True.
  - by rewrite decide_True.
Qed.

(** Only the empty list is taken for something else than a mask. *)
Lemma np_getmask_raise {A} (a : list A) m :
  length (mask_bits m) ≠ length a → m ≠ MaskList [] →
  np_getmask a m = Raise IndexError.
Proof.
  intros Hlen Hm. unfold np_getmask.
  destruct m as [[|b bits]|bits]; simpl in *; [done|..];
    by rewrite decide_False.
Qed.

Section loops.
Context (o : object) (self new : ref) (h : gmap ref object) (w : list string).

Lemma copy_loop arr names acc :
  h !! self = Some o → new ≠ self →
  Forall (λ n, is_Some (lookup_attr o n)) names →
  for_each names (λ name,
    if negb (startswith "_" name) && bool_decide (name ∉ arr) then
      let* v := getattr_bound self name in setattr new name v
    else ret tt) (State (<[new := acc]> h) w)
  = Ok (tt, State (<[new := foldl (copy_step self o arr) acc names]> h) w).
Proof.
  intros Hs Hne Hall. revert acc.
  induction Hall as [|n names Hv _ IH]; intros acc; [done|].
  apply (bound_is_Some self) in Hv as [v Hv].
  cbn [for_each foldl]. unfold copy_step at 2. rewrite Hv.
  destruct (negb (startswith "_" n) && bool_decide (n ∉ arr)).
  - rewrite bind_assoc.
    erewrite bind_eq
      by (eapply getattr_bound_eq; [|exact Hv];
          simpl; by rewrite lookup_insert_ne).
    erewrite bind_setattr by (simpl; apply lookup_insert_eq).
    simpl. rewrite insert_insert_eq. apply IH.
  - rewrite bind_ret. apply IH.
Qed.

Lemma mask_loop mask names :
  NoDup names → ∀ acc,
  (∀ n, n ∈ names → attr (State (<[new := acc]> h) w) self n = lookup_attr o n) →
  Forall (λ n, ∃ a, lookup_attr o n = Some (VArr a)
                    ∧ (length (mask_bits mask) = length a
                       ∨ mask = MaskList [])) names →
  for_each names (λ name,
    let* has := hasattr self name in
    if has then
      let* v := getattr self name in
      if negb (is_none v) then
        let* m := lift (value_getmask (np_asarray v) mask) in
        setattr new name m
      else ret tt
    else ret tt) (State (<[new := acc]> h) w)
  = Ok (tt, State (<[new := foldl (mask_step o (mask_bits mask)) acc names]> h) w).
Proof.
  induction 1 as [|n names Hn Hnd IH]; intros acc Hread Hall; [done|].
  apply Forall_cons in Hall as [(a & Hv & Hlen) Hall].
  cbn [for_each foldl]. unfold mask_step at 2. rewrite Hv.
  rewrite bind_assoc.
  erewrite bind_eq by (eapply hasattr_eq; rewrite Hread by left; exact Hv).
  cbv beta iota. rewrite bind_assoc.
  erewrite bind_getattr by (rewrite Hread by left; exact Hv).
  cbn [is_none negb np_asarray value_getmask].
  rewrite np_getmask_eq by done.
  rewrite bind_assoc, bind_lift.
  erewrite bind_setattr by (simpl; apply lookup_insert_eq).
  simpl. rewrite insert_insert_eq. apply IH; [|done].
  intros n' Hn'. rewrite <- (Hread n') by (by right).
  rewrite !attr_insert. case_decide; [|done].
  rewrite lookup_attr_insert, decide_False; [done|].
  intros ->. contradiction.
Qed.
End loops.

Lemma lookup_attr_mask_fold o bits names n :
  Forall (λ n, is_Some (lookup_attr o n)) names → ∀ acc,
  lookup_attr (foldl (mask_step o bits) acc names) n
  = if decide (n ∈ names) then mask_value bits <$> lookup_attr o n
    else lookup_attr acc n.
Proof.
  induction 1 as [|x names [v Hv] _ IH]; intros acc; cbn [foldl].
  - rewrite decide_False; [done|]. apply not_elem_of_nil.
  - rewrite IH. unfold mask_step. rewrite Hv.
    destruct (decide (n ∈ names)) as [Hin|Hnin].
    + rewrite decide_True; [done|]. by right.
    + rewrite lookup_attr_insert. destruct (decide (n = x)) as [->|Hne].
      * rewrite decide_True by left. by rewrite Hv.
      * rewrite decide_False; [done|]. by intros [?|?]%elem_of_cons.
Qed.

Lemma lookup_attr_copy_fold self o arr names n :
  Forall (λ n, is_Some (lookup_attr o n)) names → ∀ acc,
  lookup_attr (foldl (copy_step self o arr) acc names) n
  = if decide (n ∈ names ∧ startswith "_" n = false ∧ n ∉ arr)
    then bound self o n else lookup_attr acc n.
Proof.
  induction 1 as [|x names Hv _ IH]; intros acc; cbn [foldl].
  - rewrite decide_False; [done|]. intros [?%not_elem_of_nil _]. done.
  - apply (bound_is_Some self) in Hv as [v Hv].
    rewrite IH. unfold copy_step. rewrite Hv.
    destruct (decide (n ∈ names ∧ startswith "_" n = false ∧ n ∉ arr))
      as [(Hin & Hp & Ha)|Hnot].
    + rewrite decide_True; [done|]. split; [by right|done].
    + destruct (decide (n = x)) as [->|Hne].
      * destruct (startswith "_" x) eqn:Hp; simpl.
        { rewrite decide_False; [done|]. by intros (_ & ? & _). }
        destruct (bool_decide (x ∉ arr)) eqn:Ha.
        -- apply bool_decide_eq_true in Ha.
           rewrite lookup_attr_insert, decide_True by done.
           rewrite decide_True; [done|]. split; [left|done].
        -- apply bool_decide_eq_false in Ha.
           rewrite decide_False; [done|]. by intros (_ & _ & ?).
      * rewrite decide_False.
        2:{ intros ([?|?]%elem_of_cons & ? & ?); [done|]. by apply Hnot. }
        destruct (negb (startswith "_" x) && bool_decide (x ∉ arr)); [|done].
        by rewrite lookup_attr_insert, decide_False.
Qed.

Lemma state_insert_id σ s o :
  heap σ !! s = Some o → σ = State (<[s := o]> (heap σ)) (warnings σ).
Proof. destruct σ; simpl; intros; by rewrite insert_id. Qed.

Lemma is_array_VArr o n (len : nat) :
  is_array o [len] n = true →
  ∃ a, lookup_attr o n = Some (VArr a) ∧ length a = len.
Proof.
  unfold is_array. destruct (lookup_attr o n) as [v|]; [|done].
  intros [_ Hsh%bool_decide_eq_true]%andb_true_iff.
  destruct v; simplify_eq/=. eauto.
Qed.

Lemma array_attrs_maskable o (len : nat) (mask : mask) :
  length (mask_bits mask) = len ∨ mask = MaskList [] →
  Forall (λ n, ∃ a, lookup_attr o n = Some (VArr a)
                    ∧ (length (mask_bits mask) = length a
                       ∨ mask = MaskList []))
    (List.filter (is_array o [len]) (dir o)).
Proof.
  intros Hlen. apply Forall_forall. intros n [_ Ha]%elem_of_filter_bool.
  apply is_array_VArr in Ha as (a & ? & ?). exists a. split; [done|].
  destruct Hlen; [left; lia|by right].
Qed.

Lemma array_attrs_present o sh :
  Forall (λ n, is_Some (lookup_attr o n)) (List.filter (is_array o sh) (dir o)).
Proof.
  apply Forall_forall. intros n [Hn _]%elem_of_filter_bool.
  by apply elem_of_dir.
Qed.

Lemma dir_present o : Forall (λ n, is_Some (lookup_attr o n)) (dir o).
Proof. apply Forall_forall. intros n. apply elem_of_dir. Qed.

Lemma array_attrs_run σ s o t :
  heap σ !! s = Some o → o !! "array_attrs" = None →
  lookup_attr o "time" = Some (VArr t) →
  method s "array_attrs" array_attrs σ
  = Ok (List.filter (is_array o [length t]) (dir o), σ).
Proof.
  intros Hs Hown Ht. rewrite (method_self σ s o) by done.
  unfold array_attrs. erewrite bind_deref by done.
  by rewrite (array_attrs_of_eq o (VArr t) [length t]).
Qed.

Lemma apply_mask_inplace_eq σ s o t mask :
  heap σ !! s = Some o → o !! "array_attrs" = None →
  lookup_attr o "time" = Some (VArr t) →
  length (mask_bits mask) = length t ∨ mask = MaskList [] →
  apply_mask s mask true σ
  = Ok (s, State (<[s := foldl (mask_step o (mask_bits mask)) o
                           (List.filter (is_array o [length t]) (dir o))]>
                    (heap σ)) (warnings σ)).
Proof.
  intros Hs Hown Ht Hlen. unfold apply_mask.
  rewrite (bind_eq _ _ _ _ _ (array_attrs_run σ s o t Hs Hown Ht)).
  rewrite bind_ret.
  rewrite (state_insert_id σ s o Hs) at 1.
  erewrite bind_eq; [reflexivity|].
  apply mask_loop.
  - apply NoDup_filter_bool, NoDup_dir.
  - intros n _. by rewrite attr_insert, decide_True.
  - by apply array_attrs_maskable.
Qed.

Lemma apply_mask_copy_eq σ s o t mask :
  heap σ !! s = Some o → o !! "array_attrs" = None →
  lookup_attr o "time" = Some (VArr t) →
  length (mask_bits mask) = length t ∨ mask = MaskList [] →
  apply_mask s mask false σ
  = Ok (fresh (dom (heap σ)),
        State (<[fresh (dom (heap σ)) :=
                   foldl (mask_step o (mask_bits mask))
                     (foldl (copy_step s o (List.filter (is_array o [length t]) (dir o)))
                        empty_event (dir o))
                     (List.filter (is_array o [length t]) (dir o))]>
                 (heap σ)) (warnings σ)).
Proof.
  intros Hs Hown Ht Hlen. unfold apply_mask.
  set (r := fresh (dom (heap σ))).
  assert (heap σ !! r = None) as Hr by apply fresh_heap.
  assert (r ≠ s) as Hrs by (intros ->; congruence).
  rewrite (bind_eq _ _ _ _ _ (array_attrs_run σ s o t Hs Hown Ht)).
  rewrite !bind_assoc.
  erewrite bind_eq by apply EventList_nil. fold r.
  rewrite bind_assoc.
  erewrite bind_deref by (simpl; by rewrite lookup_insert_ne).
  rewrite bind_assoc.
  erewrite bind_eq by (apply copy_loop; [done|done|apply dir_present]).
  rewrite bind_ret.
  erewrite bind_eq; [reflexivity|].
  apply mask_loop.
  - apply NoDup_filter_bool, NoDup_dir.
  - intros n _. rewrite attr_insert, decide_False by done.
    by apply attr_lookup.
  - by apply array_attrs_maskable.
Qed.

Lemma masked_attr o (len : nat) mask acc n :
  n ∈ List.filter (is_array o [len]) (dir o) →
  ∃ a, lookup_attr o n = Some (VArr a)
       ∧ length a = len
       ∧ lookup_attr
           (foldl (mask_step o mask) acc (List.filter (is_array o [len]) (dir o))) n
         = Some (VArr (select a mask)).
Proof.
  intros Hn. pose proof Hn as [_ Ha]%elem_of_filter_bool.
  apply is_array_VArr in Ha as (a & Hv & Hlen). exists a.
  split; [done|]. split; [done|].
  rewrite lookup_attr_mask_fold by apply array_attrs_present.
  rewrite decide_True by done. by rewrite Hv.
Qed.

Lemma time_is_array o t :
  lookup_attr o "time" = Some (VArr t) →
  "time" ∈ List.filter (is_array o [length t]) (dir o).
Proof.
  intros Ht. apply elem_of_filter_bool. split; [apply elem_of_dir; eauto|].
  unfold is_array. rewrite Ht. simpl. by apply bool_decide_eq_true.
Qed.

(** A method that the class defines is none of the array attributes of an
    instance that holds nothing under its name. *)
Lemma method_not_array o sh n :
  o !! n = None → n ∈ methods → is_array o sh n = false.
Proof.
  intros Hn Hm. unfold is_array, lookup_attr. rewrite Hn.
  by rewrite (class_dict_method n Hm).
Qed.

Lemma method_in_dir o n : n ∈ methods → n ∈ dir o.
Proof.
  intros Hm. apply elem_of_dir. unfold lookup_attr.
  destruct (o !! n); [eauto|]. rewrite (class_dict_method n Hm). eauto.
Qed.

(** C2, as the code has it: let [s] hold no method as an attribute of its
    own, as every list that the constructor makes.  Then [s.apply_mask(...)]
    is the method of the class on [s], and for a mask as long as [time]:
    without [inplace] it returns a new instance and leaves [s] as it was,
    with [inplace] it returns [s] itself; in both, [time] of the result is
    [s.time[mask]], every array attribute (those the user added too) is its
    value in [s] under the same mask, the elements kept in their order, and
    every meta attribute has the value it has in [s].  The new instance
    holds more than that: under the name of each method, that method bound
    to [s]. *)
Theorem apply_mask_spec σ s t mask :
  attr σ s "time" = Some (VArr t) → t ≠ [] →
  length (mask_bits mask) = length t →
  plain σ s = true →
  ∃ arr meta,
    array_attrs s σ = Ok (arr, σ)
    ∧ meta_attrs s σ = Ok (meta, σ)
    ∧ "time" ∈ arr
    ∧ (∀ inplace,
         method s "apply_mask" (λ self, apply_mask self mask inplace) σ
         = apply_mask s mask inplace σ)
    ∧ (∃ r σ',
        apply_mask s mask false σ = Ok (r, σ')
        ∧ heap σ !! r = None
        ∧ heap σ' !! s = heap σ !! s
        ∧ attr σ' r "time" = Some (VArr (select t (mask_bits mask)))
        ∧ (∀ n, n ∈ arr →
            ∃ a, attr σ s n = Some (VArr a)
                 ∧ attr σ' r n = Some (VArr (select a (mask_bits mask)))
                 ∧ sublist (select a (mask_bits mask)) a)
        ∧ (∀ n, n ∈ meta → attr σ' r n = attr σ s n)
        ∧ (∀ n, is_method n → attr σ' r n = Some (VMethod n s)))
    ∧ (∃ σ',
        apply_mask s mask true σ = Ok (s, σ')
        ∧ attr σ' s "time" = Some (VArr (select t (mask_bits mask)))
        ∧ (∀ n, n ∈ arr →
            ∃ a, attr σ s n = Some (VArr a)
                 ∧ attr σ' s n = Some (VArr (select a (mask_bits mask)))
                 ∧ sublist (select a (mask_bits mask)) a)
        ∧ (∀ n, n ∉ arr → attr σ' s n = attr σ s n)).
Proof.
  intros Ht _ Hlen Hplain.
  destruct (array_attrs_eq σ s (VArr t) [length t] Ht eq_refl)
    as (o & Hs & Harr & Hmeta).
  assert (∀ n, n ∈ methods → o !! n = None) as Hown
    by (intros n; by apply (plain_lookup σ s)).
  assert (o !! "array_attrs" = None) as Hown_arr
    by (apply Hown; solve_method).
  rewrite (attr_lookup _ _ _ _ Hs) in Ht.
  set (bits := mask_bits mask) in *.
  set (arr := List.filter (is_array o [length t]) (dir o)) in *.
  set (meta := List.filter (is_meta o [length t]) (dir o)) in *.
  exists arr, meta. split; [done|]. split; [done|].
  assert ("time" ∈ arr) as Htime by (by apply time_is_array).
  split; [done|]. split.
  { intros inplace. apply (method_self σ s o); [done|].
    apply Hown. solve_method. }
  assert (∀ acc n, n ∈ arr →
    ∃ a, attr σ s n = Some (VArr a)
         ∧ lookup_attr (foldl (mask_step o bits) acc arr) n
           = Some (VArr (select a bits))
         ∧ sublist (select a bits) a) as Hmasked.
  { intros acc n Hn.
    destruct (masked_attr o (length t) bits acc n Hn) as (a & Hv & _ & Hm).
    exists a. rewrite (attr_lookup _ _ _ _ Hs). split; [done|].
    split; [done|]. apply select_sublist. }
  split.
  - set (r := fresh (dom (heap σ))).
    assert (heap σ !! r = None) as Hr by apply fresh_heap.
    assert (r ≠ s) as Hrs by (intros ->; congruence).
    eexists r, _. split; [eapply apply_mask_copy_eq; eauto|].
    split; [done|]. split; [simpl; by rewrite lookup_insert_ne|].
    fold arr bits. split; [|split; [|split]].
    + rewrite attr_insert, decide_True by done.
      destruct (Hmasked (foldl (copy_step s o arr) empty_event (dir o)) "time" Htime)
        as (a & Ha & -> & _).
      rewrite (attr_lookup _ _ _ _ Hs) in Ha. congruence.
    + intros n Hn. destruct (Hmasked (foldl (copy_step s o arr) empty_event (dir o)) n Hn)
        as (a & Ha & Hm & Hsub).
      exists a. split; [done|]. split; [|done].
      by rewrite attr_insert, decide_True.
    + intros n [Hn Hm]%elem_of_filter_bool.
      rewrite attr_insert, decide_True by done.
      rewrite lookup_attr_mask_fold by apply array_attrs_present.
      unfold is_meta in Hm.
      apply andb_true_iff in Hm as [[Ha Hp]%andb_true_iff Hc].
      assert (n ∉ arr) as Hnarr.
      { intros [_ ?]%elem_of_filter_bool. by destruct (is_array o [length t] n). }
      rewrite decide_False by done.
      rewrite lookup_attr_copy_fold by apply dir_present.
      rewrite decide_True.
      * rewrite (attr_lookup _ _ _ _ Hs).
        destruct (lookup_attr o n) as [v|] eqn:Hv; [|done].
        apply bound_data; [done|]. by destruct (callable v).
      * split; [done|]. split; [by destruct (startswith "_" n)|done].
    + intros n [Hm Hstatic].
      assert (n ∉ arr) as Hnarr.
      { intros [_ Ha]%elem_of_filter_bool.
        by rewrite (method_not_array o _ n) in Ha by auto. }
      rewrite attr_insert, decide_True by done.
      rewrite lookup_attr_mask_fold by apply array_attrs_present.
      rewrite decide_False by done.
      rewrite lookup_attr_copy_fold by apply dir_present.
      rewrite decide_True.
      * apply bound_method; [by apply Hown|done].
      * split; [by apply method_in_dir|]. split; [by apply method_public|done].
  - eexists. split; [eapply apply_mask_inplace_eq; eauto|]. fold arr bits.
    split; [|split].
    + rewrite attr_insert, decide_True by done.
      destruct (Hmasked o "time" Htime) as (a & Ha & -> & _).
      rewrite (attr_lookup _ _ _ _ Hs) in Ha. congruence.
    + intros n Hn. destruct (Hmasked o n Hn) as (a & Ha & Hm & Hsub).
      exists a. split; [done|]. split; [|done].
      by rewrite attr_insert, decide_True.
    + intros n Hn. rewrite attr_insert, decide_True by done.
      rewrite lookup_attr_mask_fold by apply array_attrs_present.
      rewrite decide_False by done. symmetry. by apply attr_lookup.
Qed.

Lemma apply_mask_spec_witness :
  ∃ σ',
    method 0%nat "apply_mask"
      (λ self, apply_mask self (MaskList [true; true; false]) true) bubu_store
    = Ok (0%nat, σ')
    ∧ attr σ' 0%nat "time" = Some (VArr [0; 1]%Q)
    ∧ attr σ' 0%nat "bubuattr" = Some (VArr [222; 111]%Q).
Proof.
  destruct (apply_mask_spec bubu_store 0%nat [0; 1; 2]%Q
              (MaskList [true; true; false]))
    as (arr & meta & Hnames & _ & _ & Hcall & _ & σ' & Hrun & Ht & Harr & _).
  - vm_compute. reflexivity.
  - discriminate.
  - reflexivity.
  - vm_compute. reflexivity.
  - exists σ'. split; [by rewrite Hcall|]. split; [exact Ht|].
    vm_compute in Hnames. injection Hnames as <-.
    destruct (Harr "bubuattr") as (a & Ha & Hm & _); [by left|].
    vm_compute in Ha. injection Ha as <-. exact Hm.
Defined.

(** The example of the docstring of [apply_mask]: the mask
    [[True, True, False]] on three events with the attribute
    [bubuattr = [222, 111, 333]], in place: the instance returned is the one
    masked, its times are the first two and [bubuattr] is [[222, 111]]. *)
Example apply_mask_docstring :
  returns
    (let* r := method 0%nat "apply_mask"
                 (λ self, apply_mask self (MaskList [true; true; false]) true) in
     let* time := getattr 0%nat "time" in
     let* bubu := getattr 0%nat "bubuattr" in
     let* mission := getattr 0%nat "mission" in
     ret (r, time, bubu, mission)) bubu_store
  = Some (0%nat, VArr [0; 1]%Q, VArr [222; 111]%Q, VStr "nustar").
Proof. vm_compute. reflexivity. Qed.

(** C2, the claim as it reads fails on the instance that [apply_mask]
    itself returns without [inplace]: the copy [1] of the list [0] of the
    docstring has two events and holds [apply_mask] bound to [0].  A mask
    of two elements, as long as its times, raises [IndexError], because it
    is applied to the three events of [0]; a mask of three elements gives
    the events of [0] under that mask, the third one, which the copy does
    not have; and with [inplace] the call returns [0], masked, and leaves
    the copy as it was. *)
Lemma apply_mask_of_copy_masks_original :
  returns (apply_mask 0%nat (MaskList [true; true; false]) false) bubu_store
  = Some 1%nat
  ∧ attr masked_store 1%nat "time" = Some (VArr [0; 1]%Q)
  ∧ attr masked_store 1%nat "apply_mask" = Some (VMethod "apply_mask" 0%nat)
  ∧ method 1%nat "apply_mask"
      (λ self, apply_mask self (MaskList [true; false]) false) masked_store
    = Raise IndexError
  ∧ returns
      (let* r := method 1%nat "apply_mask"
                   (λ self, apply_mask self (MaskList [false; false; true]) false) in
       getattr r "time") masked_store
    = Some (VArr [2%Q])
  ∧ returns
      (let* r := method 1%nat "apply_mask"
                   (λ self, apply_mask self (MaskList [false; false; true]) true) in
       let* time := getattr r "time" in
       let* time1 := getattr 1%nat "time" in
       ret (r, time, time1)) masked_store
    = Some (0%nat, VArr [2%Q], VArr [0; 1]%Q).
Proof. repeat split; vm_compute; reflexivity. Qed.

(** C6, the code at the failing input: after the mask [[True, True, False]]
    on three events, with or without [inplace], [time] has two elements and
    [ncounts] is still 3. *)
Theorem apply_mask_leaves_ncounts inplace :
  returns
    (let* r := apply_mask 0%nat (MaskList [true; true; false]) inplace in
     let* time := getattr r "time" in
     let* ncounts := getattr r "ncounts" in
     ret (time, ncounts)) bubu_store
  = Some (VArr [0; 1]%Q, VNum 3).
Proof. destruct inplace; vm_compute; reflexivity. Qed.

(** ** [filter_energy_range] *)

Lemma select_keep {A} (keep : Q → bool) (t : list A) e :
  length e = length t →
  select t (keep <$> e) = (List.filter (λ p, keep p.2) (zip t e)).*1.
Proof.
  revert e. induction t as [|x t IH]; intros [|v e] Hlen; simplify_eq/=; [done|].
  destruct (keep v); simpl; by rewrite IH.
Qed.

Lemma select_filter (keep : Q → bool) e :
  select e (keep <$> e) = List.filter keep e.
Proof.
  induction e as [|v e IH]; [done|].
  rewrite fmap_cons. cbn [select List.filter].
  destruct (keep v); by rewrite IH.
Qed.

(** C9, as the code has it: on a list that holds no method as an
    attribute of its own, [filter_energy_range] keeps exactly the events
    whose energy (or, with [use_pi], channel) [v] has [lo <= v] and
    [v < hi]: it computes that mask, a boolean array, and gives it to
    [apply_mask], in place or not. *)
Theorem filter_energy_range_spec σ s t e lo hi (inplace use_pi : bool) :
  let name := if use_pi then "pi" else "energy" in
  let keep := λ v, Qle_bool lo v && Qltb v hi in
  attr σ s "time" = Some (VArr t) →
  attr σ s name = Some (VArr e) →
  length e = length t →
  plain σ s = true →
  ∃ r σ',
    filter_energy_range s (lo, hi) inplace use_pi σ = Ok (r, σ')
    ∧ method s "filter_energy_range"
        (λ self, filter_energy_range self (lo, hi) inplace use_pi) σ
      = Ok (r, σ')
    ∧ apply_mask s (MaskArray (keep <$> e)) inplace σ = Ok (r, σ')
    ∧ (if inplace then r = s else heap σ !! r = None)
    ∧ (∀ v, keep v = true ↔ (lo <= v)%Q ∧ (v < hi)%Q)
    ∧ attr σ' r "time" = Some (VArr (List.filter (λ p, keep p.2) (zip t e)).*1)
    ∧ attr σ' r name = Some (VArr (List.filter keep e)).
Proof.
  intros name keep Ht He Hlen Hplain.
  destruct (attr_is_Some _ _ _ _ Ht) as [o Hs].
  assert (∀ n, n ∈ methods → o !! n = None) as Hown
    by (intros n; by apply (plain_lookup σ s)).
  assert (o !! "array_attrs" = None) as Hown_arr
    by (apply Hown; solve_method).
  assert (o !! "apply_mask" = None) as Hown_mask
    by (apply Hown; solve_method).
  assert (o !! "filter_energy_range" = None) as Hown_filter
    by (apply Hown; solve_method).
  rewrite (attr_lookup _ _ _ _ Hs) in Ht.
  rewrite (attr_lookup _ _ _ _ Hs) in He.
  assert (length (mask_bits (MaskArray (keep <$> e))) = length t) as Hmask
    by (simpl; by rewrite length_fmap).
  assert (filter_energy_range s (lo, hi) inplace use_pi σ
          = apply_mask s (MaskArray (keep <$> e)) inplace σ) as Hfilter.
  { unfold filter_energy_range.
    rewrite (bind_eq (if use_pi then _ else _) _ _ (VArr e) σ).
    - cbn [range_mask fst snd]. rewrite bind_lift.
      by apply (method_self σ s o).
    - destruct use_pi; apply getattr_eq; by rewrite (attr_lookup _ _ _ _ Hs). }
  rewrite (method_self σ s o) by done.
  assert (name ∈ List.filter (is_array o [length t]) (dir o)) as Hname.
  { apply elem_of_filter_bool. split; [apply elem_of_dir; eauto|].
    unfold is_array. rewrite He. simpl. apply bool_decide_eq_true. by rewrite Hlen. }
  pose proof (time_is_array o t Ht) as Htime.
  assert (∀ v, keep v = true ↔ (lo <= v)%Q ∧ (v < hi)%Q) as Hkeep.
  { intros v. unfold keep. by rewrite andb_true_iff, Qle_bool_iff, Qltb_lt. }
  assert (∀ acc,
    lookup_attr (foldl (mask_step o (keep <$> e)) acc
                   (List.filter (is_array o [length t]) (dir o))) "time"
    = Some (VArr (List.filter (λ p, keep p.2) (zip t e)).*1)
    ∧ lookup_attr (foldl (mask_step o (keep <$> e)) acc
                     (List.filter (is_array o [length t]) (dir o))) name
      = Some (VArr (List.filter keep e))) as Hres.
  { intros acc. split.
    - destruct (masked_attr o (length t) (keep <$> e) acc "time" Htime)
        as (a & Ha & _ & ->).
      assert (a = t) as -> by congruence. by rewrite select_keep.
    - destruct (masked_attr o (length t) (keep <$> e) acc name Hname)
        as (a & Ha & _ & ->).
      assert (a = e) as -> by congruence. by rewrite select_filter. }
  rewrite Hfilter. destruct inplace.
  - eexists s, _. split; [eapply apply_mask_inplace_eq; eauto|].
    split; [eapply apply_mask_inplace_eq; eauto|].
    split; [eapply apply_mask_inplace_eq; eauto|]. split; [done|]. split; [done|].
    rewrite !attr_insert, !decide_True by done. apply Hres.
  - eexists _, _. split; [eapply apply_mask_copy_eq; eauto|].
    split; [eapply apply_mask_copy_eq; eauto|].
    split; [eapply apply_mask_copy_eq; eauto|]. split; [apply fresh_heap|].
    split; [done|].
    rewrite !attr_insert, !decide_True by done. apply Hres.
Qed.

(** The example of the claim: [EventList(time=[0, 1, 2],
    energy=[0.3, 0.5, 2.0])] filtered by the range [[0, 1]] has the times
    [[0, 1]]. *)
Lemma filter_energy_range_spec_witness :
  ∃ r σ',
    method 0%nat "filter_energy_range"
      (λ self, filter_energy_range self (0, 1)%Q false false) energy_store
    = Ok (r, σ')
    ∧ attr σ' r "time" = Some (VArr [0; 1]%Q)
    ∧ attr σ' r "energy" = Some (VArr [3 # 10; 1 # 2]%Q).
Proof.
  destruct (filter_energy_range_spec energy_store 0%nat [0; 1; 2]%Q
              [3 # 10; 1 # 2; 2]%Q 0 1 false false)
    as (r & σ' & _ & Hrun & _ & _ & _ & Ht & He).
  - vm_compute. reflexivity.
  - vm_compute. reflexivity.
  - reflexivity.
  - vm_compute. reflexivity.
  - exists r, σ'. split; [exact Hrun|]. split; [exact Ht|exact He].
Defined.

(** C9, the claim as it reads fails on the instance that a filter itself
    returns without [inplace]: the list [1], the list [0] of the example
    filtered by [[0, 1]], has the times [[0, 1]] and the energies
    [[0.3, 0.5]], and holds [filter_energy_range] bound to [0].  Filtering
    it by [[0.4, 3]] should keep the event at 1 alone; the call runs on
    [0] and returns its events with energies 0.5 and 2.0, at 1 and 2. *)
Lemma filter_energy_range_of_copy_filters_original :
  returns (filter_energy_range 0%nat (0, 1)%Q false false) energy_store
  = Some 1%nat
  ∧ attr filtered_store 1%nat "time" = Some (VArr [0; 1]%Q)
  ∧ attr filtered_store 1%nat "energy" = Some (VArr [3 # 10; 1 # 2]%Q)
  ∧ attr filtered_store 1%nat "filter_energy_range"
    = Some (VMethod "filter_energy_range" 0%nat)
  ∧ List.filter (λ p, Qle_bool (2 # 5) p.2 && Qltb p.2 3)
      (zip [0; 1]%Q [3 # 10; 1 # 2]%Q) = [(1, 1 # 2)%Q]
  ∧ returns
      (let* r := method 1%nat "filter_energy_range"
                   (λ self, filter_energy_range self (2 # 5, 3)%Q false false) in
       let* time := getattr r "time" in
       let* energy := getattr r "energy" in
       ret (time, energy)) filtered_store
    = Some (VArr [1; 2]%Q, VArr [1 # 2; 2]%Q).
Proof. repeat split; vm_compute; reflexivity. Qed.

(** ** Inverting computations *)

Lemma ret_Ok {A} (x y : A) σ σ' : ret x σ = Ok (y, σ') → y = x ∧ σ' = σ.
Proof. unfold ret. by intros [= -> ->]. Qed.

Lemma lift_Ok {A} (x : result A) y σ σ' :
  lift x σ = Ok (y, σ') → x = Ok y ∧ σ' = σ.
Proof. unfold lift. destruct x; [|done]. by intros [= -> ->]. Qed.

Lemma getattr_Ok r n σ v σ' :
  getattr r n σ = Ok (v, σ') → attr σ r n = Some v ∧ σ' = σ.
Proof.
  unfold getattr. destruct (attr σ r n); [|done]. by intros [= -> ->].
Qed.

Lemma getnum_Ok r n σ x σ' :
  getnum r n σ = Ok (x, σ') → attr σ r n = Some (VNum x) ∧ σ' = σ.
Proof.
  unfold getnum. intros (v & σ1 & [Hv ->]%getattr_Ok & [Hx ->]%lift_Ok)%bind_Ok.
  by destruct v; simplify_eq/=.
Qed.

Lemma getarr_Ok r n σ a σ' :
  getarr r n σ = Ok (a, σ') → attr σ r n = Some (VArr a) ∧ σ' = σ.
Proof.
  unfold getarr. intros (v & σ1 & [Hv ->]%getattr_Ok & [Hx ->]%lift_Ok)%bind_Ok.
  by destruct v; simplify_eq/=.
Qed.

Lemma only_refl fp σ : only fp σ σ.
Proof. by split. Qed.

Lemma only_trans fp σ1 σ2 σ3 : only fp σ1 σ2 → only fp σ2 σ3 → only fp σ1 σ3.
Proof.
  intros [H1 W1] [H2 W2]. split.
  - intros r n Hfp. by rewrite H2, H1.
  - eauto.
Qed.

Lemma only_mono (fp fp' : ref → string → Prop) σ σ' :
  (∀ r n, fp r n → fp' r n) → only fp σ σ' → only fp' σ σ'.
Proof. intros Hfp [H W]. split; [|done]. intros r n Hn. apply H. eauto. Qed.

Lemma setattr_Ok r n v σ u σ' :
  setattr r n v σ = Ok (u, σ') →
  attr σ' r n = Some v ∧ only (λ r' n', r' = r ∧ n' = n) σ σ'.
Proof.
  unfold setattr. destruct (heap σ !! r) as [o|] eqn:Hr; [|done].
  intros [= _ <-]. split; [by simpl_attr|]. split; [|done].
  intros r' n' Hne. rewrite attr_insert. case_decide as Hr'; [|done].
  subst r'. rewrite lookup_attr_insert, decide_False by naive_solver.
  symmetry. by apply attr_lookup.
Qed.

Lemma simon_Ok msg σ u σ' :
  simon msg σ = Ok (u, σ') → msg ∈ warnings σ' ∧ only (λ _ _, False) σ σ'.
Proof.
  unfold simon. intros [= _ <-]. simpl. split; [set_solver|].
  split; [done|]. simpl. set_solver.
Qed.

Lemma only_attr fp σ σ' r n : only fp σ σ' → ¬ fp r n → attr σ' r n = attr σ r n.
Proof. intros [H _]. apply H. Qed.

Lemma only_warning fp σ σ' m : only fp σ σ' → m ∈ warnings σ → m ∈ warnings σ'.
Proof. intros [_ H]. apply H. Qed.

(** Take a footprint apart. *)
Ltac break H :=
  lazymatch type of H with
  | _ ∧ _ =>
      let H1 := fresh in let H2 := fresh in
      destruct H as [H1 H2]; break H1; break H2
  | _ ∨ _ => destruct H as [H|H]; break H
  | False => destruct H
  | _ => idtac
  end.

Ltac not_in_fp := simpl; let H := fresh in intros H; break H; congruence.

Ltac fp_incl :=
  simpl; let H := fresh in intros ? ? H; break H; subst; eauto 10.

(** Follow an attribute back through the steps that left it alone. *)
Ltac chase :=
  repeat match goal with
  | H : only _ ?σ ?σ' |- context [attr ?σ' ?r ?n] =>
      rewrite (only_attr _ σ σ' r n H) by not_in_fp
  end.

Ltac chase_in Hyp :=
  repeat match type of Hyp with
  | context [attr ?σ' ?r ?n] =>
      match goal with
      | H : only _ ?σ σ' |- _ =>
          rewrite (only_attr _ σ σ' r n H) in Hyp by not_in_fp
      end
  end.

(** Compose the steps from one store to another. *)
Ltac solve_only :=
  repeat first
    [ eassumption
    | apply only_refl
    | eapply only_trans; [eapply only_mono; [|eassumption]; fp_incl|] ];
  try (eapply only_mono; [|eassumption]; fp_incl).

(** ** The parts of [join] *)

Lemma join_zero_default_inv name self other ev order σ σ' ta tb :
  ev ≠ self → ev ≠ other →
  attr σ self "time" = Some (VArr ta) → attr σ other "time" = Some (VArr tb) →
  name ≠ "time" →
  join_zero_default name self other ev order σ = Ok (tt, σ') →
  ∃ x y,
    attr σ self name = Some x ∧ attr σ other name = Some y
    ∧ only (λ r n, n = name ∧ (r = self ∨ r = other ∨ r = ev)) σ σ'
    ∧ attr σ' self name = Some (fill x y ta)
    ∧ attr σ' other name = Some (fill y x tb)
    ∧ (if is_none x && is_none y then attr σ' ev name = Some VNone
       else ∃ a b r,
         fill x y ta = VArr a ∧ fill y x tb = VArr b
         ∧ np_take (a ++ b) order = Ok r
         ∧ attr σ' ev name = Some (VArr r)).
Proof.
  intros Hes Heo Hta Htb Hname. unfold join_zero_default.
  intros (x & ? & [Hx ->]%getattr_Ok & H)%bind_Ok.
  apply bind_Ok in H as (y & ? & [Hy ->]%getattr_Ok & H).
  apply bind_Ok in H as ([] & σ1 & Hfill & H).
  apply bind_Ok in H as (x' & ? & [Hx' ->]%getattr_Ok & H).
  apply bind_Ok in H as (y' & ? & [Hy' ->]%getattr_Ok & H).
  exists x, y. split; [done|]. split; [done|].
  (* the first block: the side without the attribute gets zeros *)
  assert (only (λ r n, n = name ∧ (r = self ∨ r = other ∨ r = ev)) σ σ1
          ∧ x' = fill x y ta ∧ y' = fill y x tb
          ∧ (is_none x && is_none y = true → attr σ1 ev name = Some VNone))
    as (Hσ1 & -> & -> & Hnone).
  { unfold fill. destruct (is_none x) eqn:Hnx, (is_none y) eqn:Hny; simpl in *.
    - apply setattr_Ok in Hfill as [Hev Ho].
      chase_in Hx'. chase_in Hy'. split; [solve_only|].
      split; [congruence|]. split; [congruence|done].
    - assert (self ≠ other) as Hso by (intros ->; destruct x, y; simplify_eq/=).
      apply bind_Ok in Hfill as (ta' & ? & [Hta' ->]%getarr_Ok & Hfill).
      apply bind_Ok in Hfill as ([] & σa & [Hsa Hoa]%setattr_Ok & Hfill).
      apply bind_Ok in Hfill as (y2 & ? & [Hy2 ->]%getattr_Ok & Hfill).
      apply bind_Ok in Hfill as (tb' & ? & [Htb' ->]%getarr_Ok & Hfill).
      apply setattr_Ok in Hfill as [Hsb Hob].
      chase_in Hy2. assert (y2 = y) as -> by congruence.
      unfold assign_value_if_none in *. rewrite Hnx in Hsa. rewrite Hny in Hsb.
      chase_in Hx'. chase_in Hy'.
      assert (ta' = ta) as -> by congruence.
      destruct x; simplify_eq/=.
      split; [solve_only|]. split; [congruence|]. split; [congruence|done].
    - assert (self ≠ other) as Hso by (intros ->; destruct x, y; simplify_eq/=).
      apply bind_Ok in Hfill as (ta' & ? & [Hta' ->]%getarr_Ok & Hfill).
      apply bind_Ok in Hfill as ([] & σa & [Hsa Hoa]%setattr_Ok & Hfill).
      apply bind_Ok in Hfill as (y2 & ? & [Hy2 ->]%getattr_Ok & Hfill).
      apply bind_Ok in Hfill as (tb' & ? & [Htb' ->]%getarr_Ok & Hfill).
      apply setattr_Ok in Hfill as [Hsb Hob].
      chase_in Hy2. assert (y2 = y) as -> by congruence.
      chase_in Htb'. assert (tb' = tb) as -> by congruence.
      unfold assign_value_if_none in *. rewrite Hnx in Hsa. rewrite Hny in Hsb.
      chase_in Hx'. chase_in Hy'.
      destruct y; simplify_eq/=.
      split; [solve_only|]. split; [congruence|]. split; [congruence|done].
    - apply ret_Ok in Hfill as [_ ->].
      split; [apply only_refl|]. split; [congruence|]. split; [congruence|done]. }
  (* the second block: concatenate and reorder *)
  destruct (is_none x && is_none y) eqn:Hboth.
  - apply andb_true_iff in Hboth as [Hnx Hny]. unfold fill in H.
    rewrite Hnx, Hny in H. simpl in H. rewrite Hnx in H. simpl in H.
    apply ret_Ok in H as [_ ->].
    split; [done|]. split; [done|]. split; [done|]. by apply Hnone.
  - assert (negb (is_none (fill x y ta)) && negb (is_none (fill y x tb)) = true)
      as Hpresent.
    { unfold fill. destruct (is_none x) eqn:?, (is_none y) eqn:?; simpl in *;
        try done; by rewrite ?Heqb, ?Heqb0. }
    rewrite Hpresent in H.
    apply bind_Ok in H as (a & ? & [Ha ->]%lift_Ok & H).
    apply bind_Ok in H as (b & ? & [Hb ->]%lift_Ok & H).
    apply bind_Ok in H as ([] & σ2 & [_ Ho2]%setattr_Ok & H).
    apply bind_Ok in H as (r & ? & [Hr ->]%lift_Ok & H).
    apply setattr_Ok in H as [Hev Ho3].
    split; [solve_only|].
    split; [by chase|]. split; [by chase|].
    exists a, b, r.
    split; [by destruct (fill x y ta); simplify_eq/=|].
    split; [by destruct (fill y x tb); simplify_eq/=|]. done.
Qed.

Lemma join_gti_default_inv self other σ σ' ta :
  attr σ self "time" = Some (VArr ta) →
  join_gti_default self other σ = Ok (tt, σ') →
  ∃ g go dt,
    attr σ self "gti" = Some g ∧ attr σ other "gti" = Some go
    ∧ (default_gti g go ta dt ≠ g → attr σ self "dt" = Some (VNum dt))
    ∧ only (λ r n, r = self ∧ n = "gti") σ σ'
    ∧ attr σ' self "gti" = Some (default_gti g go ta dt).
Proof.
  intros Hta. unfold join_gti_default.
  intros (g & ? & [Hg ->]%getattr_Ok & H)%bind_Ok.
  apply bind_Ok in H as (go & ? & [Hgo ->]%getattr_Ok & H).
  destruct (is_none g && negb (is_none go)) eqn:Hcond.
  - apply bind_Ok in H as (ta' & ? & [Hta' ->]%getarr_Ok & H).
    assert (ta' = ta) as -> by congruence.
    destruct (bool_decide (0 < length ta)%nat) eqn:Hlen.
    + apply bind_Ok in H as (dt & ? & [Hdt ->]%getnum_Ok & H).
      apply setattr_Ok in H as [Hs Ho].
      exists g, go, dt. unfold default_gti. rewrite Hcond, Hlen. cbn [andb].
      apply andb_true_iff in Hcond as [Hn _].
      unfold assign_value_if_none in Hs. rewrite Hn in Hs.
      split; [done|]. split; [done|]. split; [done|]. by split.
    + apply ret_Ok in H as [_ ->]. exists g, go, 0%Q.
      unfold default_gti. rewrite Hcond, Hlen. cbn [andb].
      split; [done|]. split; [done|]. split; [done|].
      split; [apply only_refl|done].
  - apply ret_Ok in H as [_ ->]. exists g, go, 0%Q.
    unfold default_gti. rewrite Hcond. cbn [andb].
    split; [done|]. split; [done|]. split; [done|].
    split; [apply only_refl|done].
Qed.

Lemma join_gti_inv self other ev σ σ' :
  join_gti self other ev σ = Ok (tt, σ') →
  ∃ g go,
    attr σ self "gti" = Some g ∧ attr σ other "gti" = Some go
    ∧ only (λ r n, r = ev ∧ n = "gti") σ σ'
    ∧ (is_none g && is_none go = true → attr σ' ev "gti" = Some VNone)
    ∧ (is_none g = negb (is_none go) → attr σ' ev "gti" = attr σ ev "gti")
    ∧ (is_none g || is_none go = false →
        ∃ g0 g1, g = VArr2 g0 ∧ go = VArr2 g1
          ∧ attr σ' ev "gti"
            = Some (VArr2 (if check_separate g0 g1 then append_gtis g0 g1
                           else cross_gtis [g0; g1]))
          ∧ (check_separate g0 g1 = true → gti_warning ∈ warnings σ')).
Proof.
  unfold join_gti.
  intros (g & ? & [Hg ->]%getattr_Ok & H)%bind_Ok.
  apply bind_Ok in H as (go & ? & [Hgo ->]%getattr_Ok & H).
  exists g, go. split; [done|]. split; [done|].
  destruct (is_none g) eqn:Hng, (is_none go) eqn:Hngo; simpl in *.
  - apply setattr_Ok in H as [Hs Ho]. split; [done|]. by split.
  - apply ret_Ok in H as [_ ->]. split; [apply only_refl|]. by split.
  - apply ret_Ok in H as [_ ->]. split; [apply only_refl|]. by split.
  - apply bind_Ok in H as (g0 & ? & [Hg0 ->]%lift_Ok & H).
    apply bind_Ok in H as (g1 & ? & [Hg1 ->]%lift_Ok & H).
    assert (g = VArr2 g0) as -> by (by destruct g; simplify_eq/=).
    assert (go = VArr2 g1) as -> by (by destruct go; simplify_eq/=).
    destruct (check_separate g0 g1) eqn:Hsep.
    + apply bind_Ok in H as ([] & σ1 & [Hs Ho]%setattr_Ok & [Hw Ho']%simon_Ok).
      split; [solve_only|]. split; [done|]. split; [done|]. intros _.
      exists g0, g1. rewrite Hsep. split; [done|]. split; [done|].
      split; [by chase|]. intros _. exact Hw.
    + apply setattr_Ok in H as [Hs Ho].
      split; [done|]. split; [done|]. split; [done|]. intros _.
      exists g0, g1. rewrite Hsep. split; [done|]. split; [done|]. by split.
Qed.

Lemma join_labels_inv self other ev σ σ' :
  join_labels self other ev σ = Ok (tt, σ') →
  only (λ r n, r = ev ∧ (n = "mission" ∨ n = "instr")) σ σ'.
Proof.
  unfold join_labels. cbn [for_each].
  assert (∀ name σ σ',
    (let* x := getattr self name in
     let* y := getattr other name in
     let* differ := lift (py_ne x y) in
     if differ then let* l := lift (join_label x y) in setattr ev name l
     else setattr ev name x) σ = Ok (tt, σ') →
    only (λ r n, r = ev ∧ n = name) σ σ') as Hone.
  { clear. intros name σ σ'.
    intros (x & ? & [Hx ->]%getattr_Ok & H)%bind_Ok.
    apply bind_Ok in H as (y & ? & [Hy ->]%getattr_Ok & H).
    apply bind_Ok in H as (differ & ? & [Hd ->]%lift_Ok & H).
    destruct differ.
    - apply bind_Ok in H as (l & ? & [Hl ->]%lift_Ok & H).
      by apply setattr_Ok in H as [_ ?].
    - by apply setattr_Ok in H as [_ ?]. }
  intros ([] & σ1 & H1%Hone & H)%bind_Ok.
  apply bind_Ok in H as ([] & σ2 & H2%Hone & [_ ->]%ret_Ok).
  solve_only.
Qed.

Lemma alloc_Ok o σ r σ' :
  alloc o σ = Ok (r, σ') →
  heap σ !! r = None
  ∧ only (λ r' _, r' = r) σ σ'
  ∧ ∀ n, attr σ' r n = lookup_attr o n.
Proof.
  unfold alloc. intros [= <- <-]. split; [apply fresh_heap|]. split.
  - split; [|done]. intros r n Hr. by rewrite attr_insert, decide_False.
  - intros n. by rewrite attr_insert, decide_True.
Qed.

Lemma EventList_nil_Ok σ ev σ' :
  EventList [] σ = Ok (ev, σ') →
  heap σ !! ev = None
  ∧ only (λ r _, r = ev) σ σ'
  ∧ ∀ n, attr σ' ev n = lookup_attr empty_event n.
Proof.
  rewrite EventList_nil. intros [= <- <-]. split; [apply fresh_heap|]. split.
  - split; [|done]. intros r n Hr. by rewrite attr_insert, decide_False.
  - intros n. by rewrite attr_insert, decide_True.
Qed.

Lemma deref_Ok r σ o σ' :
  deref r σ = Ok (o, σ') → heap σ !! r = Some o ∧ σ' = σ.
Proof.
  unfold deref. destruct (heap σ !! r); [|done]. by intros [= -> ->].
Qed.

Lemma change_mjdref_Ok self new_mjdref σ new_ev σ' :
  change_mjdref self new_mjdref σ = Ok (new_ev, σ') →
  ∃ mjdref time gti time' gti',
    heap σ !! new_ev = None
    ∧ only (λ r _, r = new_ev) σ σ'
    ∧ attr σ self "mjdref" = Some (VNum mjdref)
    ∧ attr σ self "time" = Some time
    ∧ attr σ self "gti" = Some gti
    ∧ value_add time (epoch_shift new_mjdref mjdref) = Ok time'
    ∧ value_add gti (epoch_shift new_mjdref mjdref) = Ok gti'
    ∧ attr σ' new_ev "time" = Some time'
    ∧ attr σ' new_ev "gti" = Some gti'
    ∧ attr σ' new_ev "mjdref" = Some (VNum new_mjdref)
    ∧ (∀ n, n ≠ "time" → n ≠ "gti" → n ≠ "mjdref" →
         attr σ' new_ev n = attr σ self n).
Proof.
  unfold change_mjdref, shift, deepcopy.
  intros (mjdref & ? & (v & ? & [Hm ->]%getattr_Ok & [Hv ->]%lift_Ok)%bind_Ok & H)%bind_Ok.
  assert (v = VNum mjdref) as -> by (by destruct v; simplify_eq/=).
  apply bind_Ok in H as (r & σ4 & H & Hset).
  apply bind_Ok in H as
    (r' & σ1 & (o & ? & [Ho ->]%deref_Ok & (Hr & Ho1 & Hcopy)%alloc_Ok)%bind_Ok & H).
  apply bind_Ok in H as (time & ? & [Ht ->]%getattr_Ok & H).
  apply bind_Ok in H as (time' & ? & [Ht' ->]%lift_Ok & H).
  apply bind_Ok in H as ([] & σ2 & [Hst Ho2]%setattr_Ok & H).
  apply bind_Ok in H as (gti & ? & [Hg ->]%getattr_Ok & H).
  apply bind_Ok in H as (gti' & ? & [Hg' ->]%lift_Ok & H).
  apply bind_Ok in H as ([] & σ3 & [Hsg Ho3]%setattr_Ok & [-> ->]%ret_Ok).
  apply bind_Ok in Hset as ([] & σ5 & [Hsm Ho4]%setattr_Ok & [-> ->]%ret_Ok).
  assert (∀ n, attr σ1 r' n = attr σ self n) as Hsame.
  { intros n. rewrite Hcopy. symmetry. by apply attr_lookup. }
  chase_in Hg. rewrite Hsame in Ht, Hg.
  exists mjdref, time, gti, time', gti'.
  split; [done|]. split; [solve_only|].
  split; [done|]. split; [done|]. split; [done|].
  split; [done|]. split; [done|].
  split; [by chase|]. split; [by chase|]. split; [done|].
  intros n ???. chase. apply Hsame.
Qed.

Lemma default_gti_same g t dt : default_gti g g t dt = g.
Proof. unfold default_gti. by destruct (is_none g). Qed.

Lemma join_merge_inv a b ev σ r σ' :
  ev ≠ a → ev ≠ b → attr σ ev "gti" = Some VNone →
  join_merge a b ev σ = Ok (r, σ') →
  r = ev ∧ ∃ ta tb x_pi y_pi x_en y_en ga gb dta dtb s,
    attr σ a "time" = Some (VArr ta) ∧ attr σ b "time" = Some (VArr tb)
    ∧ attr σ a "pi" = Some x_pi ∧ attr σ b "pi" = Some y_pi
    ∧ attr σ a "energy" = Some x_en ∧ attr σ b "energy" = Some y_en
    ∧ attr σ a "gti" = Some ga ∧ attr σ b "gti" = Some gb
    ∧ (default_gti ga gb ta dta ≠ ga → attr σ a "dt" = Some (VNum dta))
    ∧ (default_gti gb (default_gti ga gb ta dta) tb dtb ≠ gb →
         attr σ b "dt" = Some (VNum dtb))
    ∧ only (λ r n, r = ev ∨ ((r = a ∨ r = b)
                              ∧ (n = "pi" ∨ n = "energy" ∨ n = "gti"))) σ σ'
    ∧ np_take (ta ++ tb) (np_argsort (ta ++ tb)) = Ok s
    ∧ attr σ' ev "time" = Some (VArr s)
    ∧ zero_default_result σ' "pi" a b ev x_pi y_pi ta tb (np_argsort (ta ++ tb))
    ∧ zero_default_result σ' "energy" a b ev x_en y_en ta tb
        (np_argsort (ta ++ tb))
    ∧ gti_result σ' a b ev (default_gti ga gb ta dta)
        (default_gti gb (default_gti ga gb ta dta) tb dtb).
Proof.
  intros Hea Heb Hevgti. unfold join_merge.
  intros (ta & ? & [Hta ->]%getarr_Ok & H)%bind_Ok.
  apply bind_Ok in H as (tb & ? & [Htb ->]%getarr_Ok & H).
  apply bind_Ok in H as ([] & σ1 & [_ Ho1]%setattr_Ok & H).
  apply bind_Ok in H as (s & ? & [Hs ->]%lift_Ok & H).
  apply bind_Ok in H as ([] & σ2 & [Htime Ho2]%setattr_Ok & H).
  apply bind_Ok in H as ([] & σ3 & Hpi & H).
  apply bind_Ok in H as ([] & σ4 & Hen & H).
  apply bind_Ok in H as ([] & σ5 & Hda & H).
  apply bind_Ok in H as ([] & σ6 & Hdb & H).
  apply bind_Ok in H as ([] & σ7 & Hgti & H).
  apply bind_Ok in H as ([] & σ8 & Ho8%join_labels_inv & H).
  apply bind_Ok in H as (mj & ? & [_ ->]%getattr_Ok & H).
  apply bind_Ok in H as ([] & σ9 & [_ Ho9]%setattr_Ok & [-> ->]%ret_Ok).
  split; [done|].
  (* pi *)
  apply (join_zero_default_inv _ _ _ _ _ _ _ ta tb) in Hpi
    as (x_pi & y_pi & Hxp & Hyp & Ho3 & Hap & Hbp & Hevp);
    [|done|done|by chase|by chase|done].
  chase_in Hxp. chase_in Hyp.
  (* energy *)
  apply (join_zero_default_inv _ _ _ _ _ _ _ ta tb) in Hen
    as (x_en & y_en & Hxe & Hye & Ho4 & Hae & Hbe & Heve);
    [|done|done|by chase|by chase|done].
  chase_in Hxe. chase_in Hye.
  (* the GTI of a side that has none *)
  apply (join_gti_default_inv _ _ _ _ ta) in Hda
    as (ga & gb & dta & Hga & Hgb & Hdta & Ho5 & Hga'); [|by chase].
  apply (join_gti_default_inv _ _ _ _ tb) in Hdb
    as (gb2 & ga2 & dtb & Hgb2 & Hga2 & Hdtb & Ho6 & Hgb'); [|by chase].
  assert (ga2 = default_gti ga gb ta dta) as ->
    by (rewrite Hga' in Hga2; by injection Hga2).
  assert (gb2 = gb) as ->.
  { destruct (decide (a = b)) as [->|Hab].
    - assert (ga = gb) as -> by congruence.
      rewrite default_gti_same in Hga'. congruence.
    - chase_in Hgb2. chase_in Hgb. congruence. }
  set (ga' := default_gti ga gb ta dta) in *.
  set (gb' := default_gti gb ga' tb dtb) in *.
  assert (attr σ6 a "gti" = Some ga') as Hga6.
  { destruct (decide (a = b)) as [->|Hab].
    - assert (ga = gb) as Heq by congruence.
      rewrite Hgb'. unfold gb', ga'. rewrite Heq.
      by rewrite !default_gti_same.
    - by chase. }
  assert (attr σ4 a "dt" = attr σ a "dt") as Hdt4 by (by chase).
  assert (attr σ5 b "dt" = attr σ b "dt") as Hdt5 by (by chase).
  rewrite Hdt4 in Hdta. rewrite Hdt5 in Hdtb.
  chase_in Hga. chase_in Hgb.
  (* the GTI of the result *)
  apply join_gti_inv in Hgti
    as (ga3 & gb3 & Hga3 & Hgb3 & Ho7 & Hnone & Hone & Hboth).
  assert (ga3 = ga') as -> by congruence.
  assert (gb3 = gb') as -> by congruence.
  assert (attr σ6 ev "gti" = Some VNone) as Hev6 by (by chase).
  exists ta, tb, x_pi, y_pi, x_en, y_en, ga, gb, dta, dtb, s.
  split; [done|]. split; [done|]. split; [done|]. split; [done|].
  split; [done|]. split; [done|]. split; [done|]. split; [done|].
  split; [done|]. split; [done|].
  split; [solve_only|]. split; [done|]. split; [by chase|].
  split; [|split].
  - split; [by chase|]. split; [by chase|].
    destruct (is_none x_pi && is_none y_pi); [by chase|].
    destruct Hevp as (p & q & r & ? & ? & ? & ?). exists p, q, r.
    split; [done|]. split; [done|]. split; [done|]. by chase.
  - split; [by chase|]. split; [by chase|].
    destruct (is_none x_en && is_none y_en); [by chase|].
    destruct Heve as (p & q & r & ? & ? & ? & ?). exists p, q, r.
    split; [done|]. split; [done|]. split; [done|]. by chase.
  - unfold gti_result. fold ga'. fold gb'.
    split; [by chase|]. split; [by chase|]. split.
    + chase.
      destruct (is_none ga') eqn:Ha, (is_none gb') eqn:Hb; intros Hany.
      * by apply Hnone.
      * rewrite Hone by done. done.
      * rewrite Hone by done. done.
      * done.
    + intros Hany. destruct (Hboth Hany) as (g0 & g1 & ? & ? & Hev & Hw).
      exists g0, g1. split; [done|]. split; [done|]. split; [by chase|].
      intros Hsep. eapply only_warning; [exact Ho9|].
      eapply only_warning; [exact Ho8|]. by apply Hw.
Qed.

Lemma join_inv a b ev σ σ' time time_o :
  attr σ a "time" = Some time → attr σ b "time" = Some time_o →
  is_none time && is_none time_o = false →
  join a b σ = Ok (ev, σ') →
  ∃ (b' : ref) (ma mb : Q) (ta tb : list Q)
    (x_pi y_pi x_en y_en ga gb0 gb : value) (dta dtb : Q) (s : list Q),
    heap σ !! ev = None
    ∧ attr σ a "mjdref" = Some (VNum ma) ∧ attr σ b "mjdref" = Some (VNum mb)
    ∧ (np_isclose ma mb mjdref_atol = true → b' = b)
    ∧ or_empty time = VArr ta
    ∧ reconcile ma mb (or_empty time_o) = Ok (VArr tb)
    ∧ attr σ a "pi" = Some x_pi ∧ attr σ b "pi" = Some y_pi
    ∧ attr σ a "energy" = Some x_en ∧ attr σ b "energy" = Some y_en
    ∧ attr σ a "gti" = Some ga ∧ attr σ b "gti" = Some gb0
    ∧ reconcile ma mb gb0 = Ok gb
    ∧ (default_gti ga gb ta dta ≠ ga → attr σ a "dt" = Some (VNum dta))
    ∧ (default_gti gb (default_gti ga gb ta dta) tb dtb ≠ gb →
         attr σ b "dt" = Some (VNum dtb))
    ∧ attr σ' a "time" = Some (VArr ta)
    ∧ attr σ' b "time" = Some (or_empty time_o)
    ∧ np_take (ta ++ tb) (np_argsort (ta ++ tb)) = Ok s
    ∧ attr σ' ev "time" = Some (VArr s)
    ∧ zero_default_result σ' "pi" a b' ev x_pi y_pi ta tb (np_argsort (ta ++ tb))
    ∧ zero_default_result σ' "energy" a b' ev x_en y_en ta tb
        (np_argsort (ta ++ tb))
    ∧ gti_result σ' a b' ev (default_gti ga gb ta dta)
        (default_gti gb (default_gti ga gb ta dta) tb dtb).
Proof.
  intros Htime Htime_o Hnone. unfold join.
  intros (ev0 & σ1 & (Hfresh & Ho1 & Hinit)%EventList_nil_Ok & H)%bind_Ok.
  assert (ev0 ≠ a) as Hea.
  { intros ->. apply attr_is_Some in Htime as [? ?]. congruence. }
  assert (ev0 ≠ b) as Heb.
  { intros ->. apply attr_is_Some in Htime_o as [? ?]. congruence. }
  apply bind_Ok in H as (dt & ? & [_ ->]%getattr_Ok & H).
  apply bind_Ok in H as (dt_o & ? & [_ ->]%getattr_Ok & H).
  apply bind_Ok in H as (differ & ? & [_ ->]%lift_Ok & H).
  apply bind_Ok in H as ([] & σ2 & Hdt & H).
  assert (only (λ r n, r = ev0 ∧ n = "dt") σ1 σ2) as Ho2.
  { destruct differ.
    - apply bind_Ok in Hdt as ([] & ? & [_ ?]%simon_Ok & Hdt).
      apply bind_Ok in Hdt as (da & ? & [_ ->]%lift_Ok & Hdt).
      apply bind_Ok in Hdt as (db & ? & [_ ->]%lift_Ok & [_ ?]%setattr_Ok).
      solve_only.
    - apply ret_Ok in Hdt as [_ ->]. apply only_refl. }
  clear Hdt.
  apply bind_Ok in H as (time2 & ? & [Htime2 ->]%getattr_Ok & H).
  apply bind_Ok in H as (time_o2 & ? & [Htime_o2 ->]%getattr_Ok & H).
  chase_in Htime2. chase_in Htime_o2.
  assert (time2 = time) as -> by congruence.
  assert (time_o2 = time_o) as -> by congruence.
  rewrite Hnone in H.
  apply bind_Ok in H as ([] & σ3 & Hfix & H).
  assert (only (λ r n, n = "time" ∧ (r = a ∨ r = b)) σ2 σ3
          ∧ attr σ3 a "time" = Some (or_empty time)
          ∧ attr σ3 b "time" = Some (or_empty time_o)) as (Ho3 & Hta3 & Htb3).
  { unfold or_empty. destruct (is_none time) eqn:Hn.
    - simpl in Hnone. rewrite Hnone.
      assert (a ≠ b) as Hab by (intros ->; destruct time, time_o; simplify_eq/=).
      apply bind_Ok in Hfix as ([] & ? & [_ ?]%simon_Ok & [? ?]%setattr_Ok).
      split; [solve_only|]. split; [done|]. by chase.
    - destruct (is_none time_o) eqn:Hno.
      + assert (a ≠ b) as Hab by (intros ->; destruct time, time_o; simplify_eq/=).
        apply bind_Ok in Hfix as ([] & ? & [_ ?]%simon_Ok & [? ?]%setattr_Ok).
        split; [solve_only|]. split; [by chase|done].
      + apply ret_Ok in Hfix as [_ ->].
        split; [apply only_refl|]. split; by chase. }
  clear Hfix.
  apply bind_Ok in H as (ma & ? & [Hma ->]%getnum_Ok & H).
  apply bind_Ok in H as (mb & ? & [Hmb ->]%getnum_Ok & H).
  apply bind_Ok in H as (b' & σ4 & Hshift & H).
  assert (attr σ3 ev0 "gti" = Some VNone) as Hev3.
  { chase. by rewrite Hinit. }
  assert (ev0 ≠ b'
          ∧ (np_isclose ma mb mjdref_atol = true → b' = b)
          ∧ (∀ n, attr σ4 a n = attr σ3 a n)
          ∧ (∀ n, attr σ4 b n = attr σ3 b n)
          ∧ (∀ n, attr σ4 ev0 n = attr σ3 ev0 n)
          ∧ (∀ n, n ≠ "time" → n ≠ "gti" → n ≠ "mjdref" →
               attr σ4 b' n = attr σ3 b n)
          ∧ (∀ n v, n = "time" ∨ n = "gti" → attr σ3 b n = Some v →
               ∃ v', reconcile ma mb v = Ok v' ∧ attr σ4 b' n = Some v')
          ∧ (b' ≠ b → is_Some (attr σ3 b "gti")))
    as (Heb' & Hclose & Ha4 & Hb4 & Hev4 & Hcopy & Hrec & Hgti3).
  { unfold reconcile. destruct (np_isclose ma mb mjdref_atol) eqn:Hc; simpl in Hshift.
    - apply ret_Ok in Hshift as [-> ->].
      split; [done|]. split; [done|]. split; [done|]. split; [done|].
      split; [done|]. split; [done|]. split; [eauto|done].
    - apply change_mjdref_Ok in Hshift
        as (mb2 & t & g & t' & g' & Hnew & Ho4 & Hmb2 & Ht & Hg & Ht' & Hg'
            & Hnt & Hng & _ & Hrest).
      assert (mb2 = mb) as -> by congruence.
      assert (∀ r n v, attr σ3 r n = Some v → r ≠ b') as Hold.
      { intros r n v Hr ->. apply attr_is_Some in Hr as [? ?]. congruence. }
      assert (a ≠ b') by eauto. assert (b ≠ b') by eauto.
      assert (ev0 ≠ b') by eauto.
      split; [done|]. split; [done|].
      split; [intros; by chase|]. split; [intros; by chase|].
      split; [intros; by chase|]. split; [done|]. split; [|eauto].
      intros n v [->| ->] Hv.
      + assert (v = t) as -> by congruence. eauto.
      + assert (v = g) as -> by congruence. eauto. }
  clear Hshift.
  apply join_merge_inv in H
    as (-> & ta & tb & x_pi & y_pi & x_en & y_en & ga & gb & dta & dtb & s
        & Hta & Htb & Hxp & Hyp & Hxe & Hye & Hga & Hgb & Hdta & Hdtb
        & Ho5 & Hs & Hevt & Hpi & Hen & Hgti);
    [|done|done|by rewrite Hev4].
  rewrite Ha4 in Hta, Hxp, Hxe, Hga, Hdta.
  rewrite Hcopy in Hyp, Hye, Hdtb by done.
  destruct (Hrec "time" _ (or_introl eq_refl) Htb3) as (tb' & Hrtb & Htb').
  assert (tb' = VArr tb) as -> by congruence.
  assert (∃ gb0, attr σ b "gti" = Some gb0 ∧ reconcile ma mb gb0 = Ok gb)
    as (gb0 & Hgb0 & Hrgb).
  { destruct (attr σ3 b "gti") as [gb0|] eqn:Hgb3.
    - destruct (Hrec "gti" _ (or_intror eq_refl) Hgb3) as (gb' & ? & Hgb').
      exists gb0. split; [by chase_in Hgb3|]. congruence.
    - exfalso. destruct (decide (b' = b)) as [->|Hne].
      + rewrite Hb4 in Hgb. congruence.
      + destruct (Hgti3 Hne) as [? ?]. congruence. }
  chase_in Hta. chase_in Hxp. chase_in Hxe. chase_in Hga.
  chase_in Hyp. chase_in Hye. chase_in Hma. chase_in Hmb.
  exists b', ma, mb, ta, tb, x_pi, y_pi, x_en, y_en, ga, gb0, gb, dta, dtb, s.
  split; [done|]. split; [done|]. split; [done|]. split; [done|].
  split; [congruence|]. split; [done|].
  split; [done|]. split; [done|]. split; [done|]. split; [done|].
  split; [done|]. split; [done|]. split; [done|].
  split; [intros Hd; specialize (Hdta Hd); by chase_in Hdta|].
  split; [intros Hd; specialize (Hdtb Hd); by chase_in Hdtb|].
  split; [chase; by rewrite Ha4|].
  split; [chase; by rewrite Hb4|].
  done.
Qed.

(** ** Sorting *)

#[global] Instance key_le_transitive : Transitive key_le.
Proof.
  intros x y z. unfold key_le. rewrite !Qle_bool_iff. apply Qle_trans.
Qed.

#[global] Instance key_le_total : Total key_le.
Proof.
  intros x y. unfold key_le. rewrite !Qle_bool_iff.
  destruct (Qlt_le_dec x.1 y.1); [left; by apply Qlt_le_weak|by right].
Qed.

#[global] Instance gti_le_transitive : Transitive gti_le.
Proof.
  intros x y z. unfold gti_le. rewrite !Qle_bool_iff. apply Qle_trans.
Qed.

#[global] Instance gti_le_total : Total gti_le.
Proof.
  intros x y. unfold gti_le. rewrite !Qle_bool_iff.
  destruct (Qlt_le_dec x.1 y.1); [left; by apply Qlt_le_weak|by right].
Qed.

Lemma sort_keys_lookup a v i : (v, i) ∈ sort_keys a → a !! i = Some v.
Proof.
  unfold sort_keys. rewrite merge_sort_Permutation.
  intros (k & Hk)%list_elem_of_lookup_1.
  apply lookup_zip_with_Some in Hk as (x & y & [= -> ->] & Hx & Hy).
  apply lookup_seq in Hy as [-> _]. done.
Qed.

Lemma np_argsort_perm a : np_argsort a ≡ₚ seq 0 (length a).
Proof.
  unfold np_argsort, sort_keys. rewrite merge_sort_Permutation.
  rewrite snd_zip; [done|]. by rewrite length_seq.
Qed.

Lemma np_take_argsort a : np_take a (np_argsort a) = Ok (sort_keys a).*1.
Proof.
  unfold np_take, np_argsort. erewrite mapM_Some_2; [done|].
  apply Forall2_fmap, Forall_Forall2_diag, Forall_forall.
  intros [v i]. apply sort_keys_lookup.
Qed.

Lemma np_take_argsort_sorted a s :
  np_take a (np_argsort a) = Ok s → Sorted Qle s ∧ s ≡ₚ a.
Proof.
  rewrite np_take_argsort. intros [= <-]. split.
  - apply StronglySorted_Sorted.
    apply (StronglySorted_fmap _ key_le).
    + intros x y. unfold key_le. by rewrite Qle_bool_iff.
    + apply StronglySorted_merge_sort; apply _.
  - unfold sort_keys. rewrite merge_sort_Permutation.
    rewrite fst_zip; [done|]. by rewrite length_seq.
Qed.

Lemma np_take_lookup {A} (a : list A) order r k i :
  np_take a order = Ok r → order !! k = Some i →
  ∃ x, r !! k = Some x ∧ a !! i = Some x.
Proof.
  unfold np_take. destruct (mapM _ order) as [r'|] eqn:Hm; [|done].
  intros [= <-] Hk. apply mapM_Some_1 in Hm.
  destruct (Forall2_lookup_l _ _ _ _ _ Hm Hk) as (x & ? & ?). eauto.
Qed.

(** ** GTI algebra *)

Lemma check_separate_spec g0 g1 :
  check_separate g0 g1 = true ↔
  (∀ i j, i ∈ g0 → j ∈ g1 → overlap i j = false).
Proof.
  unfold check_separate. rewrite forallb_forall. split.
  - intros H i j Hi%list_elem_of_In Hj%list_elem_of_In.
    specialize (H i Hi). rewrite forallb_forall in H.
    specialize (H j Hj). by destruct (overlap i j).
  - intros H i Hi%list_elem_of_In. rewrite forallb_forall.
    intros j Hj%list_elem_of_In. by rewrite H.
Qed.

Lemma append_gtis_spec g0 g1 :
  append_gtis g0 g1 ≡ₚ g0 ++ g1
  ∧ Sorted (λ i j, (i.1 <= j.1)%Q) (append_gtis g0 g1).
Proof.
  unfold append_gtis. split; [apply merge_sort_Permutation|].
  apply StronglySorted_Sorted.
  eapply StronglySorted_impl; [|apply StronglySorted_merge_sort; apply _].
  intros x y. unfold gti_le. by rewrite Qle_bool_iff.
Qed.

Lemma cross_gtis_spec g0 g1 i :
  i ∈ cross_gtis [g0; g1] →
  ∃ ia ib, ia ∈ g0 ∧ ib ∈ g1 ∧ overlap ia ib = true
    ∧ i = (Qmax ia.1 ib.1, Qmin ia.2 ib.2)
    ∧ within i ia ∧ within i ib.
Proof.
  cbn [cross_gtis foldl]. unfold cross_two.
  intros (ia & Hi & Ha)%list_elem_of_bind.
  apply list_elem_of_bind in Hi as (ib & Hi & Hb).
  destruct (overlap ia ib) eqn:Ho; [|by apply elem_of_nil in Hi].
  apply list_elem_of_singleton in Hi as ->.
  exists ia, ib. split; [done|]. split; [done|]. split; [done|].
  split; [done|]. unfold within. simpl.
  split; (split; [apply Q.le_max_l || apply Q.le_max_r
                 |apply Q.le_min_l || apply Q.le_min_r]).
Qed.

(** ** [join] from the first state *)

Lemma join_times a b ev σ σ' :
  is_Some (heap σ !! a) → is_Some (heap σ !! b) →
  join a b σ = Ok (ev, σ') →
  ∃ time time_o,
    attr σ a "time" = Some time ∧ attr σ b "time" = Some time_o.
Proof.
  intros [oa Ha] [ob Hb]. unfold join.
  intros (ev0 & σ1 & (Hfresh & Ho1 & Hinit)%EventList_nil_Ok & H)%bind_Ok.
  assert (ev0 ≠ a) as Hea by (intros ->; congruence).
  assert (ev0 ≠ b) as Heb by (intros ->; congruence).
  apply bind_Ok in H as (dt & ? & [_ ->]%getattr_Ok & H).
  apply bind_Ok in H as (dt_o & ? & [_ ->]%getattr_Ok & H).
  apply bind_Ok in H as (differ & ? & [_ ->]%lift_Ok & H).
  apply bind_Ok in H as ([] & σ2 & Hdt & H).
  assert (only (λ r n, r = ev0 ∧ n = "dt") σ1 σ2) as Ho2.
  { destruct differ.
    - apply bind_Ok in Hdt as ([] & ? & [_ ?]%simon_Ok & Hdt).
      apply bind_Ok in Hdt as (da & ? & [_ ->]%lift_Ok & Hdt).
      apply bind_Ok in Hdt as (db & ? & [_ ->]%lift_Ok & [_ ?]%setattr_Ok).
      solve_only.
    - apply ret_Ok in Hdt as [_ ->]. apply only_refl. }
  apply bind_Ok in H as (time & ? & [Htime ->]%getattr_Ok & H).
  apply bind_Ok in H as (time_o & ? & [Htime_o ->]%getattr_Ok & H).
  chase_in Htime. chase_in Htime_o. eauto.
Qed.

Lemma run_state_of {A} (m : M A) σ x :
  returns m σ = Some x → m σ = Ok (x, state_of (m σ)).
Proof.
  unfold returns, state_of. destruct (m σ) as [[y σ']|]; [|done].
  by intros [= ->].
Qed.

Lemma reconcile_VArr ma mb t v :
  reconcile ma mb (VArr t) = Ok v → v = VArr (on_epoch shift_times ma mb t).
Proof.
  unfold reconcile, on_epoch.
  destruct (np_isclose ma mb mjdref_atol); simpl; by intros [= <-].
Qed.

Lemma reconcile_VArr2 ma mb g v :
  reconcile ma mb (VArr2 g) = Ok v → v = VArr2 (on_epoch shift_gti ma mb g).
Proof.
  unfold reconcile, on_epoch.
  destruct (np_isclose ma mb mjdref_atol); simpl; by intros [= <-].
Qed.

Lemma reconcile_VNone ma mb v :
  reconcile ma mb VNone = Ok v →
  np_isclose ma mb mjdref_atol = true ∧ v = VNone.
Proof.
  unfold reconcile. destruct (np_isclose ma mb mjdref_atol); [|done].
  by intros [= <-].
Qed.

Lemma reconcile_not_none ma mb v v' :
  reconcile ma mb v = Ok v' → is_none v = false → is_none v' = false.
Proof.
  unfold reconcile. destruct (np_isclose ma mb mjdref_atol).
  - by intros [= <-].
  - destruct v; simpl; try done; by intros [= <-].
Qed.

Lemma or_empty_present v : is_none v = false → or_empty v = v.
Proof. unfold or_empty. by intros ->. Qed.

(** The early return of [join]: two lists without times. *)
Lemma join_both_none a b ev σ σ' time time_o :
  attr σ a "time" = Some time → attr σ b "time" = Some time_o →
  is_none time && is_none time_o = true →
  join a b σ = Ok (ev, σ') →
  heap σ !! ev = None
  ∧ (∀ n, n ≠ "dt" → attr σ' ev n = lookup_attr empty_event n)
  ∧ (∀ r n, r ≠ ev → attr σ' r n = attr σ r n).
Proof.
  intros Htime Htime_o Hnone. unfold join.
  intros (ev0 & σ1 & (Hfresh & Ho1 & Hinit)%EventList_nil_Ok & H)%bind_Ok.
  assert (ev0 ≠ a) as Hea.
  { intros ->. apply attr_is_Some in Htime as [? ?]. congruence. }
  assert (ev0 ≠ b) as Heb.
  { intros ->. apply attr_is_Some in Htime_o as [? ?]. congruence. }
  apply bind_Ok in H as (dt & ? & [_ ->]%getattr_Ok & H).
  apply bind_Ok in H as (dt_o & ? & [_ ->]%getattr_Ok & H).
  apply bind_Ok in H as (differ & ? & [_ ->]%lift_Ok & H).
  apply bind_Ok in H as ([] & σ2 & Hdt & H).
  assert (only (λ r n, r = ev0 ∧ n = "dt") σ1 σ2) as Ho2.
  { destruct differ.
    - apply bind_Ok in Hdt as ([] & ? & [_ ?]%simon_Ok & Hdt).
      apply bind_Ok in Hdt as (da & ? & [_ ->]%lift_Ok & Hdt).
      apply bind_Ok in Hdt as (db & ? & [_ ->]%lift_Ok & [_ ?]%setattr_Ok).
      solve_only.
    - apply ret_Ok in Hdt as [_ ->]. apply only_refl. }
  clear Hdt.
  apply bind_Ok in H as (time2 & ? & [Htime2 ->]%getattr_Ok & H).
  apply bind_Ok in H as (time_o2 & ? & [Htime_o2 ->]%getattr_Ok & H).
  chase_in Htime2. chase_in Htime_o2.
  assert (time2 = time) as -> by congruence.
  assert (time_o2 = time_o) as -> by congruence.
  rewrite Hnone in H. apply ret_Ok in H as [-> ->].
  split; [done|]. split.
  - intros n Hn. chase. apply Hinit.
  - intros r n Hr. by chase.
Qed.

(** C1, as the code has it, for two lists with GTIs.  When both are without
    times, the list that [join] returns is as [EventList()] makes it:
    without times and without GTIs.  Otherwise its GTI is made from the GTI
    of [A] and the GTI of [B] on the epoch of [A] (the GTI of [B] itself
    when the two [mjdref] are close, shifted otherwise): when no interval
    of one overlaps an interval of the other, it is their sorted
    concatenation, every window kept, and a warning is given; otherwise it
    is their intersection and every interval of it lies in an interval of
    each. *)
Theorem join_gti_spec a b ev σ σ' time time_o ga gb :
  attr σ a "gti" = Some (VArr2 ga) → attr σ b "gti" = Some (VArr2 gb) →
  attr σ a "time" = Some time → attr σ b "time" = Some time_o →
  join a b σ = Ok (ev, σ') →
  heap σ !! ev = None
  ∧ (is_none time && is_none time_o = true →
       attr σ' ev "time" = Some VNone
       ∧ attr σ' ev "gti" = Some VNone
       ∧ (∀ n, n ≠ "dt" → attr σ' ev n = lookup_attr empty_event n))
  ∧ (is_none time && is_none time_o = false →
       ∃ ma mb g,
         attr σ a "mjdref" = Some (VNum ma)
         ∧ attr σ b "mjdref" = Some (VNum mb)
         ∧ attr σ' ev "gti" = Some (VArr2 g)
         ∧ let gb' := on_epoch shift_gti ma mb gb in
           (check_separate ga gb' = true ↔
              (∀ i j, i ∈ ga → j ∈ gb' → overlap i j = false))
           ∧ (check_separate ga gb' = true →
                g = append_gtis ga gb' ∧ g ≡ₚ ga ++ gb'
                ∧ Sorted (λ i j, (i.1 <= j.1)%Q) g
                ∧ gti_warning ∈ warnings σ')
           ∧ (check_separate ga gb' = false →
                g = cross_gtis [ga; gb']
                ∧ ∀ i, i ∈ g →
                    ∃ ia ib, ia ∈ ga ∧ ib ∈ gb' ∧ within i ia ∧ within i ib)).
Proof.
  intros Hga Hgb Htime Htime_o Hjoin.
  destruct (is_none time && is_none time_o) eqn:Hnone.
  - destruct (join_both_none _ _ _ _ _ _ _ Htime Htime_o Hnone Hjoin)
      as (Hfresh & Hinit & _).
    split; [done|]. split; [|done]. intros _.
    split; [by rewrite Hinit|]. split; [by rewrite Hinit|done].
  - destruct (join_inv _ _ _ _ _ _ _ Htime Htime_o Hnone Hjoin)
      as (b' & ma & mb & ta & tb & x_pi & y_pi & x_en & y_en & ga0 & gb0 & gb1
          & dta & dtb & s & Hfresh & Hma & Hmb & _ & _ & _ & _ & _ & _ & _
          & Hga0 & Hgb0 & Hrec & _ & _ & _ & _ & _ & _ & _ & _ & Hgti).
    split; [done|]. split; [done|]. intros _.
    assert (ga0 = VArr2 ga) as -> by congruence.
    assert (gb0 = VArr2 gb) as -> by congruence.
    apply reconcile_VArr2 in Hrec as ->.
    set (gb' := on_epoch shift_gti ma mb gb) in *.
    destruct Hgti as (_ & _ & _ & Hboth).
    destruct (Hboth eq_refl) as (g0 & g1 & [= <-] & [= <-] & Hev & Hw).
    eexists ma, mb, _. split; [done|]. split; [done|]. split; [exact Hev|].
    fold gb'. split; [apply check_separate_spec|].
    destruct (check_separate ga gb') eqn:Hsep.
    + split; [|done]. intros _. split; [done|].
      destruct (append_gtis_spec ga gb'). split; [done|]. split; [done|].
      by apply Hw.
    + split; [done|]. intros _. split; [done|].
      intros i Hi. apply cross_gtis_spec in Hi
        as (ia & ib & ? & ? & _ & _ & ? & ?). by exists ia, ib.
Qed.

(** The example of the claim: [A = EventList(time=[1, 2, 3], gti=[[0, 4]])]
    and [B = EventList(time=[10, 11], gti=[[9, 12]])] join to the times
    [[1, 2, 3, 10, 11]] and the GTIs [[[0, 4], [9, 12]]]. *)
Lemma join_gti_spec_witness :
  attr (state_of (join 0%nat 1%nat join_store)) 2%nat "gti"
  = Some (VArr2 [(0, 4); (9, 12)]%Q)
  ∧ attr (state_of (join 0%nat 1%nat join_store)) 2%nat "time"
    = Some (VArr [1; 2; 3; 10; 11]%Q)
  ∧ attr (state_of (join 0%nat 1%nat timeless_store)) 2%nat "gti" = Some VNone.
Proof.
  destruct (join_gti_spec 0%nat 1%nat 2%nat join_store
              (state_of (join 0%nat 1%nat join_store))
              (VArr [1; 2; 3]%Q) (VArr [10; 11]%Q)
              [(0, 4)%Q] [(9, 12)%Q])
    as (_ & _ & Hsome).
  - vm_compute. reflexivity.
  - vm_compute. reflexivity.
  - vm_compute. reflexivity.
  - vm_compute. reflexivity.
  - apply run_state_of. vm_compute. reflexivity.
  - destruct (Hsome eq_refl) as (ma & mb & g & Hma & Hmb & Hg & _ & Hsep & _).
    vm_compute in Hma. injection Hma as <-.
    vm_compute in Hmb. injection Hmb as <-.
    split; [|split; [vm_compute; reflexivity|]].
    + destruct Hsep as (-> & _); [vm_compute; reflexivity|]. exact Hg.
    + destruct (join_gti_spec 0%nat 1%nat 2%nat timeless_store
                  (state_of (join 0%nat 1%nat timeless_store))
                  VNone VNone [(0, 4)%Q] [(9, 12)%Q])
        as (_ & Hnone & _).
      * vm_compute. reflexivity.
      * vm_compute. reflexivity.
      * vm_compute. reflexivity.
      * vm_compute. reflexivity.
      * apply run_state_of. vm_compute. reflexivity.
      * by destruct (Hnone eq_refl) as (_ & ? & _).
Defined.

(** C1, the claim as it reads fails, in two ways.  Two lists with the GTIs
    [[[0, 4]]] and [[[9, 12]]] and no times join to a list without GTI; and
    when [B] has [mjdref=1] and [A] has [mjdref=0], the GTI of the result is
    [[[0, 4], [86409, 86412]]], made with the GTI of [B] moved by a day,
    not the sorted concatenation [[[0, 4], [9, 12]]] of the two GTIs. *)
Lemma join_gti_not_of_inputs :
  check_separate [(0, 4)%Q] [(9, 12)%Q] = true
  ∧ append_gtis [(0, 4)%Q] [(9, 12)%Q] = [(0, 4); (9, 12)]%Q
  ∧ attr timeless_store 0%nat "gti" = Some (VArr2 [(0, 4)%Q])
  ∧ attr timeless_store 1%nat "gti" = Some (VArr2 [(9, 12)%Q])
  ∧ returns (let* r := join 0%nat 1%nat in getattr r "gti") timeless_store
    = Some VNone
  ∧ attr epoch_store 0%nat "gti" = Some (VArr2 [(0, 4)%Q])
  ∧ attr epoch_store 1%nat "gti" = Some (VArr2 [(9, 12)%Q])
  ∧ returns (let* r := join 0%nat 1%nat in getattr r "gti") epoch_store
    = Some (VArr2 [(0, 4); (86409, 86412)]%Q).
Proof. repeat split; vm_compute; reflexivity. Qed.

(** C4: for two lists with times, [join] leaves [pi] (or [energy]) absent
    when both sides lack it; otherwise the side that lacks it counts as
    zeros, one per event of that side, the two sides are concatenated and
    the result is reordered by [order], the one [argsort] of the
    concatenated times: the merged times are in ascending order, and a
    merged event takes its time and its [pi] from the same place of the
    concatenations. *)
Theorem join_zero_default_spec a b ev σ σ' name ta tb x y ma mb :
  name = "pi" ∨ name = "energy" →
  attr σ a "time" = Some (VArr ta) → attr σ b "time" = Some (VArr tb) →
  attr σ a name = Some x → attr σ b name = Some y →
  attr σ a "mjdref" = Some (VNum ma) → attr σ b "mjdref" = Some (VNum mb) →
  join a b σ = Ok (ev, σ') →
  let tb' := on_epoch shift_times ma mb tb in
  let order := np_argsort (ta ++ tb') in
  ∃ s,
    attr σ' ev "time" = Some (VArr s)
    ∧ np_take (ta ++ tb') order = Ok s
    ∧ order ≡ₚ seq 0 (length (ta ++ tb'))
    ∧ Sorted Qle s
    ∧ (is_none x && is_none y = true → attr σ' ev name = Some VNone)
    ∧ (is_none x && is_none y = false →
        ∃ p q r,
          attr σ' ev name = Some (VArr r)
          ∧ (if is_none x then p = replicate (length ta) 0%Q else x = VArr p)
          ∧ (if is_none y then q = replicate (length tb) 0%Q else y = VArr q)
          ∧ np_take (p ++ q) order = Ok r
          ∧ ∀ k i, order !! k = Some i →
              ∃ t v, s !! k = Some t ∧ (ta ++ tb') !! i = Some t
                     ∧ r !! k = Some v ∧ (p ++ q) !! i = Some v).
Proof.
  intros Hname Hta Htb Hx Hy Hma Hmb Hjoin tb' order.
  destruct (join_inv _ _ _ _ _ _ _ Hta Htb eq_refl Hjoin)
    as (b' & ma' & mb' & ta0 & tb0 & x_pi & y_pi & x_en & y_en & ga0 & gb0 & gb1
        & dta & dtb & s & Hfresh & Hma' & Hmb' & _ & Hta0 & Htb0 & Hxp & Hyp
        & Hxe & Hye & _ & _ & _ & _ & _ & _ & _ & Hs & Hev & Hpi & Hen & _).
  assert (ma' = ma) as -> by congruence.
  assert (mb' = mb) as -> by congruence.
  injection Hta0 as <-.
  apply reconcile_VArr in Htb0. injection Htb0 as ->.
  fold tb' in Hs, Hpi, Hen. fold order in Hs, Hpi, Hen.
  assert (zero_default_result σ' name a b' ev x y ta tb' order) as (_ & _ & Hres).
  { destruct Hname as [-> | ->].
    - by assert (x_pi = x ∧ y_pi = y) as [-> ->] by (split; congruence).
    - by assert (x_en = x ∧ y_en = y) as [-> ->] by (split; congruence). }
  destruct (np_take_argsort_sorted _ _ Hs) as [Hsorted _].
  exists s. split; [done|]. split; [done|].
  split; [apply np_argsort_perm|]. split; [done|].
  destruct (is_none x && is_none y) eqn:Hboth; [done|].
  split; [done|]. intros _.
  destruct Hres as (p & q & r & Hp & Hq & Hr & Hevr).
  exists p, q, r. split; [done|].
  assert (length tb' = length tb) as Hlen.
  { unfold tb', on_epoch, shift_times.
    destruct (np_isclose ma mb mjdref_atol); [done|by rewrite length_fmap]. }
  split; [|split; [|split; [done|]]].
  - unfold fill in Hp. destruct (is_none x) eqn:Hnx.
    + simpl in Hboth. rewrite Hboth in Hp. simpl in Hp. by injection Hp as <-.
    + done.
  - unfold fill in Hq. destruct (is_none y) eqn:Hny.
    + rewrite andb_true_r in Hboth. rewrite Hboth in Hq. simpl in Hq.
      injection Hq as <-. unfold np_zeros_like. by rewrite Hlen.
    + done.
  - intros k i Hk.
    destruct (np_take_lookup _ _ _ _ _ Hs Hk) as (t & ? & ?).
    destruct (np_take_lookup _ _ _ _ _ Hr Hk) as (v & ? & ?).
    by exists t, v.
Qed.

Lemma join_zero_default_spec_witness :
  ∃ s,
    attr (state_of (join 0%nat 1%nat fill_store)) 2%nat "time" = Some (VArr s)
    ∧ Sorted Qle s
    ∧ attr (state_of (join 0%nat 1%nat fill_store)) 2%nat "pi"
      = Some (VArr [10; 0; 30; 0; 50]%Q).
Proof.
  destruct (join_zero_default_spec 0%nat 1%nat 2%nat fill_store
              (state_of (join 0%nat 1%nat fill_store)) "pi"
              [4; 2]%Q [1; 5; 3]%Q VNone (VArr [10; 50; 30]%Q) 0 0)
    as (s & Hs & _ & _ & Hsorted & _).
  - by left.
  - vm_compute. reflexivity.
  - vm_compute. reflexivity.
  - vm_compute. reflexivity.
  - vm_compute. reflexivity.
  - vm_compute. reflexivity.
  - vm_compute. reflexivity.
  - apply run_state_of. vm_compute. reflexivity.
  - exists s. split; [exact Hs|]. split; [exact Hsorted|].
    vm_compute. reflexivity.
Defined.

(** C10: [join] can change its arguments.  When it returns: a first list
    with times and no [pi] (or [energy]), joined to a list that has it, has
    zeros there, one per event; a list with events and no GTI, joined to a
    list with GTIs, has the single GTI from [dt / 2] before its first time
    to [dt / 2] after its last; and a list without times, joined to a list
    with times, has the empty array as its times. *)
Theorem join_mutates_inputs a b ev σ σ' :
  join a b σ = Ok (ev, σ') →
  (∀ name ta y,
     name = "pi" ∨ name = "energy" →
     attr σ a "time" = Some (VArr ta) →
     attr σ a name = Some VNone →
     attr σ b name = Some y → is_none y = false →
     attr σ' a name = Some (VArr (replicate (length ta) 0%Q)))
  ∧ (∀ first rest gb,
       attr σ a "time" = Some (VArr (first :: rest)) →
       attr σ a "gti" = Some VNone →
       attr σ b "gti" = Some gb → is_none gb = false →
       ∃ dt,
         attr σ a "dt" = Some (VNum dt)
         ∧ attr σ' a "gti"
           = Some (VArr2 [(first - dt / 2,
                           default 0 (last (first :: rest)) + dt / 2)%Q]))
  ∧ (∀ first rest ga,
       attr σ b "time" = Some (VArr (first :: rest)) →
       attr σ b "gti" = Some VNone →
       attr σ a "gti" = Some ga → is_none ga = false →
       ∃ dt,
         attr σ b "dt" = Some (VNum dt)
         ∧ attr σ' b "gti"
           = Some (VArr2 [(first - dt / 2,
                           default 0 (last (first :: rest)) + dt / 2)%Q]))
  ∧ (∀ time_o,
       attr σ a "time" = Some VNone →
       attr σ b "time" = Some time_o → is_none time_o = false →
       attr σ' a "time" = Some (VArr []))
  ∧ (∀ time,
       attr σ b "time" = Some VNone →
       attr σ a "time" = Some time → is_none time = false →
       attr σ' b "time" = Some (VArr [])).
Proof.
  intros Hjoin.
  assert (∀ time time_o,
    attr σ a "time" = Some time → attr σ b "time" = Some time_o →
    is_none time && is_none time_o = false →
    ∃ (b' : ref) (ma mb : Q) (ta tb : list Q)
      (x_pi y_pi x_en y_en ga gb0 gb : value) (dta dtb : Q),
      (np_isclose ma mb mjdref_atol = true → b' = b)
      ∧ or_empty time = VArr ta
      ∧ reconcile ma mb (or_empty time_o) = Ok (VArr tb)
      ∧ attr σ a "pi" = Some x_pi ∧ attr σ b "pi" = Some y_pi
      ∧ attr σ a "energy" = Some x_en ∧ attr σ b "energy" = Some y_en
      ∧ attr σ a "gti" = Some ga ∧ attr σ b "gti" = Some gb0
      ∧ reconcile ma mb gb0 = Ok gb
      ∧ (default_gti ga gb ta dta ≠ ga → attr σ a "dt" = Some (VNum dta))
      ∧ (default_gti gb (default_gti ga gb ta dta) tb dtb ≠ gb →
           attr σ b "dt" = Some (VNum dtb))
      ∧ attr σ' a "time" = Some (VArr ta)
      ∧ attr σ' b "time" = Some (or_empty time_o)
      ∧ attr σ' a "pi" = Some (fill x_pi y_pi ta)
      ∧ attr σ' a "energy" = Some (fill x_en y_en ta)
      ∧ attr σ' a "gti" = Some (default_gti ga gb ta dta)
      ∧ attr σ' b' "gti"
        = Some (default_gti gb (default_gti ga gb ta dta) tb dtb)) as Hinv.
  { intros time time_o Ht Hto Hnone.
    destruct (join_inv _ _ _ _ _ _ _ Ht Hto Hnone Hjoin)
      as (b' & ma & mb & ta & tb & x_pi & y_pi & x_en & y_en & ga & gb0 & gb
          & dta & dtb & s & _ & _ & _ & ? & ? & ? & ? & ? & ? & ? & ? & ? & ?
          & ? & ? & ? & ? & _ & _ & (? & _) & (? & _) & (? & ? & _)).
    by exists b', ma, mb, ta, tb, x_pi, y_pi, x_en, y_en, ga, gb0, gb, dta, dtb. }
  split; [|split; [|split; [|split]]].
  - intros name ta y Hname Hta Hx Hy Hny.
    destruct (attr_is_Some _ _ _ _ Hy) as [ob Hb].
    destruct (attr_is_Some _ _ _ _ Hta) as [oa Ha].
    destruct (join_times _ _ _ _ _ (mk_is_Some _ _ Ha) (mk_is_Some _ _ Hb) Hjoin)
      as (time & time_o & Ht & Hto).
    assert (time = VArr ta) as -> by congruence.
    destruct (Hinv _ _ Ht Hto eq_refl)
      as (b' & ma & mb & ta0 & tb & x_pi & y_pi & x_en & y_en & ga & gb0 & gb
          & dta & dtb & _ & [= <-] & _ & Hxp & Hyp & Hxe & Hye & _ & _ & _ & _
          & _ & _ & _ & Hpi & Hen & _).
    destruct Hname as [-> | ->].
    + assert (x_pi = VNone ∧ y_pi = y) as [-> ->] by (split; congruence).
      unfold fill in Hpi. simpl in Hpi. by rewrite Hny in Hpi.
    + assert (x_en = VNone ∧ y_en = y) as [-> ->] by (split; congruence).
      unfold fill in Hen. simpl in Hen. by rewrite Hny in Hen.
  - intros first rest gb Hta Hga Hgb Hngb.
    destruct (attr_is_Some _ _ _ _ Hgb) as [ob Hb].
    destruct (attr_is_Some _ _ _ _ Hta) as [oa Ha].
    destruct (join_times _ _ _ _ _ (mk_is_Some _ _ Ha) (mk_is_Some _ _ Hb) Hjoin)
      as (time & time_o & Ht & Hto).
    assert (time = VArr (first :: rest)) as -> by congruence.
    destruct (Hinv _ _ Ht Hto eq_refl)
      as (b' & ma & mb & ta0 & tb & x_pi & y_pi & x_en & y_en & ga & gb0 & gb1
          & dta & dtb & _ & [= <-] & _ & _ & _ & _ & _ & Hga0 & Hgb0 & Hrec
          & Hdta & _ & _ & _ & _ & _ & Hga' & _).
    assert (ga = VNone) as -> by congruence.
    assert (gb0 = gb) as -> by congruence.
    pose proof (reconcile_not_none _ _ _ _ Hrec Hngb) as Hngb1.
    unfold default_gti in Hga', Hdta. simpl in Hga', Hdta.
    rewrite Hngb1 in Hga', Hdta. simpl in Hga', Hdta.
    exists dta. split; [by apply Hdta|done].
  - intros first rest ga Htb Hgb Hga Hnga.
    destruct (attr_is_Some _ _ _ _ Hga) as [oa Ha].
    destruct (attr_is_Some _ _ _ _ Htb) as [ob Hb].
    destruct (join_times _ _ _ _ _ (mk_is_Some _ _ Ha) (mk_is_Some _ _ Hb) Hjoin)
      as (time & time_o & Ht & Hto).
    assert (time_o = VArr (first :: rest)) as -> by congruence.
    destruct (Hinv _ _ Ht Hto (andb_false_r _))
      as (b' & ma & mb & ta & tb & x_pi & y_pi & x_en & y_en & ga0 & gb0 & gb1
          & dta & dtb & Hclose & _ & Htb0 & _ & _ & _ & _ & Hga0 & Hgb0 & Hrec
          & _ & Hdtb & _ & _ & _ & _ & _ & Hgb').
    assert (ga0 = ga) as -> by congruence.
    assert (gb0 = VNone) as -> by congruence.
    apply reconcile_VNone in Hrec as [Hc ->].
    rewrite (Hclose Hc) in Hgb'.
    unfold reconcile in Htb0. rewrite Hc in Htb0. injection Htb0 as <-.
    assert (default_gti ga VNone ta dta = ga) as Hsame.
    { unfold default_gti. simpl. by rewrite andb_false_r. }
    rewrite Hsame in Hgb', Hdtb.
    unfold default_gti in Hgb', Hdtb. simpl in Hgb', Hdtb.
    rewrite Hnga in Hgb', Hdtb. simpl in Hgb', Hdtb.
    exists dtb. split; [by apply Hdtb|done].
  - intros time_o Ht Hto Hnto.
    destruct (Hinv _ _ Ht Hto Hnto)
      as (b' & ma & mb & ta & tb & x_pi & y_pi & x_en & y_en & ga & gb0 & gb1
          & dta & dtb & _ & [= <-] & _ & _ & _ & _ & _ & _ & _ & _ & _ & _
          & Hta' & _).
    exact Hta'.
  - intros time Hto Ht Hnt.
    assert (is_none time && is_none VNone = false) as Hnone
      by (by rewrite Hnt).
    destruct (Hinv _ _ Ht Hto Hnone)
      as (b' & ma & mb & ta & tb & x_pi & y_pi & x_en & y_en & ga & gb0 & gb1
          & dta & dtb & _ & _ & _ & _ & _ & _ & _ & _ & _ & _ & _ & _
          & _ & Htb' & _).
    exact Htb'.
Qed.

Lemma join_mutates_inputs_witness :
  attr fill_store 0%nat "pi" = Some VNone
  ∧ attr (state_of (join 0%nat 1%nat fill_store)) 0%nat "pi"
    = Some (VArr [0; 0]%Q)
  ∧ attr fill_store 0%nat "gti" = Some VNone
  ∧ ∃ dt,
      attr fill_store 0%nat "dt" = Some (VNum dt)
      ∧ attr (state_of (join 0%nat 1%nat fill_store)) 0%nat "gti"
        = Some (VArr2 [(4 - dt / 2, 2 + dt / 2)%Q]).
Proof.
  destruct (join_mutates_inputs 0%nat 1%nat 2%nat fill_store
              (state_of (join 0%nat 1%nat fill_store)))
    as (Hpi & Hgti & _).
  - apply run_state_of. vm_compute. reflexivity.
  - split; [vm_compute; reflexivity|]. split.
    + apply (Hpi "pi" [4; 2]%Q (VArr [10; 50; 30]%Q)).
      * by left.
      * vm_compute. reflexivity.
      * vm_compute. reflexivity.
      * vm_compute. reflexivity.
      * reflexivity.
    + split; [vm_compute; reflexivity|].
      apply (Hgti 4%Q [2%Q] (VArr2 [(0, 6)%Q])).
      * vm_compute. reflexivity.
      * vm_compute. reflexivity.
      * vm_compute. reflexivity.
      * reflexivity.
Defined.

(** ** The tolerance on [mjdref] *)

(** [np.isclose] with its default [rtol] accepts any two epochs whose
    difference is within [1e-05] of the second, whatever [atol] is. *)
Lemma np_isclose_relative a b atol :
  (0 <= atol)%Q → (Qabs (a - b) <= rtol * Qabs b)%Q →
  np_isclose a b atol = true.
Proof.
  intros Hatol Hrel. unfold np_isclose. apply Qle_bool_iff.
  eapply Qle_trans; [exact Hrel|].
  rewrite <- (Qplus_0_l (rtol * Qabs b)) at 1.
  by apply Qplus_le_l.
Qed.

(** C5, the code at the failing input: the epochs 55000 and 55000.1 are
    0.1 day, 8640 s, apart, and [join] takes them as close: the times of the
    second list are joined as they are, [[1, 2]], although on the epoch of
    the first its event is at 8642 s ([change_mjdref] gives that up to the
    rounding of floats). *)
Theorem join_mjdref_tolerance :
  (Qabs (55000 - (550001 # 10)) * 86400 == 8640)%Q
  ∧ np_isclose 55000 (round64 (550001 # 10)) mjdref_atol = true
  ∧ returns (let* r := join 0%nat 1%nat in getattr r "time") mjd_store
    = Some (VArr [1; 2]%Q)
  ∧ ∃ t, returns (let* r := change_mjdref 1%nat 55000 in getattr r "time")
           mjd_store = Some (VArr [t])
         ∧ (Qabs (t - 8642) <= 1 # 1000000)%Q.
Proof.
  split; [by vm_compute|]. split; [by vm_compute|].
  split; [by vm_compute|]. eexists. split; [by vm_compute|by vm_compute].
Qed.

(** * Further properties *)

(** ** Running a computation forward *)

Lemma bind_raise {A B} (m : M A) (k : A → M B) σ e :
  m σ = Raise e → bind m k σ = Raise e.
Proof. unfold bind. by intros ->. Qed.

Lemma setattr_progress r n v σ :
  is_Some (attr σ r "time") → ∃ σ', setattr r n v σ = Ok (tt, σ').
Proof.
  intros [t Ht]. destruct (attr_is_Some _ _ _ _ Ht) as [o Ho].
  eexists. apply setattr_eq. exact Ho.
Qed.

Lemma getarr_eq r n σ a : attr σ r n = Some (VArr a) → getarr r n σ = Ok (a, σ).
Proof. intros H. unfold getarr. by rewrite (bind_getattr _ _ _ _ _ H). Qed.

Lemma getnum_eq r n σ x : attr σ r n = Some (VNum x) → getnum r n σ = Ok (x, σ).
Proof. intros H. unfold getnum. by rewrite (bind_getattr _ _ _ _ _ H). Qed.

Lemma np_take_total {A} (l : list A) order :
  Forall (λ i, i < length l)%nat order → ∃ r, np_take l order = Ok r.
Proof.
  intros Hall. unfold np_take.
  assert (is_Some (mapM (λ i, l !! i) order)) as [r ->]; [|eauto].
  apply mapM_is_Some. eapply Forall_impl; [exact Hall|]. simpl.
  intros i. apply lookup_lt_is_Some_2.
Qed.

(** Forward steps: a read whose value is known from an earlier store, a
    write to a known instance. *)
Ltac known_attr := first [eassumption | chase; eassumption].

Ltac fwd_get := rewrite ?bind_assoc; erewrite bind_getattr by known_attr.

Ltac fwd_getarr := rewrite ?bind_assoc; erewrite (bind_eq (getarr _ _)) by (apply getarr_eq; known_attr).

Ltac fwd_getnum := rewrite ?bind_assoc; erewrite (bind_eq (getnum _ _)) by (apply getnum_eq; known_attr).

Ltac known_object := chase; unfold is_Some; eauto.

Ltac fwd_set :=
  rewrite ?bind_assoc;
  lazymatch goal with
  | |- context [bind (setattr ?r ?n ?v) ?k ?σ] =>
      let σ' := fresh "σ" in
      let Hs := fresh "Hset" in
      let Ho := fresh "Ho" in
      destruct (setattr_progress r n v σ) as [σ' Hs]; [known_object|];
      rewrite (bind_eq _ _ _ _ _ Hs);
      apply setattr_Ok in Hs as [Hs Ho]
  end.

Ltac last_set :=
  lazymatch goal with
  | |- ∃ _ _, setattr ?r ?n ?v ?σ = _ =>
      let σ' := fresh "σ" in
      let Hs := fresh "Hset" in
      destruct (setattr_progress r n v σ) as [σ' Hs]; [known_object|];
      by exists tt, σ'
  end.

Lemma join_zero_default_progress name self other ev order σ ta tb x y :
  ev ≠ self → ev ≠ other → name ≠ "time" →
  attr σ self "time" = Some (VArr ta) → attr σ other "time" = Some (VArr tb) →
  is_Some (attr σ ev "time") →
  attr σ self name = Some x → attr σ other name = Some y →
  column_ok x (length ta) → column_ok y (length tb) →
  Forall (λ i, i < length ta + length tb)%nat order →
  ∃ u σ', join_zero_default name self other ev order σ = Ok (u, σ').
Proof.
  intros Hes Heo Hname Hta Htb Hev Hx Hy Hcx Hcy Horder.
  unfold join_zero_default. fwd_get. fwd_get.
  assert (∀ p q : list Q, length p = length ta → length q = length tb →
    ∃ r, np_take (p ++ q) order = Ok r) as Htake.
  { intros p q Hp Hq. apply np_take_total.
    eapply Forall_impl; [exact Horder|]. simpl. intros i.
    rewrite length_app. lia. }
  destruct Hcx as [->|(p & -> & Hp)], Hcy as [->|(q & -> & Hq)]; cbn [is_none andb orb negb].
  - fwd_set. fwd_get. fwd_get. cbn [is_none andb negb]. by eexists tt, _.
  - assert (self ≠ other) as Hso by (intros ->; congruence).
    rewrite !bind_assoc. fwd_getarr. fwd_set.
    fwd_get. fwd_getarr.
    fwd_set. cbn [assign_value_if_none is_none] in *.
    fwd_get. fwd_get. cbn [is_none andb negb as_arr]. rewrite !bind_lift.
    fwd_set.
    destruct (Htake (np_zeros_like ta) q) as [r Hr];
      [by unfold np_zeros_like; rewrite length_replicate|done|].
    rewrite Hr, bind_lift. last_set.
  - assert (self ≠ other) as Hso by (intros ->; congruence).
    rewrite !bind_assoc. fwd_getarr. fwd_set.
    fwd_get. fwd_getarr.
    fwd_set. cbn [assign_value_if_none is_none] in *.
    fwd_get. fwd_get. cbn [is_none andb negb as_arr]. rewrite !bind_lift.
    fwd_set.
    destruct (Htake p (np_zeros_like tb)) as [r Hr];
      [done|by unfold np_zeros_like; rewrite length_replicate|].
    rewrite Hr, bind_lift. last_set.
  - rewrite bind_ret. fwd_get. fwd_get. cbn [is_none andb negb as_arr].
    rewrite !bind_lift. fwd_set.
    destruct (Htake p q) as [r Hr]; [done|done|].
    rewrite Hr, bind_lift. last_set.
Qed.

Lemma join_gti_default_progress self other σ ta dt g go :
  attr σ self "time" = Some (VArr ta) → attr σ self "dt" = Some (VNum dt) →
  attr σ self "gti" = Some g → attr σ other "gti" = Some go →
  ∃ u σ', join_gti_default self other σ = Ok (u, σ').
Proof.
  intros Hta Hdt Hg Hgo. unfold join_gti_default. fwd_get. fwd_get.
  destruct (is_none g && negb (is_none go)); [|by eexists tt, _].
  fwd_getarr. destruct (bool_decide _); [|by eexists tt, _].
  fwd_getnum. last_set.
Qed.

Lemma join_gti_progress self other ev σ g go :
  is_Some (attr σ ev "time") →
  attr σ self "gti" = Some g → attr σ other "gti" = Some go →
  gti_ok g → gti_ok go →
  ∃ u σ', join_gti self other ev σ = Ok (u, σ').
Proof.
  intros Hev Hg Hgo Hkg Hkgo. unfold join_gti. fwd_get. fwd_get.
  destruct Hkg as [->|[g0 ->]], Hkgo as [->|[g1 ->]];
    cbn [is_none andb negb as_gti].
  - last_set.
  - by eexists tt, _.
  - by eexists tt, _.
  - rewrite !bind_lift. destruct (check_separate g0 g1).
    + fwd_set. by eexists tt, _.
    + last_set.
Qed.

Lemma default_gti_ok g go t dt : gti_ok g → gti_ok (default_gti g go t dt).
Proof.
  intros Hg. unfold default_gti.
  destruct (is_none g && negb (is_none go) && bool_decide (0 < length t)%nat);
    [right; eauto|done].
Qed.

(** One round of the loop over the labels. *)
Lemma join_label_progress self other ev name σ x y :
  is_Some (attr σ ev "time") →
  labels σ self other name x y → is_none x = is_none y →
  ∃ σ',
    (let* x := getattr self name in
     let* y := getattr other name in
     let* differ := lift (py_ne x y) in
     if differ then let* l := lift (join_label x y) in setattr ev name l
     else setattr ev name x) σ = Ok (tt, σ')
    ∧ attr σ' ev name = Some (merged_label x y)
    ∧ only (λ r n, r = ev ∧ n = name) σ σ'.
Proof.
  intros Hev (Hx & Hy & Hkx & Hky) Hnone. fwd_get. fwd_get.
  assert (∀ v, ∃ σ', setattr ev name v σ = Ok (tt, σ')
            ∧ attr σ' ev name = Some v
            ∧ only (λ r n, r = ev ∧ n = name) σ σ') as Hset.
  { intros v. destruct (setattr_progress ev name v σ) as [σ' Hs]; [done|].
    exists σ'. split; [done|]. by apply setattr_Ok in Hs. }
  destruct Hkx as [->|[s ->]], Hky as [->|[t ->]]; try done;
    cbn [py_ne join_label merged_label]; rewrite bind_lift.
  - apply Hset.
  - destruct (s =? t)%string; cbn [negb]; [|rewrite bind_lift]; apply Hset.
Qed.

Lemma join_label_raises self other ev name σ x y (k : unit → M ref) :
  labels σ self other name x y → is_none x ≠ is_none y →
  bind (let* x := getattr self name in
        let* y := getattr other name in
        let* differ := lift (py_ne x y) in
        if differ then let* l := lift (join_label x y) in setattr ev name l
        else setattr ev name x) k σ = Raise TypeError.
Proof.
  intros (Hx & Hy & Hkx & Hky) Hnone. fwd_get. fwd_get.
  by destruct Hkx as [->|[s ->]], Hky as [->|[t ->]].
Qed.

Lemma np_argsort_bound a : Forall (λ i, i < length a)%nat (np_argsort a).
Proof.
  rewrite np_argsort_perm. apply Forall_forall. intros i Hi.
  apply elem_of_seq in Hi. lia.
Qed.

Ltac with_state tac :=
  lazymatch goal with |- context [bind ?m ?k ?σ] => tac σ end.

(** [join_merge] up to the labels: two event lists always get that far. *)
Lemma join_merge_to_labels a b ev σ ta tb :
  a ≠ b → ev ≠ a → ev ≠ b → is_Some (attr σ ev "time") →
  event_list σ a ta → event_list σ b tb →
  ∃ σ7,
    join_merge a b ev σ
    = (join_labels a b ev ;;
       let* mjdref := getattr a "mjdref" in
       setattr ev "mjdref" mjdref ;; ret ev) σ7
    ∧ is_Some (attr σ7 ev "time")
    ∧ only (λ r n,
              (r = ev ∧ (n = "time" ∨ n = "pi" ∨ n = "energy" ∨ n = "gti"))
              ∨ ((r = a ∨ r = b) ∧ (n = "pi" ∨ n = "energy" ∨ n = "gti")))
        σ σ7.
Proof.
  intros Hab Hea Heb Hev
    [Hta [dta Hdta] [ma Hma] (xp & Hxp & Hkxp) (xe & Hxe & Hkxe) (ga & Hga & Hkga)]
    [Htb [dtb Hdtb] [mb Hmb] (yp & Hyp & Hkyp) (ye & Hye & Hkye) (gb & Hgb & Hkgb)].
  unfold join_merge. fwd_getarr. fwd_getarr. fwd_set.
  rewrite np_take_argsort, bind_lift. fwd_set.
  set (order := np_argsort (ta ++ tb)).
  assert (Forall (λ i, i < length ta + length tb)%nat order) as Horder.
  { rewrite <- length_app. apply np_argsort_bound. }
  (* pi *)
  with_state ltac:(fun σc =>
    destruct (join_zero_default_progress "pi" a b ev order σc ta tb xp yp)
      as ([] & σ3 & Hpi);
      [done|done|done|known_attr|known_attr|known_object|known_attr|known_attr
      |done|done|done|]).
  rewrite (bind_eq _ _ _ _ _ Hpi).
  apply (join_zero_default_inv _ _ _ _ _ _ _ ta tb) in Hpi
    as (? & ? & _ & _ & Ho3 & _); [|done|done|known_attr|known_attr|done].
  (* energy *)
  with_state ltac:(fun σc =>
    destruct (join_zero_default_progress "energy" a b ev order σc ta tb xe ye)
      as ([] & σ4 & Hen);
      [done|done|done|known_attr|known_attr|known_object|known_attr|known_attr
      |done|done|done|]).
  rewrite (bind_eq _ _ _ _ _ Hen).
  apply (join_zero_default_inv _ _ _ _ _ _ _ ta tb) in Hen
    as (? & ? & _ & _ & Ho4 & _); [|done|done|known_attr|known_attr|done].
  (* the GTI of a side that has none *)
  with_state ltac:(fun σc =>
    destruct (join_gti_default_progress a b σc ta dta ga gb)
      as ([] & σ5 & Hda); [known_attr|known_attr|known_attr|known_attr|]).
  rewrite (bind_eq _ _ _ _ _ Hda).
  apply (join_gti_default_inv _ _ _ _ ta) in Hda
    as (ga1 & gb1 & dta1 & Hga1 & Hgb1 & _ & Ho5 & Hga'); [|known_attr].
  chase_in Hga1. chase_in Hgb1.
  assert (ga1 = ga) as -> by congruence.
  assert (gb1 = gb) as -> by congruence.
  with_state ltac:(fun σc =>
    destruct (join_gti_default_progress b a σc tb dtb gb (default_gti ga gb ta dta1))
      as ([] & σ6 & Hdb); [known_attr|known_attr|known_attr|known_attr|]).
  rewrite (bind_eq _ _ _ _ _ Hdb).
  apply (join_gti_default_inv _ _ _ _ tb) in Hdb
    as (gb2 & ga2 & dtb2 & Hgb2 & Hga2 & _ & Ho6 & Hgb'); [|known_attr].
  chase_in Hgb2. assert (gb2 = gb) as -> by congruence.
  assert (ga2 = default_gti ga gb ta dta1) as -> by congruence.
  (* the GTI of the result *)
  with_state ltac:(fun σc =>
    destruct (join_gti_progress a b ev σc (default_gti ga gb ta dta1)
                (default_gti gb (default_gti ga gb ta dta1) tb dtb2))
      as ([] & σ7 & Hgti);
      [known_object|known_attr|known_attr
      |by apply default_gti_ok|by apply default_gti_ok|]).
  rewrite (bind_eq _ _ _ _ _ Hgti).
  apply join_gti_inv in Hgti as (? & ? & _ & _ & Ho7 & _).
  exists σ7. split; [done|]. split; [known_object|]. solve_only.
Qed.

Lemma event_list_frame σ σ' r r' t :
  (∀ n, attr σ' r' n = attr σ r n) → event_list σ r t → event_list σ' r' t.
Proof.
  intros H [? ? ? ? ? ?]. split; rewrite H; done.
Qed.

Lemma change_mjdref_eq σ s o m time gti time' gti' m' :
  heap σ !! s = Some o →
  lookup_attr o "mjdref" = Some (VNum m) →
  lookup_attr o "time" = Some time → lookup_attr o "gti" = Some gti →
  value_add time (fmul (fsub m m') 86400) = Ok time' →
  value_add gti (fmul (fsub m m') 86400) = Ok gti' →
  change_mjdref s m' σ
  = Ok (fresh (dom (heap σ)),
        State (<[fresh (dom (heap σ)) :=
                   <["mjdref" := VNum m']> (<["gti" := gti']> (<["time" := time']> o))]>
                 (heap σ)) (warnings σ)).
Proof.
  intros Hs Hm Ht Hg Ht' Hg'. unfold change_mjdref.
  rewrite bind_assoc. erewrite bind_getattr by (by erewrite attr_lookup).
  cbn [as_num]. rewrite bind_lift.
  erewrite bind_eq by (by eapply shift_eq).
  erewrite bind_setattr by (simpl; apply lookup_insert_eq).
  simpl. by rewrite insert_insert_eq.
Qed.

Lemma change_mjdref_no_gti σ s m t m' :
  attr σ s "mjdref" = Some (VNum m) →
  attr σ s "time" = Some (VArr t) → attr σ s "gti" = Some VNone →
  change_mjdref s m' σ = Raise TypeError.
Proof.
  intros Hm Ht Hg. destruct (attr_is_Some _ _ _ _ Ht) as [o Ho].
  assert (heap σ !! fresh (dom (heap σ)) = None) as Hfresh by apply fresh_heap.
  unfold change_mjdref. rewrite bind_assoc. fwd_get.
  cbn [as_num]. rewrite bind_lift.
  apply bind_raise. unfold shift, deepcopy.
  rewrite (attr_lookup _ _ _ "time" Ho) in Ht.
  rewrite (attr_lookup _ _ _ "gti" Ho) in Hg.
  rewrite bind_assoc. erewrite bind_deref by done. rewrite bind_alloc.
  by repeat run_step.
Qed.

Ltac fwd_simon :=
  rewrite ?bind_assoc;
  lazymatch goal with
  | |- context [bind (simon ?msg) ?k ?σ] =>
      let σ' := fresh "σ" in
      let Hs := fresh "Hsimon" in
      let Hw := fresh "Hw" in
      let Ho := fresh "Ho" in
      destruct (simon msg σ) as [[[] σ']|] eqn:Hs; [|by unfold simon in Hs];
      rewrite (bind_eq _ _ _ _ _ Hs);
      apply simon_Ok in Hs as [Hw Ho]
  end.

(** The beginning of [join] for two lists with times: a new list, whose
    [dt] is the larger one when the two differ. *)
Lemma join_head a b σ ta tb dta dtb ma mb :
  attr σ a "time" = Some (VArr ta) → attr σ b "time" = Some (VArr tb) →
  attr σ a "dt" = Some (VNum dta) → attr σ b "dt" = Some (VNum dtb) →
  attr σ a "mjdref" = Some (VNum ma) → attr σ b "mjdref" = Some (VNum mb) →
  ∃ ev σ2,
    join a b σ
    = (let* other :=
         (if negb (np_isclose ma mb mjdref_atol)
          then change_mjdref b ma else ret b) in
       join_merge a other ev) σ2
    ∧ heap σ !! ev = None
    ∧ ev ≠ a ∧ ev ≠ b
    ∧ only (λ r _, r = ev) σ σ2
    ∧ (∀ n, n ≠ "dt" → attr σ2 ev n = lookup_attr empty_event n)
    ∧ attr σ2 ev "dt"
      = Some (VNum (if Qeq_bool dta dtb then 0 else Qmax dta dtb))
    ∧ (Qeq_bool dta dtb = false →
       "The time resolution is different. Using the rougher by default"
         ∈ warnings σ2).
Proof.
  intros Hta Htb Hdta Hdtb Hma Hmb. unfold join.
  destruct (EventList [] σ) as [[ev σ1]|] eqn:Hnew;
    [|by rewrite EventList_nil in Hnew].
  rewrite (bind_eq _ _ _ _ _ Hnew).
  apply EventList_nil_Ok in Hnew as (Hfresh & Ho1 & Hinit).
  assert (ev ≠ a) as Hea.
  { intros ->. apply attr_is_Some in Hta as [? ?]. congruence. }
  assert (ev ≠ b) as Heb.
  { intros ->. apply attr_is_Some in Htb as [? ?]. congruence. }
  fwd_get. fwd_get. cbn [py_ne]. rewrite bind_lift.
  assert (∃ σ2,
    (if negb (Qeq_bool dta dtb)
     then
       simon "The time resolution is different. Using the rougher by default" ;;
       let* a := lift (as_num (VNum dta)) in
       let* b := lift (as_num (VNum dtb)) in
       setattr ev "dt" (VNum (Qmax a b))
     else ret tt) σ1 = Ok (tt, σ2)
    ∧ only (λ r n, r = ev ∧ n = "dt") σ1 σ2
    ∧ attr σ2 ev "dt"
      = Some (VNum (if Qeq_bool dta dtb then 0 else Qmax dta dtb))
    ∧ (Qeq_bool dta dtb = false →
       "The time resolution is different. Using the rougher by default"
         ∈ warnings σ2)) as (σ2 & Hdt & Ho2 & Hevdt & Hwarn).
  { destruct (Qeq_bool dta dtb); cbn [negb].
    - exists σ1. split; [done|]. split; [apply only_refl|].
      split; [by rewrite Hinit|done].
    - destruct (simon "The time resolution is different. Using the rougher by default" σ1)
        as [[[] σs]|] eqn:Hs; [|by unfold simon in Hs].
      rewrite (bind_eq _ _ _ _ _ Hs).
      apply simon_Ok in Hs as [Hw Hos].
      cbn [as_num]. rewrite !bind_lift.
      destruct (setattr_progress ev "dt" (VNum (Qmax dta dtb)) σs) as [σ2 Hset].
      { chase. rewrite Hinit. by eexists. }
      exists σ2. split; [done|].
      apply setattr_Ok in Hset as [Hset Ho].
      split; [solve_only|]. split; [done|]. intros _.
      eapply only_warning; [exact Ho|done]. }
  rewrite (bind_eq _ _ _ _ _ Hdt).
  fwd_get. fwd_get. cbn [is_none andb]. rewrite bind_ret.
  fwd_getnum. fwd_getnum.
  exists ev, σ2. split; [done|]. split; [done|]. split; [done|]. split; [done|].
  split; [solve_only|]. split; [|done].
  intros n Hn. chase. apply Hinit.
Qed.

(** The step of [join] that brings the second list to the epoch of the
    first. *)
Lemma join_epoch_step a b ev σ tb ma mb :
  ev ≠ b → a ≠ b →
  is_Some (attr σ a "time") → is_Some (attr σ ev "time") →
  event_list σ b tb → attr σ b "mjdref" = Some (VNum mb) →
  (np_isclose ma mb mjdref_atol = true ∨ ∃ g, attr σ b "gti" = Some (VArr2 g)) →
  ∃ b' tb' σ',
    (if negb (np_isclose ma mb mjdref_atol)
     then change_mjdref b ma else ret b) σ = Ok (b', σ')
    ∧ a ≠ b' ∧ ev ≠ b'
    ∧ only (λ r _, r ≠ a ∧ r ≠ ev ∧ r ≠ b) σ σ'
    ∧ event_list σ' b' tb'
    ∧ (∀ n, n ≠ "time" → n ≠ "gti" → n ≠ "mjdref" →
         attr σ' b' n = attr σ b n).
Proof.
  intros Heb Hab [? Ha] [? Hev] Hb Hmb Hepoch.
  destruct (np_isclose ma mb mjdref_atol) eqn:Hclose; cbn [negb].
  - exists b, tb, σ. split; [done|]. split; [done|]. split; [done|].
    split; [apply only_refl|]. by split.
  - destruct Hepoch as [|[g Hg]]; [done|].
    pose proof Hb as [Htb [dtb Hdtb] _ (yp & Hyp & Hkyp) (ye & Hye & Hkye) _].
    destruct (attr_is_Some _ _ _ _ Htb) as [o Ho].
    epose proof (change_mjdref_eq σ b o mb (VArr tb) (VArr2 g) _ _ ma Ho) as Hrun.
    rewrite <- !(attr_lookup σ b o) in Hrun by done.
    specialize (Hrun Hmb Htb Hg eq_refl eq_refl).
    pose proof Hrun as Hinv.
    apply change_mjdref_Ok in Hinv
      as (m & time & gti & time' & gti' & Hfresh & Ho1 & Hm & Ht & Hgti & Ht' & Hg'
          & Hnt & Hng & Hnm & Hsame).
    set (b' := fresh (dom (heap σ))) in *.
    assert (time' = VArr (map (λ t, fadd t (epoch_shift ma m)) tb)) as ->
      by (rewrite Htb in Ht; injection Ht as <-; simpl in Ht'; congruence).
    assert (gti' = VArr2 (map (λ se, (fadd se.1 (epoch_shift ma m),
                                      fadd se.2 (epoch_shift ma m))) g)) as ->
      by (rewrite Hg in Hgti; injection Hgti as <-; simpl in Hg'; congruence).
    eexists b', _, _. split; [exact Hrun|].
    assert (a ≠ b') as Hab' by (intros <-; apply attr_is_Some in Ha as [? ?]; congruence).
    assert (ev ≠ b') as Hev' by (intros <-; apply attr_is_Some in Hev as [? ?]; congruence).
    assert (b ≠ b') as Hbb' by (intros <-; congruence).
    split; [done|]. split; [done|]. split.
    { eapply only_mono; [|exact Ho1]. simpl. intros r _ ->. done. }
    split; [|done]. split.
    + exact Hnt.
    + exists dtb. by rewrite Hsame.
    + by exists ma.
    + exists yp. rewrite Hsame by done. split; [done|].
      by rewrite length_map.
    + exists ye. rewrite Hsame by done. split; [done|].
      by rewrite length_map.
    + eexists. split; [exact Hng|]. right. eauto.
Qed.

(** [join] up to the labels, for two distinct event lists whose epochs are
    close or whose second list has GTIs to shift. *)
Lemma join_to_labels a b σ ta tb dta dtb ma :
  a ≠ b → event_list σ a ta → event_list σ b tb →
  attr σ a "dt" = Some (VNum dta) → attr σ b "dt" = Some (VNum dtb) →
  attr σ a "mjdref" = Some (VNum ma) →
  (same_epoch σ a b ∨ ∃ g, attr σ b "gti" = Some (VArr2 g)) →
  ∃ ev b' σ7,
    join a b σ
    = (join_labels a b' ev ;;
       let* mjdref := getattr a "mjdref" in
       setattr ev "mjdref" mjdref ;; ret ev) σ7
    ∧ heap σ !! ev = None
    ∧ is_Some (attr σ7 ev "time")
    ∧ (∀ n, n ≠ "pi" → n ≠ "energy" → n ≠ "gti" → attr σ7 a n = attr σ a n)
    ∧ (∀ n, n ≠ "time" → n ≠ "pi" → n ≠ "energy" → n ≠ "gti" → n ≠ "mjdref" →
         attr σ7 b' n = attr σ b n)
    ∧ (∀ n, n ≠ "time" → n ≠ "pi" → n ≠ "energy" → n ≠ "gti" → n ≠ "dt" →
         attr σ7 ev n = lookup_attr empty_event n)
    ∧ attr σ7 ev "dt"
      = Some (VNum (if Qeq_bool dta dtb then 0 else Qmax dta dtb)).
Proof.
  intros Hab HA HB Hdta Hdtb Hma Hepoch.
  pose proof HA as [Hta _ _ _ _ _].
  pose proof HB as [Htb _ [mb Hmb] _ _ _].
  destruct (join_head a b σ ta tb dta dtb ma mb)
    as (ev & σ2 & -> & Hfresh & Hea & Heb & Ho2 & Hinit & Hevdt & _);
    [done..|].
  exists ev.
  (* the epoch *)
  destruct (join_epoch_step a b ev σ2 tb ma mb)
    as (b' & tb' & σ3 & Hstep & Hab' & Heb' & Ho3 & HB' & Hsame);
    [done|done|known_object|rewrite Hinit by done; by eexists
    |eapply event_list_frame; [|exact HB]; intros n; by chase
    |known_attr| |].
  { destruct Hepoch as [(ma' & mb' & ? & ? & ?)|[g Hg]].
    - left. congruence.
    - right. exists g. known_attr. }
  rewrite (bind_eq _ _ _ _ _ Hstep).
  (* the merge up to the labels *)
  destruct (join_merge_to_labels a b' ev σ3 ta tb')
    as (σ7 & -> & Hev7 & Ho7); [done|done|done| | |done|].
  { chase. rewrite Hinit by done. by eexists. }
  { eapply event_list_frame; [|exact HA]. intros n. by chase. }
  exists b', σ7. split; [done|]. split; [done|]. split; [done|].
  split; [|split; [|split]].
  - intros n ???. by chase.
  - intros n ?????. chase. rewrite Hsame by done. by chase.
  - intros n ?????. chase. by apply Hinit.
  - by chase.
Qed.

(** [join] of two distinct event lists whose labels go together and whose
    epochs are close, or whose second list has GTIs to shift. *)
Lemma join_run a b σ ta tb dta dtb ma xm ym xi yi :
  a ≠ b → event_list σ a ta → event_list σ b tb →
  attr σ a "dt" = Some (VNum dta) → attr σ b "dt" = Some (VNum dtb) →
  attr σ a "mjdref" = Some (VNum ma) →
  labels σ a b "mission" xm ym → is_none xm = is_none ym →
  labels σ a b "instr" xi yi → is_none xi = is_none yi →
  (same_epoch σ a b ∨ ∃ g, attr σ b "gti" = Some (VArr2 g)) →
  ∃ ev σ',
    join a b σ = Ok (ev, σ')
    ∧ heap σ !! ev = None
    ∧ attr σ' ev "mjdref" = Some (VNum ma)
    ∧ attr σ' ev "mission" = Some (merged_label xm ym)
    ∧ attr σ' ev "instr" = Some (merged_label xi yi)
    ∧ attr σ' ev "dt"
      = Some (VNum (if Qeq_bool dta dtb then 0 else Qmax dta dtb))
    ∧ (∀ n, n ∉ join_sets → attr σ' ev n = lookup_attr empty_event n).
Proof.
  intros Hab HA HB Hdta Hdtb Hma (Hxm & Hym & Hkxm & Hkym) Hnm
    (Hxi & Hyi & Hkxi & Hkyi) Hni Hepoch.
  destruct (join_to_labels a b σ ta tb dta dtb ma)
    as (ev & b' & σ7 & -> & Hfresh & Hev7 & Ha7 & Hb7 & Hinit & Hevdt);
    [done..|].
  exists ev.
  unfold join_labels. cbn [for_each]. rewrite bind_assoc.
  destruct (join_label_progress a b' ev "mission" σ7 xm ym)
    as (σ8 & Hmission & Hevm & Ho8); [done| |done|].
  { split; [by rewrite Ha7|]. split; [by rewrite Hb7|done]. }
  rewrite (bind_eq _ _ _ _ _ Hmission). rewrite bind_assoc.
  destruct (join_label_progress a b' ev "instr" σ8 xi yi)
    as (σ9 & Hinstr & Hevi & Ho9); [known_object| |done|].
  { split; [chase; by rewrite Ha7|]. split; [chase; by rewrite Hb7|done]. }
  rewrite (bind_eq _ _ _ _ _ Hinstr). rewrite bind_ret.
  assert (attr σ9 a "mjdref" = Some (VNum ma)) as Hma9
    by (chase; by rewrite Ha7).
  fwd_get. fwd_set. eexists. split; [reflexivity|].
  split; [done|]. split; [done|]. split; [by chase|]. split; [by chase|].
  split; [by chase|].
  intros n Hn. unfold join_sets in Hn.
  rewrite !not_elem_of_cons in Hn. destruct Hn as (?&?&?&?&?&?&?&?&_).
  chase. by apply Hinit.
Qed.

(** ** What [join] writes *)

Lemma join_merge_frame a b ev σ r σ' :
  ev ≠ a → ev ≠ b →
  join_merge a b ev σ = Ok (r, σ') →
  r = ev
  ∧ only (λ r n,
            (r = ev ∧ (n = "time" ∨ n = "pi" ∨ n = "energy" ∨ n = "gti"
                       ∨ n = "mission" ∨ n = "instr" ∨ n = "mjdref"))
            ∨ ((r = a ∨ r = b) ∧ (n = "pi" ∨ n = "energy" ∨ n = "gti")))
      σ σ'.
Proof.
  intros Hea Heb. unfold join_merge.
  intros (ta & ? & [Hta ->]%getarr_Ok & H)%bind_Ok.
  apply bind_Ok in H as (tb & ? & [Htb ->]%getarr_Ok & H).
  apply bind_Ok in H as ([] & σ1 & [_ Ho1]%setattr_Ok & H).
  apply bind_Ok in H as (s & ? & [Hs ->]%lift_Ok & H).
  apply bind_Ok in H as ([] & σ2 & [Htime Ho2]%setattr_Ok & H).
  apply bind_Ok in H as ([] & σ3 & Hpi & H).
  apply bind_Ok in H as ([] & σ4 & Hen & H).
  apply bind_Ok in H as ([] & σ5 & Hda & H).
  apply bind_Ok in H as ([] & σ6 & Hdb & H).
  apply bind_Ok in H as ([] & σ7 & Hgti & H).
  apply bind_Ok in H as ([] & σ8 & Ho8%join_labels_inv & H).
  apply bind_Ok in H as (mj & ? & [_ ->]%getattr_Ok & H).
  apply bind_Ok in H as ([] & σ9 & [_ Ho9]%setattr_Ok & [-> ->]%ret_Ok).
  split; [done|].
  apply (join_zero_default_inv _ _ _ _ _ _ _ ta tb) in Hpi
    as (? & ? & _ & _ & Ho3 & _); [|done|done|by chase|by chase|done].
  apply (join_zero_default_inv _ _ _ _ _ _ _ ta tb) in Hen
    as (? & ? & _ & _ & Ho4 & _); [|done|done|by chase|by chase|done].
  apply (join_gti_default_inv _ _ _ _ ta) in Hda
    as (? & ? & ? & _ & _ & _ & Ho5 & _); [|by chase].
  apply (join_gti_default_inv _ _ _ _ tb) in Hdb
    as (? & ? & ? & _ & _ & _ & Ho6 & _); [|by chase].
  apply join_gti_inv in Hgti as (? & ? & _ & _ & Ho7 & _).
  solve_only.
Qed.

(** Whenever [join] returns: the result is a new instance, its [dt] is the
    larger one when the two differ and the default otherwise, and what
    [join] does not set is as [EventList()] makes it. *)
Lemma join_leaves a b ev σ σ' dta dtb :
  attr σ a "dt" = Some (VNum dta) → attr σ b "dt" = Some (VNum dtb) →
  join a b σ = Ok (ev, σ') →
  heap σ !! ev = None
  ∧ attr σ' ev "dt"
    = Some (VNum (if Qeq_bool dta dtb then 0 else Qmax dta dtb))
  ∧ (∀ n, n ∉ join_sets → attr σ' ev n = lookup_attr empty_event n).
Proof.
  intros Hdta Hdtb. unfold join.
  intros (ev0 & σ1 & (Hfresh & Ho1 & Hinit)%EventList_nil_Ok & H)%bind_Ok.
  assert (ev0 ≠ a) as Hea.
  { intros ->. apply attr_is_Some in Hdta as [? ?]. congruence. }
  assert (ev0 ≠ b) as Heb.
  { intros ->. apply attr_is_Some in Hdtb as [? ?]. congruence. }
  apply bind_Ok in H as (dt & ? & [Hdt1 ->]%getattr_Ok & H).
  apply bind_Ok in H as (dt_o & ? & [Hdt2 ->]%getattr_Ok & H).
  chase_in Hdt1. chase_in Hdt2.
  assert (dt = VNum dta) as -> by congruence.
  assert (dt_o = VNum dtb) as -> by congruence.
  apply bind_Ok in H as (differ & ? & [Hd ->]%lift_Ok & H).
  cbn [py_ne] in Hd. injection Hd as <-.
  apply bind_Ok in H as ([] & σ2 & Hdt & H).
  assert (only (λ r n, r = ev0 ∧ n = "dt") σ1 σ2
          ∧ attr σ2 ev0 "dt"
            = Some (VNum (if Qeq_bool dta dtb then 0 else Qmax dta dtb)))
    as [Ho2 Hevdt].
  { destruct (Qeq_bool dta dtb); cbn [negb] in Hdt.
    - apply ret_Ok in Hdt as [_ ->]. split; [apply only_refl|].
      by rewrite Hinit.
    - apply bind_Ok in Hdt as ([] & ? & [_ ?]%simon_Ok & Hdt).
      apply bind_Ok in Hdt as (da & ? & [[= <-] ->]%lift_Ok & Hdt).
      apply bind_Ok in Hdt as (db & ? & [[= <-] ->]%lift_Ok & [? ?]%setattr_Ok).
      split; [solve_only|done]. }
  clear Hdt.
  assert (∀ n, n ∉ join_sets →
            attr σ2 ev0 n = lookup_attr empty_event n) as Hrest2.
  { intros n Hn. unfold join_sets in Hn. rewrite !not_elem_of_cons in Hn.
    destruct Hn as (?&?&?&?&?&?&?&?&_). chase. apply Hinit. }
  apply bind_Ok in H as (time & ? & [Htime ->]%getattr_Ok & H).
  apply bind_Ok in H as (time_o & ? & [Htime_o ->]%getattr_Ok & H).
  destruct (is_none time && is_none time_o) eqn:Hnone.
  { apply ret_Ok in H as [-> ->]. done. }
  apply bind_Ok in H as ([] & σ3 & Hfix & H).
  assert (only (λ r n, n = "time" ∧ (r = a ∨ r = b)) σ2 σ3) as Ho3.
  { destruct (is_none time).
    - apply bind_Ok in Hfix as ([] & ? & [_ ?]%simon_Ok & [? ?]%setattr_Ok).
      solve_only.
    - destruct (is_none time_o).
      + apply bind_Ok in Hfix as ([] & ? & [_ ?]%simon_Ok & [? ?]%setattr_Ok).
        solve_only.
      + apply ret_Ok in Hfix as [_ ->]. apply only_refl. }
  clear Hfix.
  apply bind_Ok in H as (ma & ? & [Hma ->]%getnum_Ok & H).
  apply bind_Ok in H as (mb & ? & [Hmb ->]%getnum_Ok & H).
  apply bind_Ok in H as (b' & σ4 & Hshift & H).
  assert (ev0 ≠ b' ∧ only (λ r _, r ≠ a ∧ r ≠ b ∧ r ≠ ev0) σ3 σ4)
    as [Heb' Ho4].
  { destruct (negb (np_isclose ma mb mjdref_atol)).
    - apply change_mjdref_Ok in Hshift
        as (? & ? & ? & ? & ? & Hnew & Ho4 & _).
      assert (∀ r n v, attr σ3 r n = Some v → r ≠ b') as Hold.
      { intros r n v Hr ->. apply attr_is_Some in Hr as [? ?]. congruence. }
      assert (ev0 ≠ b').
      { apply (Hold ev0 "dt" (VNum (if Qeq_bool dta dtb then 0 else Qmax dta dtb))).
        by chase. }
      split; [done|]. eapply only_mono; [|exact Ho4]. simpl. intros r _ ->.
      split; [apply not_eq_sym, (Hold a "mjdref" (VNum ma) Hma)|].
      split; [apply not_eq_sym, (Hold b "mjdref" (VNum mb) Hmb)|by apply not_eq_sym].
    - apply ret_Ok in Hshift as [-> ->]. split; [done|apply only_refl]. }
  clear Hshift.
  apply join_merge_frame in H as [-> Ho5]; [|done|done].
  split; [done|]. split; [by chase|].
  intros n Hn. pose proof (Hrest2 n Hn) as Hr. unfold join_sets in Hn.
  rewrite !not_elem_of_cons in Hn. destruct Hn as (?&?&?&?&?&?&?&?&_).
  rewrite <- Hr. by chase.
Qed.

(** ** Sorted arrangements of the same numbers *)

#[global] Instance Q_eq_dec : EqDecision Q.
Proof. solve_decision. Defined.

Lemma Forall2_Qeq_refl l : Forall2 Qeq l l.
Proof. apply Forall_Forall2_diag, Forall_forall. intros x _. reflexivity. Qed.

Lemma Forall2_Qeq_trans l k m :
  Forall2 Qeq l k → Forall2 Qeq k m → Forall2 Qeq l m.
Proof.
  intros H. revert m. induction H as [|x y l k Hxy _ IH]; intros m Hm.
  - by inversion Hm.
  - inversion Hm as [|? z ? m' Hyz Hkm]; subst. constructor.
    + by rewrite Hxy.
    + by apply IH.
Qed.

(** Moving an element to the front, past elements that are equal to it as
    numbers. *)
Lemma Forall2_Qeq_rotate y x k1 k2 :
  (y == x)%Q → Forall (λ e, (e == x)%Q) k1 →
  Forall2 Qeq (y :: k1 ++ k2) (k1 ++ x :: k2).
Proof.
  intros Hyx Hall. revert y Hyx.
  induction Hall as [|e k1 He _ IH]; intros y Hyx; simpl.
  - constructor; [done|apply Forall2_Qeq_refl].
  - constructor; [by rewrite Hyx, He|]. by apply IH.
Qed.

Lemma sorted_perm_Qeq l k :
  StronglySorted Qle l → StronglySorted Qle k → l ≡ₚ k → Forall2 Qeq l k.
Proof.
  revert k. induction l as [|x l IH]; intros k Hl Hk Hperm.
  { apply Permutation_nil_l in Hperm as <-. constructor. }
  destruct k as [|y k]; [by apply Permutation_nil_r in Hperm|].
  apply StronglySorted_inv in Hl as [Hl Hxl].
  pose proof Hk as [Hk' Hyk]%StronglySorted_inv.
  rewrite Forall_forall in Hxl, Hyk.
  destruct (decide (x = y)) as [->|Hne].
  { constructor; [reflexivity|]. apply IH; [done|done|].
    by apply Permutation_cons_inv in Hperm. }
  assert (x ∈ k) as Hxk.
  { assert (x ∈ y :: k) as Hin by (rewrite <- Hperm; left).
    by apply elem_of_cons in Hin as [?|?]. }
  assert (y ∈ l) as Hyl.
  { assert (y ∈ x :: l) as Hin by (rewrite Hperm; left).
    apply elem_of_cons in Hin as [?|?]; [congruence|done]. }
  assert (x == y)%Q as Hxy by (apply Qle_antisym; auto).
  apply list_elem_of_split in Hxk as (k1 & k2 & ->).
  assert (Forall (λ e, (e == x)%Q) k1) as Hk1.
  { apply Forall_forall. intros e He. apply Qle_antisym.
    - apply StronglySorted_app in Hk' as (Hlt & _ & _).
      apply Hlt; [done|left].
    - rewrite Hxy. apply Hyk. apply elem_of_app. by left. }
  assert (l ≡ₚ y :: k1 ++ k2) as Hperm'.
  { apply (Permutation_cons_inv (a := x)). rewrite Hperm.
    rewrite <- (Permutation_middle k1 k2 x). apply perm_swap. }
  assert (StronglySorted Qle (y :: k1 ++ k2)) as Hsorted.
  { constructor.
    - apply StronglySorted_app in Hk' as (Hlt & Hs1 & Hs2).
      apply StronglySorted_inv in Hs2 as [Hs2 _].
      apply StronglySorted_app_2; [|done|done].
      intros x1 x2 H1 H2. apply Hlt; [done|by right].
    - apply Forall_forall. intros e He. apply Hyk.
      apply elem_of_app in He as [?|?]; apply elem_of_app; [by left|].
      right. by right. }
  constructor; [done|].
  eapply Forall2_Qeq_trans; [apply (IH _ Hl Hsorted Hperm')|].
  apply Forall2_Qeq_rotate; [by symmetry|done].
Qed.

(** ** [join]: when it returns, when it raises, what it leaves out *)

Lemma np_take_length {A} (l : list A) order r :
  np_take l order = Ok r → length r = length order.
Proof.
  unfold np_take. destruct (mapM _ order) as [r'|] eqn:Hr; [|done].
  intros [= <-]. symmetry. by eapply length_mapM.
Qed.

Lemma np_argsort_length a : length (np_argsort a) = length a.
Proof. by rewrite np_argsort_perm, length_seq. Qed.

Lemma reconcile_length ma mb t t' :
  reconcile ma mb (VArr t) = Ok (VArr t') → length t' = length t.
Proof.
  unfold reconcile. destruct (np_isclose ma mb mjdref_atol); simpl.
  - by intros [= ->].
  - intros [= <-]. by rewrite length_map.
Qed.

Lemma reconcile_close ma mb v v' :
  np_isclose ma mb mjdref_atol = true → reconcile ma mb v = Ok v' → v' = v.
Proof. unfold reconcile. intros ->. by intros [= ->]. Qed.

(** X1: [join] returns for two distinct event lists without GTIs (times,
    numbers for [dt] and [mjdref], [pi] and [energy] absent or one per
    event) whose epochs are close and whose [mission] and whose [instr] are
    absent on both sides or strings on both.  The result is a new instance
    without GTIs; its times are those of both lists in ascending order, its
    [mjdref] is the one of the first list, and its labels are the common
    label, or the two labels with a comma between them. *)
Theorem join_returns a b σ ta tb ma xm ym xi yi :
  a ≠ b → event_list σ a ta → event_list σ b tb →
  attr σ a "gti" = Some VNone → attr σ b "gti" = Some VNone →
  attr σ a "mjdref" = Some (VNum ma) → same_epoch σ a b →
  labels σ a b "mission" xm ym → is_none xm = is_none ym →
  labels σ a b "instr" xi yi → is_none xi = is_none yi →
  ∃ ev σ' s,
    join a b σ = Ok (ev, σ')
    ∧ heap σ !! ev = None
    ∧ attr σ' ev "time" = Some (VArr s)
    ∧ Sorted Qle s ∧ s ≡ₚ ta ++ tb
    ∧ attr σ' ev "gti" = Some VNone
    ∧ attr σ' ev "mjdref" = Some (VNum ma)
    ∧ attr σ' ev "mission" = Some (merged_label xm ym)
    ∧ attr σ' ev "instr" = Some (merged_label xi yi).
Proof.
  intros Hab HA HB Hga Hgb Hma Hepoch Hm Hnm Hi Hni.
  pose proof HA as [Hta [dta Hdta] _ _ _ _].
  pose proof HB as [Htb [dtb Hdtb] _ _ _ _].
  destruct (join_run a b σ ta tb dta dtb ma xm ym xi yi)
    as (ev & σ' & Hjoin & Hfresh & Hmj & Hmis & Hins & _); [done..|by left|].
  destruct (join_inv a b ev σ σ' (VArr ta) (VArr tb) Hta Htb eq_refl Hjoin)
    as (b' & ma' & mb' & ta0 & tb0 & x_pi & y_pi & x_en & y_en & ga & gb0 & gb
        & da & db & s & _ & Hma' & Hmb' & _ & Hta0 & Htb0 & _ & _ & _ & _
        & Hga' & Hgb' & Hrec & _ & _ & _ & _ & Hs & Hev & _ & _ & Hgti).
  destruct Hepoch as (ma2 & mb2 & Hma2 & Hmb2 & Hclose).
  assert (np_isclose ma' mb' mjdref_atol = true) as Hclose' by congruence.
  cbn [or_empty is_none] in Hta0, Htb0. injection Hta0 as <-.
  apply (reconcile_close _ _ _ _ Hclose') in Htb0. injection Htb0 as ->.
  apply (reconcile_close _ _ _ _ Hclose') in Hrec.
  assert (ga = VNone) as -> by congruence.
  assert (gb = VNone) as -> by congruence.
  destruct (np_take_argsort_sorted _ _ Hs) as [Hsorted Hperm].
  destruct Hgti as (_ & _ & Hnone & _).
  exists ev, σ', s. split; [done|]. split; [done|]. split; [done|].
  split; [done|]. split; [done|]. split; [by apply Hnone|]. done.
Qed.

Lemma join_returns_witness :
  ∃ ev σ' s,
    join 0%nat 1%nat mission_store = Ok (ev, σ')
    ∧ heap mission_store !! ev = None
    ∧ attr σ' ev "time" = Some (VArr s)
    ∧ Sorted Qle s ∧ s ≡ₚ [1; 2]%Q ++ [5%Q]
    ∧ attr σ' ev "gti" = Some VNone
    ∧ attr σ' ev "mjdref" = Some (VNum 0)
    ∧ attr σ' ev "mission" = Some (VStr "nustar,xmm")
    ∧ attr σ' ev "instr" = Some VNone.
Proof.
  apply (join_returns 0%nat 1%nat mission_store [1; 2]%Q [5%Q] 0
           (VStr "nustar") (VStr "xmm") VNone VNone).
  - done.
  - split; [vm_compute; reflexivity|..].
    + exists (1 # 2)%Q. vm_compute. reflexivity.
    + exists 0%Q. vm_compute. reflexivity.
    + exists VNone. split; [vm_compute; reflexivity|by left].
    + exists VNone. split; [vm_compute; reflexivity|by left].
    + exists VNone. split; [vm_compute; reflexivity|by left].
  - split; [vm_compute; reflexivity|..].
    + exists (1 # 2)%Q. vm_compute. reflexivity.
    + exists 0%Q. vm_compute. reflexivity.
    + exists VNone. split; [vm_compute; reflexivity|by left].
    + exists VNone. split; [vm_compute; reflexivity|by left].
    + exists VNone. split; [vm_compute; reflexivity|by left].
  - vm_compute. reflexivity.
  - vm_compute. reflexivity.
  - vm_compute. reflexivity.
  - exists 0%Q, 0%Q. split; [vm_compute; reflexivity|].
    split; vm_compute; reflexivity.
  - split; [vm_compute; reflexivity|]. split; [vm_compute; reflexivity|].
    split; right; eauto.
  - reflexivity.
  - split; [vm_compute; reflexivity|]. split; [vm_compute; reflexivity|].
    split; by left.
  - reflexivity.
Defined.

(** X2: what [join] does not carry over.  Whenever it returns, the result
    is a new instance whose [ncounts] is [None] and whose [notes] are empty,
    also when it holds the events of both lists; its [dt] is the larger of
    the two when they differ and [0], the default, when they are equal,
    whatever their common value. *)
Theorem join_leaves_defaults a b ev σ σ' dta dtb :
  attr σ a "dt" = Some (VNum dta) → attr σ b "dt" = Some (VNum dtb) →
  join a b σ = Ok (ev, σ') →
  heap σ !! ev = None
  ∧ attr σ' ev "ncounts" = Some VNone
  ∧ attr σ' ev "notes" = Some (VStr "")
  ∧ attr σ' ev "dt"
    = Some (VNum (if Qeq_bool dta dtb then 0 else Qmax dta dtb))
  ∧ (∀ ta tb,
       attr σ a "time" = Some (VArr ta) → attr σ b "time" = Some (VArr tb) →
       ∃ s, attr σ' ev "time" = Some (VArr s)
            ∧ length s = (length ta + length tb)%nat).
Proof.
  intros Hdta Hdtb Hjoin.
  destruct (join_leaves a b ev σ σ' dta dtb Hdta Hdtb Hjoin)
    as (Hfresh & Hdt & Hrest).
  split; [done|].
  split; [by rewrite Hrest by (unfold join_sets; rewrite !not_elem_of_cons;
                               repeat split; (done || apply not_elem_of_nil))|].
  split; [by rewrite Hrest by (unfold join_sets; rewrite !not_elem_of_cons;
                               repeat split; (done || apply not_elem_of_nil))|].
  split; [done|]. intros ta tb Hta Htb.
  destruct (join_inv a b ev σ σ' (VArr ta) (VArr tb) Hta Htb eq_refl Hjoin)
    as (b' & ma' & mb' & ta0 & tb0 & x_pi & y_pi & x_en & y_en & ga & gb0 & gb
        & da & db & s & _ & _ & _ & _ & Hta0 & Htb0 & _ & _ & _ & _ & _ & _ & _
        & _ & _ & _ & _ & Hs & Hev & _).
  cbn [or_empty is_none] in Hta0, Htb0. injection Hta0 as <-.
  apply reconcile_length in Htb0.
  exists s. split; [done|]. apply np_take_length in Hs.
  by rewrite Hs, np_argsort_length, length_app, Htb0.
Qed.

Lemma join_leaves_defaults_witness :
  heap dt_store !! 2%nat = None
  ∧ attr (state_of (join 0%nat 1%nat dt_store)) 2%nat "ncounts" = Some VNone
  ∧ attr (state_of (join 0%nat 1%nat dt_store)) 2%nat "notes" = Some (VStr "")
  ∧ attr (state_of (join 0%nat 1%nat dt_store)) 2%nat "dt" = Some (VNum 0)
  ∧ (∀ ta tb,
       attr dt_store 0%nat "time" = Some (VArr ta) →
       attr dt_store 1%nat "time" = Some (VArr tb) →
       ∃ s, attr (state_of (join 0%nat 1%nat dt_store)) 2%nat "time"
            = Some (VArr s)
            ∧ length s = (length ta + length tb)%nat).
Proof.
  apply (join_leaves_defaults 0%nat 1%nat 2%nat dt_store
           (state_of (join 0%nat 1%nat dt_store)) (1 # 2) (1 # 2)).
  - vm_compute. reflexivity.
  - vm_compute. reflexivity.
  - apply run_state_of. vm_compute. reflexivity.
Defined.

(** X3: [join] raises [TypeError] for two such lists when [mission] (or
    [instr]) is a string on one side and [None] on the other: the two
    differ, and [None] cannot be added to a string. *)
Theorem join_label_mismatch a b σ ta tb xm ym xi yi :
  a ≠ b → event_list σ a ta → event_list σ b tb →
  attr σ a "gti" = Some VNone → attr σ b "gti" = Some VNone →
  same_epoch σ a b →
  labels σ a b "mission" xm ym → labels σ a b "instr" xi yi →
  is_none xm ≠ is_none ym ∨ is_none xi ≠ is_none yi →
  join a b σ = Raise TypeError.
Proof.
  intros Hab HA HB _ _ Hepoch (Hxm & Hym & Hkxm & Hkym)
    (Hxi & Hyi & Hkxi & Hkyi) Hmis.
  pose proof HA as [_ [dta Hdta] [ma Hma] _ _ _].
  pose proof HB as [_ [dtb Hdtb] _ _ _ _].
  destruct (join_to_labels a b σ ta tb dta dtb ma)
    as (ev & b' & σ7 & -> & Hfresh & Hev7 & Ha7 & Hb7 & Hinit & Hevdt);
    [done..|by left|].
  unfold join_labels. cbn [for_each]. rewrite bind_assoc.
  destruct (decide (is_none xm = is_none ym)) as [Hnm|Hnm].
  - destruct Hmis as [|Hni]; [done|].
    destruct (join_label_progress a b' ev "mission" σ7 xm ym)
      as (σ8 & Hmission & Hevm & Ho8); [done| |done|].
    { split; [by rewrite Ha7|]. split; [by rewrite Hb7|done]. }
    rewrite (bind_eq _ _ _ _ _ Hmission). rewrite bind_assoc.
    apply (join_label_raises a b' ev "instr" σ8 xi yi); [|done].
    split; [chase; by rewrite Ha7|]. split; [chase; by rewrite Hb7|done].
  - apply (join_label_raises a b' ev "mission" σ7 xm ym); [|done].
    split; [by rewrite Ha7|]. split; [by rewrite Hb7|done].
Qed.

Lemma join_label_mismatch_witness :
  join 0%nat 1%nat label_store = Raise TypeError.
Proof.
  apply (join_label_mismatch 0%nat 1%nat label_store [1; 2]%Q [5%Q]
           (VStr "nustar") VNone VNone VNone).
  - done.
  - split; [vm_compute; reflexivity|..].
    + exists 0%Q. vm_compute. reflexivity.
    + exists 0%Q. vm_compute. reflexivity.
    + exists VNone. split; [vm_compute; reflexivity|by left].
    + exists VNone. split; [vm_compute; reflexivity|by left].
    + exists VNone. split; [vm_compute; reflexivity|by left].
  - split; [vm_compute; reflexivity|..].
    + exists 0%Q. vm_compute. reflexivity.
    + exists 0%Q. vm_compute. reflexivity.
    + exists VNone. split; [vm_compute; reflexivity|by left].
    + exists VNone. split; [vm_compute; reflexivity|by left].
    + exists VNone. split; [vm_compute; reflexivity|by left].
  - vm_compute. reflexivity.
  - vm_compute. reflexivity.
  - exists 0%Q, 0%Q. split; [vm_compute; reflexivity|].
    split; vm_compute; reflexivity.
  - split; [vm_compute; reflexivity|]. split; [vm_compute; reflexivity|].
    split; [right; eauto|by left].
  - split; [vm_compute; reflexivity|]. split; [vm_compute; reflexivity|].
    split; by left.
  - left. simpl. done.
Defined.

(** X4: [join] raises [TypeError] when the two [mjdref] are not close and
    the second list has times but no GTIs: [change_mjdref] shifts a copy of
    it, and [shift] adds the shift to [gti], which is [None]. *)
Theorem join_epochs_apart_without_gti a b σ ta tb dta dtb ma mb :
  attr σ a "time" = Some (VArr ta) → attr σ b "time" = Some (VArr tb) →
  attr σ a "dt" = Some (VNum dta) → attr σ b "dt" = Some (VNum dtb) →
  attr σ a "mjdref" = Some (VNum ma) → attr σ b "mjdref" = Some (VNum mb) →
  np_isclose ma mb mjdref_atol = false →
  attr σ b "gti" = Some VNone →
  join a b σ = Raise TypeError.
Proof.
  intros Hta Htb Hdta Hdtb Hma Hmb Hclose Hg.
  destruct (join_head a b σ ta tb dta dtb ma mb)
    as (ev & σ2 & -> & Hfresh & Hea & Heb & Ho2 & _); [done..|].
  rewrite Hclose. cbn [negb]. apply bind_raise.
  apply (change_mjdref_no_gti σ2 b mb tb ma); by chase.
Qed.

Lemma join_epochs_apart_without_gti_witness :
  join 0%nat 1%nat apart_store = Raise TypeError.
Proof.
  apply (join_epochs_apart_without_gti 0%nat 1%nat apart_store
           [1; 2]%Q [5%Q] (1 # 2) (1 # 2) 0 1);
    vm_compute; reflexivity.
Defined.

(** X20: the order of the two lists does not matter for the times of the
    result, when their epochs are close: [join(A, B)] and [join(B, A)] both
    have the times of [A] and [B] in ascending order, so the same numbers at
    the same places. *)
Theorem join_order_insensitive a b σ ta tb ma mb ev1 σ1 ev2 σ2 :
  attr σ a "time" = Some (VArr ta) → attr σ b "time" = Some (VArr tb) →
  attr σ a "mjdref" = Some (VNum ma) → attr σ b "mjdref" = Some (VNum mb) →
  np_isclose ma mb mjdref_atol = true → np_isclose mb ma mjdref_atol = true →
  join a b σ = Ok (ev1, σ1) → join b a σ = Ok (ev2, σ2) →
  ∃ s1 s2,
    attr σ1 ev1 "time" = Some (VArr s1)
    ∧ attr σ2 ev2 "time" = Some (VArr s2)
    ∧ s1 ≡ₚ ta ++ tb ∧ s2 ≡ₚ ta ++ tb
    ∧ Sorted Qle s1 ∧ Sorted Qle s2
    ∧ Forall2 Qeq s1 s2.
Proof.
  intros Hta Htb Hma Hmb Hab Hba Hj1 Hj2.
  assert (∀ x y tx ty mx my ev σ',
    attr σ x "time" = Some (VArr tx) → attr σ y "time" = Some (VArr ty) →
    attr σ x "mjdref" = Some (VNum mx) → attr σ y "mjdref" = Some (VNum my) →
    np_isclose mx my mjdref_atol = true →
    join x y σ = Ok (ev, σ') →
    ∃ s, attr σ' ev "time" = Some (VArr s) ∧ s ≡ₚ tx ++ ty ∧ Sorted Qle s)
    as Hone.
  { intros x y tx ty mx my ev σ' Hx Hy Hmx Hmy Hclose Hjoin.
    destruct (join_inv x y ev σ σ' (VArr tx) (VArr ty) Hx Hy eq_refl Hjoin)
      as (b' & ma' & mb' & ta0 & tb0 & x_pi & y_pi & x_en & y_en & ga & gb0 & gb
          & da & db & s & _ & Hma' & Hmb' & _ & Hta0 & Htb0 & _ & _ & _ & _
          & _ & _ & _ & _ & _ & _ & _ & Hs & Hev & _).
    assert (np_isclose ma' mb' mjdref_atol = true) as Hclose' by congruence.
    cbn [or_empty is_none] in Hta0, Htb0. injection Hta0 as <-.
    apply (reconcile_close _ _ _ _ Hclose') in Htb0. injection Htb0 as ->.
    destruct (np_take_argsort_sorted _ _ Hs) as [Hsorted Hperm].
    by exists s. }
  destruct (Hone a b ta tb ma mb ev1 σ1) as (s1 & Hs1 & Hp1 & Hsort1); [done..|].
  destruct (Hone b a tb ta mb ma ev2 σ2) as (s2 & Hs2 & Hp2 & Hsort2); [done..|].
  rewrite (Permutation_app_comm tb ta) in Hp2.
  exists s1, s2. split; [done|]. split; [done|]. split; [done|].
  split; [done|]. split; [done|]. split; [done|].
  apply sorted_perm_Qeq.
  - by apply Sorted_StronglySorted; [apply _|].
  - by apply Sorted_StronglySorted; [apply _|].
  - by rewrite Hp1, Hp2.
Qed.

Lemma join_order_insensitive_witness :
  ∃ s1 s2,
    attr (state_of (join 0%nat 1%nat join_store)) 2%nat "time" = Some (VArr s1)
    ∧ attr (state_of (join 1%nat 0%nat join_store)) 2%nat "time"
      = Some (VArr s2)
    ∧ s1 ≡ₚ [1; 2; 3]%Q ++ [10; 11]%Q ∧ s2 ≡ₚ [1; 2; 3]%Q ++ [10; 11]%Q
    ∧ Sorted Qle s1 ∧ Sorted Qle s2
    ∧ Forall2 Qeq s1 s2.
Proof.
  apply (join_order_insensitive 0%nat 1%nat join_store [1; 2; 3]%Q
           [10; 11]%Q 0 0).
  - vm_compute. reflexivity.
  - vm_compute. reflexivity.
  - vm_compute. reflexivity.
  - vm_compute. reflexivity.
  - vm_compute. reflexivity.
  - vm_compute. reflexivity.
  - apply run_state_of. vm_compute. reflexivity.
  - apply run_state_of. vm_compute. reflexivity.
Defined.

(** ** The constructor *)

Lemma kept_as_given v : (if is_none v then VNone else np_asarray v) = v.
Proof. by destruct v. Qed.

Lemma kept_as_given' v : (if negb (is_none v) then np_asarray v else VNone) = v.
Proof. by destruct v. Qed.

(** Writes to and reads of the instance under construction. *)
Lemma bind_setattr_new {B} r n v (k : unit → M B) h w o :
  bind (setattr r n v) k (State (<[r := o]> h) w)
  = k tt (State (<[r := <[n := v]> o]> h) w).
Proof.
  erewrite bind_setattr by (simpl; apply lookup_insert_eq).
  simpl. by rewrite insert_insert_eq.
Qed.

Lemma setattr_new r n v h w o :
  setattr r n v (State (<[r := o]> h) w)
  = Ok (tt, State (<[r := <[n := v]> o]> h) w).
Proof.
  erewrite setattr_eq by (simpl; apply lookup_insert_eq).
  simpl. by rewrite insert_insert_eq.
Qed.

Lemma attr_new r n h w o : attr (State (<[r := o]> h) w) r n = lookup_attr o n.
Proof. by rewrite attr_insert, decide_True. Qed.

Lemma attr_old r r' n h w o :
  r' ≠ r → attr (State (<[r := o]> h) w) r' n = attr (State h w) r' n.
Proof. intros. by rewrite attr_insert, decide_False. Qed.

Lemma bind_getattr_new {B} r n (k : value → M B) h w o v :
  lookup_attr o n = Some v →
  bind (getattr r n) k (State (<[r := o]> h) w) = k v (State (<[r := o]> h) w).
Proof. intros Hv. apply bind_getattr. by rewrite attr_new. Qed.

(** The constructor up to the block that sets [time]: the parameters are
    set as attributes, a keyword that is no parameter gives a warning. *)
Lemma EventList_sets kws σ :
  ∃ o,
    (∀ n d, (n, d) ∈ init_defaults → lookup_attr o n = Some (kw kws n d))
    ∧ lookup_attr o "ncounts" = Some (kw kws "ncounts" VNone)
    ∧ (∀ n, n ∉ init_params → lookup_attr o n = class_dict !! n)
    ∧ EventList kws σ
      = ((if negb (is_none (kw kws "time" VNone)) then
            setattr (fresh (dom (heap σ))) "time" (np_asarray (kw kws "time" VNone)) ;;
            let* n := lift (size_of (np_asarray (kw kws "time" VNone))) in
            setattr (fresh (dom (heap σ))) "ncounts" (VNum (inject_Z (Z.of_nat n)))
          else
            setattr (fresh (dom (heap σ))) "time" VNone) ;;
         let* time' := getattr (fresh (dom (heap σ))) "time" in
         let* energy' := getattr (fresh (dom (heap σ))) "energy" in
         (if negb (is_none time') && negb (is_none energy') then
            let* n := lift (size_of time') in
            let* m := lift (size_of energy') in
            if decide (n ≠ m) then raise ValueError else ret tt
          else ret tt) ;;
         ret (fresh (dom (heap σ))))
        (State (<[fresh (dom (heap σ)) := o]> (heap σ))
               (warnings σ ++ if bool_decide (unrecognized kws = []) then []
                              else ["Unrecognized keywords"])).
Proof.
  eexists. split; [|split; [|split]]; cycle 3.
  - unfold EventList. rewrite bind_alloc.
    rewrite kept_as_given, kept_as_given', kept_as_given.
    rewrite !bind_setattr_new. fold (unrecognized kws).
    destruct (bool_decide (unrecognized kws = [])); cbn [negb when].
    + rewrite bind_ret, app_nil_r. reflexivity.
    + rewrite bind_simon. reflexivity.
  - intros n d Hn. unfold init_defaults in Hn.
    repeat (apply elem_of_cons in Hn as [[= -> ->]|Hn];
            [vm_compute; reflexivity|]).
    by apply not_elem_of_nil in Hn.
  - vm_compute. reflexivity.
  - intros n Hn. unfold init_params in Hn.
    rewrite !not_elem_of_cons in Hn.
    destruct Hn as (?&?&?&?&?&?&?&?&?&?&?&?&?&?&?&?&_).
    rewrite !lookup_attr_insert. rewrite !decide_False by done.
    unfold lookup_attr. by rewrite lookup_empty.
Qed.

(** The constructor for times [t] and energies that are absent or as many
    as the times: the instance it makes. *)
Lemma EventList_with_times kws σ t :
  kw kws "time" VNone = VArr t →
  column_ok (kw kws "energy" VNone) (length t) →
  ∃ o w,
    (∀ n d, (n, d) ∈ init_defaults → lookup_attr o n = Some (kw kws n d))
    ∧ EventList kws σ
      = Ok (fresh (dom (heap σ)),
            State (<[fresh (dom (heap σ)) :=
                       <["ncounts" := count (length t)]> (<["time" := VArr t]> o)]>
                     (heap σ)) w).
Proof.
  intros Htime Henergy.
  destruct (EventList_sets kws σ) as (o & Hdef & _ & _ & ->).
  exists o. eexists. split; [done|].
  set (r := fresh (dom (heap σ))).
  rewrite Htime. cbn [is_none negb np_asarray size_of].
  rewrite ?bind_assoc, bind_setattr_new, ?bind_assoc, bind_lift,
    ?bind_assoc, bind_setattr_new.
  erewrite bind_getattr_new
    by (by rewrite lookup_attr_insert, decide_False,
                   lookup_attr_insert, decide_True).
  erewrite bind_getattr_new.
  2:{ rewrite !lookup_attr_insert, !decide_False by done.
      apply (Hdef "energy" VNone). unfold init_defaults. by left. }
  destruct Henergy as [->|(e & -> & Hlen)]; [done|].
  cbn [is_none negb andb size_of np_asarray].
  rewrite ?bind_assoc, bind_lift, ?bind_assoc, bind_lift.
  by rewrite decide_False by lia.
Qed.

Lemma init_defaults_names n d :
  (n, d) ∈ init_defaults → n ≠ "time" ∧ n ≠ "ncounts".
Proof.
  unfold init_defaults. intros Hn.
  repeat (apply elem_of_cons in Hn as [[= -> ->]|Hn]; [done|]).
  by apply not_elem_of_nil in Hn.
Qed.

(** X5: [EventList(time=t, ...)] with [energy] absent or as long as [t]
    returns a new instance and touches no other; its [ncounts] is the number
    of times, whatever [ncounts] was given; the other parameters are kept as
    attributes, a parameter left out with its default. *)
Theorem EventList_init kws σ t :
  kw kws "time" VNone = VArr t →
  column_ok (kw kws "energy" VNone) (length t) →
  ∃ r σ',
    EventList kws σ = Ok (r, σ')
    ∧ heap σ !! r = None
    ∧ (∀ r' n, r' ≠ r → attr σ' r' n = attr σ r' n)
    ∧ attr σ' r "time" = Some (VArr t)
    ∧ attr σ' r "ncounts" = Some (count (length t))
    ∧ (∀ n d, (n, d) ∈ init_defaults → attr σ' r n = Some (kw kws n d)).
Proof.
  intros Htime Henergy.
  destruct (EventList_with_times kws σ t Htime Henergy) as (o & w & Hdef & ->).
  eexists _, _. split; [reflexivity|]. split; [apply fresh_heap|].
  split; [|split; [|split]].
  - intros r' n Hne. by rewrite attr_old.
  - rewrite attr_new. by rewrite lookup_attr_insert, decide_False,
      lookup_attr_insert, decide_True.
  - rewrite attr_new. by rewrite lookup_attr_insert, decide_True.
  - intros n d Hn. destruct (init_defaults_names n d Hn).
    rewrite attr_new, !lookup_attr_insert, !decide_False by done.
    by apply Hdef.
Qed.

Lemma EventList_init_witness :
  ∃ r σ',
    EventList odd_keywords σ0 = Ok (r, σ')
    ∧ heap σ0 !! r = None
    ∧ (∀ r' n, r' ≠ r → attr σ' r' n = attr σ0 r' n)
    ∧ attr σ' r "time" = Some (VArr [1; 2; 3]%Q)
    ∧ attr σ' r "ncounts" = Some (count 3)
    ∧ (∀ n d, (n, d) ∈ init_defaults → attr σ' r n = Some (kw odd_keywords n d)).
Proof.
  apply (EventList_init odd_keywords σ0 [1; 2; 3]%Q).
  - reflexivity.
  - left. reflexivity.
Defined.

(** X6: [EventList(time=t, energy=e)] raises [ValueError] when there are
    not as many energies as times. *)
Theorem EventList_size_mismatch kws σ t e :
  kw kws "time" VNone = VArr t → kw kws "energy" VNone = VArr e →
  length t ≠ length e →
  EventList kws σ = Raise ValueError.
Proof.
  intros Htime Henergy Hlen.
  destruct (EventList_sets kws σ) as (o & Hdef & _ & _ & ->).
  rewrite Htime. cbn [is_none negb np_asarray size_of].
  rewrite ?bind_assoc, bind_setattr_new, ?bind_assoc, bind_lift,
    ?bind_assoc, bind_setattr_new.
  erewrite bind_getattr_new
    by (by rewrite lookup_attr_insert, decide_False,
                   lookup_attr_insert, decide_True).
  erewrite bind_getattr_new.
  2:{ rewrite !lookup_attr_insert, !decide_False by done.
      apply (Hdef "energy" VNone). unfold init_defaults. by left. }
  rewrite Henergy. cbn [is_none negb andb size_of np_asarray].
  rewrite ?bind_assoc, bind_lift, ?bind_assoc, bind_lift.
  by rewrite decide_True.
Qed.

Lemma EventList_size_mismatch_witness :
  EventList [("time", VArr [1; 2; 3]%Q); ("energy", VArr [5; 6]%Q)] σ0
  = Raise ValueError.
Proof.
  apply (EventList_size_mismatch _ σ0 [1; 2; 3]%Q [5; 6]%Q);
    [reflexivity|reflexivity|simpl; lia].
Defined.

(** X7: a keyword that is not a parameter of [__init__] is not kept: when
    the constructor returns, a warning has been given and the instance has
    no attribute of that name (only what the class has under it, if
    anything). *)
Theorem EventList_unrecognized kws σ r σ' n :
  EventList kws σ = Ok (r, σ') →
  n ∈ kws.*1 → n ∉ init_params →
  "Unrecognized keywords" ∈ warnings σ'
  ∧ attr σ' r n = class_dict !! n.
Proof.
  intros Hrun Hn Hnot.
  destruct (EventList_sets kws σ) as (o & _ & _ & Hother & Heq).
  rewrite Heq in Hrun. clear Heq.
  assert (unrecognized kws ≠ []) as Hne.
  { intros Hnil. assert (n ∈ unrecognized kws) as Hin
      by (by apply list_elem_of_filter).
    rewrite Hnil in Hin. by apply not_elem_of_nil in Hin. }
  rewrite bool_decide_eq_false_2 in Hrun by done.
  assert (n ≠ "time" ∧ n ≠ "ncounts") as [Hnt Hnn].
  { unfold init_params in Hnot. rewrite !not_elem_of_cons in Hnot. tauto. }
  apply bind_Ok in Hrun as ([] & σ1 & Hblock & Hrun).
  assert (only (λ r' n', r' = fresh (dom (heap σ))
                         ∧ (n' = "time" ∨ n' = "ncounts")) 
            (State (<[fresh (dom (heap σ)) := o]> (heap σ))
               (warnings σ ++ ["Unrecognized keywords"])) σ1) as Ho.
  { destruct (negb (is_none (kw kws "time" VNone))).
    - apply bind_Ok in Hblock as ([] & σa & [_ Ho1]%setattr_Ok & Hblock).
      apply bind_Ok in Hblock as (m & ? & [_ ->]%lift_Ok & [_ Ho2]%setattr_Ok).
      solve_only.
    - apply setattr_Ok in Hblock as [_ Ho1]. solve_only. }
  apply bind_Ok in Hrun as (time' & ? & [_ ->]%getattr_Ok & Hrun).
  apply bind_Ok in Hrun as (energy' & ? & [_ ->]%getattr_Ok & Hrun).
  apply bind_Ok in Hrun as ([] & σ2 & Hcheck & [-> ->]%ret_Ok).
  assert (σ2 = σ1) as ->.
  { destruct (negb (is_none time') && negb (is_none energy')).
    - apply bind_Ok in Hcheck as (a & ? & [_ ->]%lift_Ok & Hcheck).
      apply bind_Ok in Hcheck as (b & ? & [_ ->]%lift_Ok & Hcheck).
      destruct (decide (a ≠ b)); [done|]. by apply ret_Ok in Hcheck as [_ ->].
    - by apply ret_Ok in Hcheck as [_ ->]. }
  split.
  - eapply only_warning; [exact Ho|]. simpl.
    apply elem_of_app. right. by left.
  - chase. rewrite attr_new. by apply Hother.
Qed.

Lemma EventList_unrecognized_witness :
  "Unrecognized keywords" ∈ warnings (state_of (EventList odd_keywords σ0))
  ∧ attr (state_of (EventList odd_keywords σ0)) 0%nat "colour"
    = class_dict !! "colour".
Proof.
  apply (EventList_unrecognized odd_keywords σ0 0%nat _ "colour").
  - apply run_state_of. vm_compute. reflexivity.
  - simpl. do 2 apply list_elem_of_further. apply list_elem_of_here.
  - unfold init_params. rewrite !not_elem_of_cons.
    repeat split; (done || apply not_elem_of_nil).
Defined.

(** ** Dictionaries *)

Lemma dict_get_set d k v n :
  dict_get (dict_set d k v) n = if decide (n = k) then Some v else dict_get d n.
Proof.
  induction d as [|[k' w] d IH]; simpl.
  - destruct (decide (k = n)), (decide (n = k)); congruence.
  - destruct (decide (k' = k)) as [->|Hk]; simpl.
    + destruct (decide (k = n)), (decide (n = k)); congruence.
    + destruct (decide (k' = n)) as [->|Hn].
      * by rewrite decide_False by done.
      * apply IH.
Qed.

Lemma dict_set_new d k v : k ∉ d.*1 → dict_set d k v = d ++ [(k, v)].
Proof.
  induction d as [|[k' w] d IH]; simpl; [done|].
  intros [Hk Hd]%not_elem_of_cons.
  rewrite decide_False by done. by rewrite IH.
Qed.

Lemma dict_set_keys d k v :
  (dict_set d k v).*1 = if decide (k ∈ d.*1) then d.*1 else d.*1 ++ [k].
Proof.
  induction d as [|[k' w] d IH]; [done|]. cbn [dict_set].
  destruct (decide (k' = k)) as [->|Hk]; rewrite !fmap_cons; cbn [fst].
  - rewrite decide_True; [done|]. by left.
  - rewrite IH. destruct (decide (k ∈ d.*1)) as [Hin|Hnin].
    + rewrite decide_True; [done|]. by right.
    + rewrite decide_False; [done|]. by intros [?|?]%elem_of_cons.
Qed.

Lemma dict_set_NoDup d k v : NoDup d.*1 → NoDup (dict_set d k v).*1.
Proof.
  intros Hd. rewrite dict_set_keys. case_decide as Hk; [done|].
  apply NoDup_app. split; [done|]. split; [|apply NoDup_singleton].
  by intros x Hx ->%list_elem_of_singleton.
Qed.

Lemma dict_update_new d other :
  NoDup (d.*1 ++ other.*1) → dict_update d other = d ++ other.
Proof.
  unfold dict_update. revert d.
  induction other as [|[k v] other IH]; intros d Hnd; simpl.
  - by rewrite app_nil_r.
  - simpl in Hnd. rewrite dict_set_new.
    + rewrite IH; [by rewrite <- app_assoc|].
      rewrite fmap_app. simpl. by rewrite <- app_assoc.
    + apply NoDup_app in Hnd as (_ & Hdisj & _). intros Hk.
      apply (Hdisj k Hk). by left.
Qed.

Lemma fold_each_pure {A S} (l : list A) (body : S → A → M S) (g : S → A → S) σ :
  (∀ acc x, x ∈ l → body acc x σ = Ok (g acc x, σ)) →
  ∀ acc, fold_each l acc body σ = Ok (foldl g acc l, σ).
Proof.
  induction l as [|x l IH]; intros Hbody acc; [done|].
  cbn [fold_each foldl]. erewrite bind_eq by (apply Hbody; left).
  apply IH. intros acc' x' Hx'. apply Hbody. by right.
Qed.

(** ** The meta data and the columns *)

Lemma meta_fold_get o names n : ∀ acc,
  dict_get (foldl (meta_step o) acc names) n
  = if decide (n ∈ names) then
      match lookup_attr o n with
      | Some v => if is_none v then dict_get acc n else Some v
      | None => dict_get acc n
      end
    else dict_get acc n.
Proof.
  induction names as [|x names IH]; intros acc; cbn [foldl].
  - rewrite decide_False; [done|]. apply not_elem_of_nil.
  - rewrite IH.
    assert (dict_get (meta_step o acc x) n
            = if decide (n = x) then
                match lookup_attr o n with
                | Some v => if is_none v then dict_get acc n else Some v
                | None => dict_get acc n
                end
              else dict_get acc n) as ->.
    { unfold meta_step. destruct (decide (n = x)) as [->|Hne].
      - destruct (lookup_attr o x) as [v|]; [|done].
        destruct (is_none v); [done|]. simpl.
        by rewrite dict_get_set, decide_True.
      - destruct (lookup_attr o x) as [v|]; [|done].
        destruct (is_none v); [done|]. simpl.
        by rewrite dict_get_set, decide_False. }
    destruct (decide (n ∈ names)) as [Hin|Hnin].
    + rewrite (decide_True (P := n ∈ x :: names)) by (by right).
      destruct (lookup_attr o n) as [v|]; [|by destruct (decide (n = x))].
      destruct (is_none v); [by destruct (decide (n = x))|done].
    + destruct (decide (n = x)) as [->|Hne].
      * rewrite decide_True; [done|]. by left.
      * rewrite decide_False; [done|]. by intros [?|?]%elem_of_cons.
Qed.

Lemma meta_fold_NoDup o names : ∀ acc,
  NoDup acc.*1 → NoDup (foldl (meta_step o) acc names).*1.
Proof.
  induction names as [|x names IH]; intros acc Hacc; cbn [foldl]; [done|].
  apply IH. unfold meta_step. destruct (lookup_attr o x) as [v|]; [|done].
  destruct (negb (is_none v)); [|done]. by apply dict_set_NoDup.
Qed.

Lemma column_fold_get o names n : ∀ acc,
  Forall (λ n, is_Some (lookup_attr o n)) names →
  dict_get (foldl (column_step o) acc names) n
  = if decide (n ∈ names) then lookup_attr o n else dict_get acc n.
Proof.
  induction names as [|x names IH]; intros acc Hall; cbn [foldl].
  - rewrite decide_False; [done|]. apply not_elem_of_nil.
  - apply Forall_cons in Hall as [[v Hv] Hall]. rewrite IH by done.
    unfold column_step. rewrite Hv. unfold np_asarray.
    destruct (decide (n ∈ names)) as [Hin|Hnin].
    + rewrite decide_True; [done|]. by right.
    + rewrite dict_get_set. destruct (decide (n = x)) as [->|Hne].
      * rewrite decide_True; [done|]. by left.
      * rewrite decide_False; [done|]. by intros [?|?]%elem_of_cons.
Qed.

Lemma column_fold_keys o names : ∀ acc,
  Forall (λ n, is_Some (lookup_attr o n)) names →
  NoDup (acc.*1 ++ names) →
  (foldl (column_step o) acc names).*1 = acc.*1 ++ names.
Proof.
  induction names as [|x names IH]; intros acc Hall Hnd; cbn [foldl].
  - by rewrite app_nil_r.
  - apply Forall_cons in Hall as [[v Hv] Hall].
    unfold column_step. rewrite Hv.
    assert (x ∉ acc.*1) as Hx.
    { apply NoDup_app in Hnd as (_ & Hdisj & _). intros Hin.
      apply (Hdisj x Hin). by left. }
    rewrite dict_set_new by done. rewrite IH; [|done|].
    + rewrite fmap_app. simpl. by rewrite <- app_assoc.
    + rewrite fmap_app. simpl. by rewrite <- app_assoc.
Qed.

Lemma get_meta_dict_eq σ self o time sh :
  heap σ !! self = Some o →
  lookup_attr o "time" = Some time → shape_of time = Ok sh →
  get_meta_dict self σ
  = Ok (foldl (meta_step o) [] (List.filter (is_meta o sh) (dir o)), σ).
Proof.
  intros Hs Ht Hsh. unfold get_meta_dict, meta_attrs.
  rewrite bind_assoc. erewrite bind_deref by done.
  rewrite (meta_attrs_of_eq _ _ _ Ht Hsh), bind_lift.
  apply fold_each_pure. intros acc n [Hn _]%elem_of_filter_bool.
  apply elem_of_dir in Hn as [v Hv].
  erewrite bind_getattr by (by erewrite attr_lookup).
  unfold meta_step. by rewrite Hv.
Qed.

Lemma columns_eq σ self o time sh :
  heap σ !! self = Some o →
  lookup_attr o "time" = Some time → shape_of time = Ok sh →
  fold_each (List.filter (is_array o sh) (dir o)) []
    (λ data name,
       let* v := getattr self name in ret (dict_set data name (np_asarray v))) σ
  = Ok (foldl (column_step o) [] (List.filter (is_array o sh) (dir o)), σ).
Proof.
  intros Hs Ht Hsh.
  apply fold_each_pure. intros acc n [Hn _]%elem_of_filter_bool.
  apply elem_of_dir in Hn as [v Hv].
  erewrite bind_getattr by (by erewrite attr_lookup).
  unfold column_step. by rewrite Hv.
Qed.

Lemma is_array_iff o sh n :
  is_array o sh n = true ↔ ∃ v, lookup_attr o n = Some v ∧ array_like sh v.
Proof.
  unfold is_array, array_like. destruct (lookup_attr o n) as [v|].
  - rewrite andb_true_iff, bool_decide_eq_true. split; [eauto|].
    by intros (? & [= <-] & ?).
  - split; [done|]. by intros (? & ? & _).
Qed.

Lemma is_meta_iff o sh n :
  is_meta o sh n = true ↔
  ∃ v, lookup_attr o n = Some v ∧ ¬ array_like sh v
       ∧ startswith "_" n = false ∧ callable v = false.
Proof.
  unfold is_meta. rewrite !andb_true_iff, !negb_true_iff.
  rewrite <- not_true_iff_false, is_array_iff.
  destruct (lookup_attr o n) as [v|].
  - rewrite negb_true_iff. split.
    + intros [[Ha ?] ?]. exists v. split; [done|]. split; [|done].
      intros Hv. apply Ha. eauto.
    + intros (? & [= <-] & Ha & ? & ?). split; [split; [|done]|done].
      by intros (? & [= <-] & ?).
  - split; [by intros [_ ?]|]. by intros (? & ? & _).
Qed.

(** ** A list without times *)

Lemma filterM_raise {A} (f : A → result bool) l e :
  Forall (λ x, f x = Ok false ∨ f x = Raise e) l →
  Exists (λ x, f x = Raise e) l →
  filterM f l = Raise e.
Proof.
  induction 1 as [|x l Hx _ IH]; intros Hex; [by apply Exists_nil in Hex|].
  simpl. destruct Hx as [Hx|Hx]; rewrite Hx; [|done].
  apply Exists_cons in Hex as [Hex|Hex]; [congruence|].
  by rewrite IH.
Qed.

Lemma array_attrs_of_no_time o n v :
  lookup_attr o "time" = Some VNone →
  lookup_attr o n = Some v → is_iterable v = true →
  array_attrs_of o = Raise AttributeError.
Proof.
  intros Ht Hv Hit. apply filterM_raise.
  - apply Forall_forall. intros x [w Hw]%elem_of_dir.
    unfold is_array_attr, get. rewrite Hw, Ht.
    destruct (is_iterable w); auto.
  - apply Exists_exists. exists n. split; [apply elem_of_dir; eauto|].
    unfold is_array_attr, get. by rewrite Hv, Hit, Ht.
Qed.

(** X8: on an event list whose [time] is [None], as [EventList()] makes
    it, [array_attrs] raises [AttributeError] ([None] has no [shape]), and
    so does everything that starts with it: [meta_attrs], [apply_mask] (on
    a list that holds no [array_attrs] of its own), [get_meta_dict],
    [to_astropy_table] and [to_pandas]. *)
Theorem no_time_raises σ self n v :
  attr σ self "time" = Some VNone →
  attr σ self n = Some v → is_iterable v = true →
  array_attrs self σ = Raise AttributeError
  ∧ meta_attrs self σ = Raise AttributeError
  ∧ (holds σ self "array_attrs" = false →
     ∀ mask inplace, apply_mask self mask inplace σ = Raise AttributeError)
  ∧ get_meta_dict self σ = Raise AttributeError
  ∧ to_astropy_table self σ = Raise AttributeError
  ∧ to_pandas self σ = Raise AttributeError.
Proof.
  intros Ht Hv Hit. destruct (attr_is_Some _ _ _ _ Ht) as [o Hs].
  rewrite (attr_lookup _ _ _ "time" Hs) in Ht.
  rewrite (attr_lookup _ _ _ n Hs) in Hv.
  pose proof (array_attrs_of_no_time o n v Ht Hv Hit) as Hraise.
  assert (array_attrs self σ = Raise AttributeError) as Harr.
  { unfold array_attrs. erewrite bind_deref by done. by rewrite Hraise. }
  assert (meta_attrs self σ = Raise AttributeError) as Hmeta.
  { unfold meta_attrs. erewrite bind_deref by done.
    unfold meta_attrs_of. by rewrite Hraise. }
  split; [done|]. split; [done|]. split; [|split; [|split]].
  - intros Hown mask inplace. unfold apply_mask. apply bind_raise.
    rewrite (method_self σ self o); [done|done|].
    unfold holds in Hown. rewrite Hs in Hown. simpl in Hown.
    by destruct (o !! "array_attrs").
  - unfold get_meta_dict. by apply bind_raise.
  - unfold to_astropy_table. by apply bind_raise.
  - unfold to_pandas. by apply bind_raise.
Qed.

Lemma no_time_raises_witness :
  array_attrs 0%nat empty_store = Raise AttributeError
  ∧ meta_attrs 0%nat empty_store = Raise AttributeError
  ∧ (∀ mask inplace,
       apply_mask 0%nat mask inplace empty_store = Raise AttributeError)
  ∧ get_meta_dict 0%nat empty_store = Raise AttributeError
  ∧ to_astropy_table 0%nat empty_store = Raise AttributeError
  ∧ to_pandas 0%nat empty_store = Raise AttributeError.
Proof.
  destruct (no_time_raises empty_store 0%nat "notes" (VStr ""))
    as (Harr & Hmeta & Hmask & Hdict & Htable & Hpandas);
    [vm_compute; reflexivity..|].
  split; [exact Harr|]. split; [exact Hmeta|].
  split; [|exact (conj Hdict (conj Htable Hpandas))].
  apply Hmask. vm_compute. reflexivity.
Defined.

(** The keys and values of the dictionary that [get_meta_dict] builds. *)
Lemma meta_dict_get o sh n v :
  dict_get (foldl (meta_step o) [] (List.filter (is_meta o sh) (dir o))) n
  = Some v ↔
  lookup_attr o n = Some v ∧ v ≠ VNone ∧ ¬ array_like sh v
  ∧ startswith "_" n = false ∧ callable v = false.
Proof.
  rewrite meta_fold_get. simpl.
  destruct (decide (n ∈ List.filter (is_meta o sh) (dir o))) as [Hin|Hnin].
  - apply elem_of_filter_bool in Hin as [_ Hm].
    apply is_meta_iff in Hm as (w & Hw & Ha & Hp & Hc). rewrite Hw.
    destruct (is_none w) eqn:Hn.
    + split; [done|]. intros ([= ->] & Hnone & _). by destruct v.
    + split.
      * intros [= ->]. split; [done|]. split; [|done]. by intros ->.
      * by intros ([= ->] & _).
  - split; [done|]. intros (Hv & _ & Ha & Hp & Hc). destruct Hnin.
    apply elem_of_filter_bool. split; [apply elem_of_dir; eauto|].
    apply is_meta_iff. eauto.
Qed.

(** X9: for an event list with times, [get_meta_dict] returns a
    dictionary and leaves the store as it is; each key is there once, and
    [n] is a key with the value [v] exactly when [n] is an attribute with
    the value [v], [v] is not [None], [n] is not private, [v] is not
    callable and [v] is not an array attribute (iterable, of the shape of
    [time]). *)
Theorem get_meta_dict_spec σ self time sh :
  attr σ self "time" = Some time → shape_of time = Ok sh →
  ∃ d,
    get_meta_dict self σ = Ok (d, σ)
    ∧ NoDup d.*1
    ∧ (∀ n v, dict_get d n = Some v ↔
         attr σ self n = Some v ∧ v ≠ VNone ∧ ¬ array_like sh v
         ∧ startswith "_" n = false ∧ callable v = false).
Proof.
  intros Ht Hsh. destruct (attr_is_Some _ _ _ _ Ht) as [o Hs].
  rewrite (attr_lookup _ _ _ "time" Hs) in Ht.
  eexists. split; [by eapply get_meta_dict_eq|].
  split; [apply meta_fold_NoDup, NoDup_nil_2|].
  intros n v. rewrite (attr_lookup _ _ _ n Hs). apply meta_dict_get.
Qed.

Lemma get_meta_dict_spec_witness :
  ∃ d,
    get_meta_dict 0%nat bubu_store = Ok (d, bubu_store)
    ∧ NoDup d.*1
    ∧ (∀ n v, dict_get d n = Some v ↔
         attr bubu_store 0%nat n = Some v ∧ v ≠ VNone ∧ ¬ array_like [3%nat] v
         ∧ startswith "_" n = false ∧ callable v = false).
Proof.
  apply (get_meta_dict_spec bubu_store 0%nat (VArr [0; 1; 2]%Q) [3%nat]).
  - vm_compute. reflexivity.
  - reflexivity.
Defined.

(** X10: for an event list with times, [to_astropy_table] and
    [to_pandas] make their table from the same columns and meta data and
    leave the store as it is.  The columns are the array attributes, [time]
    among them, in the order of [array_attrs]; the meta data are those of
    [get_meta_dict].  No name is both a column and a meta datum, and every
    attribute that is not [None], not private and not callable is one of
    the two. *)
Theorem to_astropy_table_spec σ self time sh :
  attr σ self "time" = Some time → shape_of time = Ok sh →
  ∃ tb arr meta,
    to_astropy_table self σ = Ok (tb, σ)
    ∧ to_pandas self σ = Ok (make_DataFrame (tb_data tb) (tb_meta tb), σ)
    ∧ array_attrs self σ = Ok (arr, σ)
    ∧ get_meta_dict self σ = Ok (meta, σ)
    ∧ (tb_data tb).*1 = arr
    ∧ tb_meta tb = meta
    ∧ dict_get (tb_data tb) "time" = Some time
    ∧ (∀ n v, dict_get (tb_data tb) n = Some v ↔
         attr σ self n = Some v ∧ array_like sh v)
    ∧ (∀ n, dict_get (tb_data tb) n = None ∨ dict_get (tb_meta tb) n = None)
    ∧ (∀ n v, attr σ self n = Some v → v ≠ VNone →
         startswith "_" n = false → callable v = false →
         dict_get (tb_data tb) n = Some v ∨ dict_get (tb_meta tb) n = Some v).
Proof.
  intros Ht Hsh.
  destruct (array_attrs_eq _ _ _ _ Ht Hsh) as (o & Hs & Harr & _).
  pose proof Ht as Ht'. rewrite (attr_lookup _ _ _ "time" Hs) in Ht'.
  pose proof (get_meta_dict_eq σ self o time sh Hs Ht' Hsh) as Hmeta.
  set (meta := foldl (meta_step o) [] (List.filter (is_meta o sh) (dir o))) in *.
  assert (NoDup meta.*1) as Hnd by apply meta_fold_NoDup, NoDup_nil_2.
  assert (∀ n v, dict_get meta n = Some v ↔
            attr σ self n = Some v ∧ v ≠ VNone ∧ ¬ array_like sh v
            ∧ startswith "_" n = false ∧ callable v = false) as Hget.
  { intros n v. rewrite (attr_lookup _ _ _ n Hs). apply meta_dict_get. }
  pose proof (columns_eq σ self o time sh Hs Ht' Hsh) as Hcols.
  set (arr := List.filter (is_array o sh) (dir o)) in *.
  set (data := foldl (column_step o) [] arr) in *.
  assert (∀ n v, dict_get data n = Some v ↔
            attr σ self n = Some v ∧ array_like sh v) as Hdata.
  { intros n v. unfold data.
    rewrite column_fold_get by apply array_attrs_present.
    rewrite (attr_lookup _ _ _ n Hs). simpl.
    destruct (decide (n ∈ arr)) as [Hin|Hnin].
    - apply elem_of_filter_bool in Hin as [_ Ha].
      apply is_array_iff in Ha as (w & Hw & Ha). rewrite Hw.
      split; [by intros [= ->]|]. by intros [? _].
    - split; [done|]. intros [Hv Ha]. destruct Hnin.
      apply elem_of_filter_bool. split; [apply elem_of_dir; eauto|].
      apply is_array_iff. eauto. }
  exists (make_Table data meta), arr, meta.
  assert (dict_update [] meta = meta) as Hupd
    by (by apply dict_update_new).
  split; [|split].
  - unfold to_astropy_table. rewrite (bind_eq _ _ _ _ _ Harr).
    rewrite (bind_eq _ _ _ _ _ Hcols), (bind_eq _ _ _ _ _ Hmeta).
    by rewrite Hupd.
  - unfold to_pandas. rewrite (bind_eq _ _ _ _ _ Harr).
    rewrite (bind_eq _ _ _ _ _ Hcols), (bind_eq _ _ _ _ _ Hmeta).
    by rewrite Hupd.
  - split; [done|]. split; [done|]. cbn [tb_data tb_meta]. split.
    { unfold data. rewrite column_fold_keys; [done|apply array_attrs_present|].
      simpl. apply NoDup_filter_bool, NoDup_dir. }
    split; [done|]. split.
    { apply Hdata. split; [done|]. unfold array_like.
      destruct time; simplify_eq/=; done. }
    split; [done|]. split.
    + intros n. destruct (dict_get data n) as [v|] eqn:Hv; [|by left].
      right. apply Hdata in Hv as [Hv Ha].
      destruct (dict_get meta n) as [w|] eqn:Hw; [|done].
      apply Hget in Hw as (Hw & _ & Hna & _). by simplify_eq.
    + intros n v Hv Hnone Hp Hc.
      destruct (decide (array_like sh v)) as [Ha|Ha].
      * left. by apply Hdata.
      * right. by apply Hget.
Qed.

Lemma to_astropy_table_spec_witness :
  ∃ tb arr meta,
    to_astropy_table 0%nat bubu_store = Ok (tb, bubu_store)
    ∧ to_pandas 0%nat bubu_store
      = Ok (make_DataFrame (tb_data tb) (tb_meta tb), bubu_store)
    ∧ array_attrs 0%nat bubu_store = Ok (arr, bubu_store)
    ∧ get_meta_dict 0%nat bubu_store = Ok (meta, bubu_store)
    ∧ (tb_data tb).*1 = arr
    ∧ tb_meta tb = meta
    ∧ dict_get (tb_data tb) "time" = Some (VArr [0; 1; 2]%Q)
    ∧ (∀ n v, dict_get (tb_data tb) n = Some v ↔
         attr bubu_store 0%nat n = Some v ∧ array_like [3%nat] v)
    ∧ (∀ n, dict_get (tb_data tb) n = None ∨ dict_get (tb_meta tb) n = None)
    ∧ (∀ n v, attr bubu_store 0%nat n = Some v → v ≠ VNone →
         startswith "_" n = false → callable v = false →
         dict_get (tb_data tb) n = Some v ∨ dict_get (tb_meta tb) n = Some v).
Proof.
  apply (to_astropy_table_spec bubu_store 0%nat (VArr [0; 1; 2]%Q) [3%nat]).
  - vm_compute. reflexivity.
  - reflexivity.
Defined.

(** ** Masks and energy ranges *)

Lemma mask_first_raises self new mask n0 rest (a : list Q) σ :
  attr σ self n0 = Some (VArr a) →
  length (mask_bits mask) ≠ length a → mask ≠ MaskList [] →
  for_each (n0 :: rest) (λ name,
    let* has := hasattr self name in
    if has then
      let* v := getattr self name in
      if negb (is_none v) then
        let* m := lift (value_getmask (np_asarray v) mask) in
        setattr new name m
      else ret tt
    else ret tt) σ = Raise IndexError.
Proof.
  intros Ha Hlen Hm. cbn [for_each]. rewrite bind_assoc.
  erewrite bind_eq by (by eapply hasattr_eq).
  cbv beta iota. rewrite bind_assoc.
  erewrite bind_getattr by done.
  cbn [is_none negb np_asarray value_getmask].
  by rewrite np_getmask_raise.
Qed.

Lemma select_nil {A} (a : list A) : select a [] = [].
Proof. by destruct a. Qed.

Lemma holds_lookup σ r o n :
  holds σ r n = false → heap σ !! r = Some o → o !! n = None.
Proof.
  unfold holds. intros Hown Hr. rewrite Hr in Hown. simpl in Hown.
  by destruct (o !! n).
Qed.

(** X11: on a list that holds no [array_attrs] of its own, [apply_mask]
    with a mask that is not as long as [time] raises [IndexError], with and
    without [inplace].  The empty list as a mask is the one exception:
    numpy takes it for an empty array of indices, so [apply_mask] returns,
    and in the result [time] and every other array attribute are empty. *)
Theorem apply_mask_wrong_length σ s t mask inplace :
  attr σ s "time" = Some (VArr t) →
  length (mask_bits mask) ≠ length t →
  holds σ s "array_attrs" = false →
  (mask ≠ MaskList [] → apply_mask s mask inplace σ = Raise IndexError)
  ∧ (mask = MaskList [] →
     ∃ arr r σ',
       array_attrs s σ = Ok (arr, σ)
       ∧ apply_mask s mask inplace σ = Ok (r, σ')
       ∧ (if inplace then r = s else heap σ !! r = None)
       ∧ attr σ' r "time" = Some (VArr [])
       ∧ ∀ n, n ∈ arr → attr σ' r n = Some (VArr [])).
Proof.
  intros Ht Hlen Hown. destruct (attr_is_Some _ _ _ _ Ht) as [o Hs].
  pose proof (holds_lookup _ _ _ _ Hown Hs) as Hown_arr.
  pose proof Ht as Ht'.
  rewrite (attr_lookup _ _ _ "time" Hs) in Ht.
  pose proof (time_is_array o t Ht) as Hin. split.
  - intros Hmask. unfold apply_mask.
    rewrite (bind_eq _ _ _ _ _ (array_attrs_run σ s o t Hs Hown_arr Ht)).
    destruct (List.filter (is_array o [length t]) (dir o)) as [|n0 rest] eqn:Harr;
      [by apply not_elem_of_nil in Hin|].
    assert (is_array o [length t] n0 = true) as Hn0.
    { assert (n0 ∈ List.filter (is_array o [length t]) (dir o)) as H0
        by (rewrite Harr; left).
      by apply elem_of_filter_bool in H0 as [_ ?]. }
    apply is_array_VArr in Hn0 as (a & Ha & Hla).
    destruct inplace.
    + rewrite bind_ret. apply bind_raise.
      apply (mask_first_raises _ _ _ _ _ a); [by erewrite attr_lookup|lia|done].
    + set (r := fresh (dom (heap σ))).
      assert (heap σ !! r = None) as Hr by apply fresh_heap.
      assert (r ≠ s) as Hrs by (intros ->; congruence).
      rewrite !bind_assoc. erewrite bind_eq by apply EventList_nil. fold r.
      rewrite bind_assoc.
      erewrite bind_deref by (simpl; by rewrite lookup_insert_ne).
      rewrite bind_assoc.
      erewrite bind_eq by (apply copy_loop; [done|done|apply dir_present]).
      rewrite bind_ret. apply bind_raise.
      apply (mask_first_raises _ _ _ _ _ a); [|lia|done].
      rewrite attr_insert, decide_False by done. by erewrite attr_lookup.
  - intros ->.
    destruct (array_attrs_eq σ s (VArr t) [length t] Ht' eq_refl)
      as (o' & Hs' & Harr & _).
    assert (o' = o) as -> by congruence.
    exists (List.filter (is_array o [length t]) (dir o)).
    assert (∀ acc n, n ∈ List.filter (is_array o [length t]) (dir o) →
      lookup_attr (foldl (mask_step o []) acc
                     (List.filter (is_array o [length t]) (dir o))) n
      = Some (VArr [])) as Hempty.
    { intros acc n Hn.
      destruct (masked_attr o (length t) [] acc n Hn) as (a & _ & _ & ->).
      by rewrite select_nil. }
    destruct inplace.
    + eexists s, _. split; [done|].
      split; [eapply apply_mask_inplace_eq; eauto|]. split; [done|].
      cbn [mask_bits]. split.
      * rewrite attr_insert, decide_True by done. by apply Hempty.
      * intros n Hn. rewrite attr_insert, decide_True by done. by apply Hempty.
    + eexists _, _. split; [done|].
      split; [eapply apply_mask_copy_eq; eauto|]. split; [apply fresh_heap|].
      cbn [mask_bits]. split.
      * rewrite attr_insert, decide_True by done. by apply Hempty.
      * intros n Hn. rewrite attr_insert, decide_True by done. by apply Hempty.
Qed.

Lemma apply_mask_wrong_length_witness :
  apply_mask 0%nat (MaskList [true; false]) false bubu_store = Raise IndexError
  ∧ ∃ r σ',
      apply_mask 0%nat (MaskList []) false bubu_store = Ok (r, σ')
      ∧ attr σ' r "time" = Some (VArr [])
      ∧ attr σ' r "bubuattr" = Some (VArr []).
Proof.
  split.
  - apply (apply_mask_wrong_length bubu_store 0%nat [0; 1; 2]%Q).
    + vm_compute. reflexivity.
    + simpl. lia.
    + vm_compute. reflexivity.
    + discriminate.
  - destruct (apply_mask_wrong_length bubu_store 0%nat [0; 1; 2]%Q
                (MaskList []) false) as [_ Hempty].
    + vm_compute. reflexivity.
    + simpl. lia.
    + vm_compute. reflexivity.
    + destruct (Hempty eq_refl) as (arr & r & σ' & Hnames & Hrun & _ & Ht & Harr).
      exists r, σ'. split; [exact Hrun|]. split; [exact Ht|].
      apply Harr. vm_compute in Hnames. injection Hnames as <-. by left.
Defined.

(** [filter_energy_range] on the energies, not in place, on a list whose
    [array_attrs] and [apply_mask] are those of the class. *)
Lemma filter_energy_range_copy σ s o t e lo hi :
  heap σ !! s = Some o →
  o !! "array_attrs" = None → o !! "apply_mask" = None →
  lookup_attr o "time" = Some (VArr t) →
  lookup_attr o "energy" = Some (VArr e) →
  length e = length t →
  let bits := (λ v, Qle_bool lo v && Qltb v hi) <$> e in
  let arr := List.filter (is_array o [length t]) (dir o) in
  filter_energy_range s (lo, hi) false false σ
  = Ok (fresh (dom (heap σ)),
        State (<[fresh (dom (heap σ)) :=
                   foldl (mask_step o bits)
                     (foldl (copy_step s o arr) empty_event (dir o)) arr]>
                 (heap σ)) (warnings σ))
  ∧ ∀ acc,
      lookup_attr (foldl (mask_step o bits) acc arr) "time"
      = Some (VArr (select t bits))
      ∧ lookup_attr (foldl (mask_step o bits) acc arr) "energy"
        = Some (VArr (select e bits)).
Proof.
  intros Hs Hown_arr Hown_mask Ht He Hlen bits arr.
  assert ("energy" ∈ arr) as Hname.
  { apply elem_of_filter_bool. split; [apply elem_of_dir; eauto|].
    unfold is_array. rewrite He. simpl. apply bool_decide_eq_true. by rewrite Hlen. }
  pose proof (time_is_array o t Ht) as Htime. split.
  - unfold filter_energy_range. cbn [fst snd].
    erewrite bind_getattr by (by erewrite attr_lookup).
    cbn [range_mask]. rewrite bind_lift.
    rewrite (method_self σ s o) by done.
    eapply apply_mask_copy_eq; [done..|].
    left. simpl. by rewrite length_fmap.
  - intros acc. split.
    + destruct (masked_attr o (length t) bits acc "time" Htime)
        as (a & Ha & _ & Hres).
      assert (a = t) as -> by congruence. exact Hres.
    + destruct (masked_attr o (length t) bits acc "energy" Hname)
        as (a & Ha & _ & Hres).
      assert (a = e) as -> by congruence. exact Hres.
Qed.

(** What the copy of [apply_mask] holds under the name of a method. *)
Lemma copy_holds_method s o sh bits n :
  o !! n = None → is_method n →
  foldl (mask_step o bits)
    (foldl (copy_step s o (List.filter (is_array o sh) (dir o)))
       empty_event (dir o))
    (List.filter (is_array o sh) (dir o)) !! n
  = Some (VMethod n s).
Proof.
  intros Hown [Hm Hstatic].
  set (o1 := foldl _ _ _).
  assert (lookup_attr o1 n = Some (VMethod n s)) as Hl.
  { unfold o1. rewrite lookup_attr_mask_fold by apply array_attrs_present.
    rewrite decide_False.
    2:{ intros [_ Ha]%elem_of_filter_bool.
        by rewrite (method_not_array o _ n) in Ha. }
    rewrite lookup_attr_copy_fold by apply dir_present.
    rewrite decide_True.
    - by apply bound_method.
    - split; [by apply method_in_dir|]. split; [by apply method_public|].
      intros [_ Ha]%elem_of_filter_bool.
      by rewrite (method_not_array o _ n) in Ha. }
  unfold lookup_attr in Hl. destruct (o1 !! n); [done|].
  by rewrite (class_dict_method n Hm) in Hl.
Qed.

(** X12: a filter does not narrow the result of an earlier filter.  The
    list that [filter_energy_range] returns without [inplace] holds the
    methods of the list it was made from, so [filter_energy_range] called
    on it runs on that list: it returns the events of the first list that
    are in the second range, whether they are in the first range or not,
    and leaves both lists as they were. *)
Theorem filter_energy_range_of_copy σ s t e lo1 hi1 lo2 hi2 :
  attr σ s "time" = Some (VArr t) →
  attr σ s "energy" = Some (VArr e) →
  length e = length t →
  plain σ s = true →
  let keep1 := λ v, Qle_bool lo1 v && Qltb v hi1 in
  let keep2 := λ v, Qle_bool lo2 v && Qltb v hi2 in
  ∃ r1 σ1 r2 σ2,
    method s "filter_energy_range"
      (λ self, filter_energy_range self (lo1, hi1) false false) σ
    = Ok (r1, σ1)
    ∧ attr σ1 r1 "time" = Some (VArr (select t (keep1 <$> e)))
    ∧ attr σ1 r1 "energy" = Some (VArr (List.filter keep1 e))
    ∧ attr σ1 r1 "filter_energy_range" = Some (VMethod "filter_energy_range" s)
    ∧ method r1 "filter_energy_range"
        (λ self, filter_energy_range self (lo2, hi2) false false) σ1
      = Ok (r2, σ2)
    ∧ r2 ≠ r1 ∧ r2 ≠ s
    ∧ attr σ2 r2 "time" = Some (VArr (select t (keep2 <$> e)))
    ∧ attr σ2 r2 "energy" = Some (VArr (List.filter keep2 e))
    ∧ (∀ n, attr σ2 r1 n = attr σ1 r1 n)
    ∧ (∀ n, attr σ2 s n = attr σ s n).
Proof.
  intros Ht He Hlen Hplain keep1 keep2.
  destruct (attr_is_Some _ _ _ _ Ht) as [o Hs].
  assert (∀ n, n ∈ methods → o !! n = None) as Hown
    by (intros n; by apply (plain_lookup σ s)).
  assert (o !! "array_attrs" = None) as Hown_arr by (apply Hown; solve_method).
  assert (o !! "apply_mask" = None) as Hown_mask by (apply Hown; solve_method).
  assert (o !! "filter_energy_range" = None) as Hown_filter
    by (apply Hown; solve_method).
  rewrite (attr_lookup _ _ _ "time" Hs) in Ht.
  rewrite (attr_lookup _ _ _ "energy" Hs) in He.
  destruct (filter_energy_range_copy σ s o t e lo1 hi1 Hs Hown_arr Hown_mask
              Ht He Hlen) as [Hrun1 Hres1].
  set (r1 := fresh (dom (heap σ))) in *.
  assert (heap σ !! r1 = None) as Hr1 by apply fresh_heap.
  assert (r1 ≠ s) as Hr1s by (intros Heq; rewrite Heq in Hr1; congruence).
  set (o1 := foldl (mask_step o (keep1 <$> e))
               (foldl (copy_step s o (List.filter (is_array o [length t]) (dir o)))
                  empty_event (dir o))
               (List.filter (is_array o [length t]) (dir o))) in *.
  set (σ1 := State (<[r1 := o1]> (heap σ)) (warnings σ)) in *.
  assert (heap σ1 !! s = Some o) as Hs1 by (simpl; by rewrite lookup_insert_ne).
  assert (heap σ1 !! r1 = Some o1) as Hr11 by (simpl; apply lookup_insert_eq).
  assert (o1 !! "filter_energy_range" = Some (VMethod "filter_energy_range" s))
    as Hmeth.
  { apply copy_holds_method; [done|]. split; solve_method. }
  destruct (filter_energy_range_copy σ1 s o t e lo2 hi2 Hs1 Hown_arr Hown_mask
              Ht He Hlen) as [Hrun2 Hres2].
  set (r2 := fresh (dom (heap σ1))) in *.
  assert (heap σ1 !! r2 = None) as Hr2 by apply fresh_heap.
  assert (r2 ≠ r1) as Hr21 by (intros Heq; rewrite Heq in Hr2; congruence).
  assert (r2 ≠ s) as Hr2s by (intros Heq; rewrite Heq in Hr2; congruence).
  exists r1, σ1, r2. eexists.
  split; [by rewrite (method_self σ s o)|].
  destruct (Hres1 (foldl (copy_step s o (List.filter (is_array o [length t]) (dir o)))
                     empty_event (dir o))) as [Ht1 He1].
  split; [unfold σ1; by rewrite attr_insert, decide_True|].
  split.
  { unfold σ1. rewrite attr_insert, decide_True by done.
    rewrite <- select_filter. exact He1. }
  split.
  { unfold σ1. rewrite attr_insert, decide_True by done.
    unfold lookup_attr. by rewrite Hmeth. }
  split; [by rewrite (method_bound σ1 r1 o1 _ s)|].
  split; [done|]. split; [done|].
  destruct (Hres2 (foldl (copy_step s o (List.filter (is_array o [length t]) (dir o)))
                     empty_event (dir o))) as [Ht2 He2].
  split; [by rewrite attr_insert, decide_True|].
  split.
  { rewrite attr_insert, decide_True by done.
    rewrite <- select_filter. exact He2. }
  split.
  - intros n. by rewrite attr_insert, decide_False.
  - intros n. rewrite attr_insert, decide_False by done.
    rewrite attr_heap. unfold σ1. by rewrite attr_insert, decide_False.
Qed.

Lemma filter_energy_range_of_copy_witness :
  ∃ r1 σ1 r2 σ2,
    method 0%nat "filter_energy_range"
      (λ self, filter_energy_range self (0, 1)%Q false false) energy_store
    = Ok (r1, σ1)
    ∧ attr σ1 r1 "time" = Some (VArr [0; 1]%Q)
    ∧ method r1 "filter_energy_range"
        (λ self, filter_energy_range self (2 # 5, 3)%Q false false) σ1
      = Ok (r2, σ2)
    ∧ attr σ2 r2 "time" = Some (VArr [1; 2]%Q)
    ∧ attr σ2 r2 "energy" = Some (VArr [1 # 2; 2]%Q).
Proof.
  destruct (filter_energy_range_of_copy energy_store 0%nat [0; 1; 2]%Q
              [3 # 10; 1 # 2; 2]%Q 0 1 (2 # 5) 3)
    as (r1 & σ1 & r2 & σ2 & Hrun1 & Ht1 & _ & _ & Hrun2 & _ & _ & Ht2 & He2 & _).
  - vm_compute. reflexivity.
  - vm_compute. reflexivity.
  - reflexivity.
  - vm_compute. reflexivity.
  - exists r1, σ1, r2, σ2. split; [exact Hrun1|]. split; [exact Ht1|].
    split; [exact Hrun2|]. split; [exact Ht2|exact He2].
Defined.

(** ** [shift] and [change_mjdref] *)

Lemma shift_no_gti σ s t d :
  attr σ s "time" = Some (VArr t) → attr σ s "gti" = Some VNone →
  shift s d σ = Raise TypeError.
Proof.
  intros Ht Hg. destruct (attr_is_Some _ _ _ _ Ht) as [o Ho].
  assert (heap σ !! fresh (dom (heap σ)) = None) as Hfresh by apply fresh_heap.
  rewrite (attr_lookup _ _ _ "time" Ho) in Ht.
  rewrite (attr_lookup _ _ _ "gti" Ho) in Hg.
  unfold shift, deepcopy.
  rewrite bind_assoc. erewrite bind_deref by done. rewrite bind_alloc.
  by repeat run_step.
Qed.

(** X13: [shift], and with it [change_mjdref], raises [TypeError] on an
    event list that has times and no GTIs: the shift is added to [gti],
    which is [None]. *)
Theorem shift_without_gti σ s t m :
  attr σ s "time" = Some (VArr t) → attr σ s "gti" = Some VNone →
  attr σ s "mjdref" = Some (VNum m) →
  (∀ d, shift s d σ = Raise TypeError)
  ∧ (∀ m', change_mjdref s m' σ = Raise TypeError).
Proof.
  intros Ht Hg Hm. split.
  - intros d. by eapply shift_no_gti.
  - intros m'. by eapply change_mjdref_no_gti.
Qed.

Lemma shift_without_gti_witness :
  (∀ d, shift 0%nat d no_gti_store = Raise TypeError)
  ∧ (∀ m', change_mjdref 0%nat m' no_gti_store = Raise TypeError).
Proof.
  apply (shift_without_gti no_gti_store 0%nat [1; 2]%Q 0);
    vm_compute; reflexivity.
Defined.

(** [change_mjdref] on a list with times and GTIs. *)
Lemma change_mjdref_run σ s t g m m' :
  attr σ s "time" = Some (VArr t) → attr σ s "gti" = Some (VArr2 g) →
  attr σ s "mjdref" = Some (VNum m) →
  ∃ r σ',
    change_mjdref s m' σ = Ok (r, σ')
    ∧ heap σ !! r = None
    ∧ (∀ r' n, r' ≠ r → attr σ' r' n = attr σ r' n)
    ∧ attr σ' r "mjdref" = Some (VNum m')
    ∧ attr σ' r "time" = Some (VArr (shift_times (epoch_shift m' m) t))
    ∧ attr σ' r "gti" = Some (VArr2 (shift_gti (epoch_shift m' m) g))
    ∧ (∀ n, n ≠ "time" → n ≠ "gti" → n ≠ "mjdref" →
         attr σ' r n = attr σ s n).
Proof.
  intros Ht Hg Hm. destruct (attr_is_Some _ _ _ _ Ht) as [o Ho].
  rewrite (attr_lookup _ _ _ "time" Ho) in Ht.
  rewrite (attr_lookup _ _ _ "gti" Ho) in Hg.
  rewrite (attr_lookup _ _ _ "mjdref" Ho) in Hm.
  eexists _, _. split.
  { by eapply (change_mjdref_eq σ s o m (VArr t) (VArr2 g)). }
  split; [apply fresh_heap|]. split; [|split; [|split; [|split]]].
  - intros r' n Hne. by rewrite attr_insert, decide_False.
  - rewrite attr_insert, decide_True by done.
    by rewrite lookup_attr_insert, decide_True.
  - rewrite attr_insert, decide_True by done.
    by rewrite !lookup_attr_insert, decide_False, decide_False, decide_True.
  - rewrite attr_insert, decide_True by done.
    by rewrite !lookup_attr_insert, decide_False, decide_True.
  - intros n ???. rewrite attr_insert, decide_True by done.
    rewrite !lookup_attr_insert, !decide_False by done.
    by erewrite attr_lookup.
Qed.

(** X14: [change_mjdref] returns a new instance and leaves the list and
    every other instance as they were; the new instance has the new
    [mjdref] and the other attributes of the list, and the shift, the
    difference of the two epochs in seconds as floats give it, is added to
    each time and each GTI boundary.  Where nothing is rounded, as for
    whole days and whole seconds, these are the same instants as before:
    counted in seconds from MJD 0 instead of from [mjdref], they are
    unchanged. *)
Theorem change_mjdref_keeps_instants σ s t g m m' :
  attr σ s "time" = Some (VArr t) → attr σ s "gti" = Some (VArr2 g) →
  attr σ s "mjdref" = Some (VNum m) →
  ∃ r σ' t' g',
    change_mjdref s m' σ = Ok (r, σ')
    ∧ heap σ !! r = None
    ∧ (∀ r' n, r' ≠ r → attr σ' r' n = attr σ r' n)
    ∧ attr σ' r "mjdref" = Some (VNum m')
    ∧ attr σ' r "time" = Some (VArr t')
    ∧ attr σ' r "gti" = Some (VArr2 g')
    ∧ t' = (λ x, fadd x (fmul (fsub m m') 86400)) <$> t
    ∧ g' = (λ i, (fadd i.1 (fmul (fsub m m') 86400),
                  fadd i.2 (fmul (fsub m m') 86400))) <$> g
    ∧ (exact_epochs m m' → Forall (exact_add (epoch_shift m' m)) t →
       Forall2 (λ x y, absolute m' y == absolute m x) t t')
    ∧ (exact_epochs m m' →
       Forall (λ i, exact_add (epoch_shift m' m) i.1
                    ∧ exact_add (epoch_shift m' m) i.2) g →
       Forall2 (λ i j, absolute m' j.1 == absolute m i.1
                       ∧ absolute m' j.2 == absolute m i.2) g g')
    ∧ (∀ n, n ≠ "time" → n ≠ "gti" → n ≠ "mjdref" →
         attr σ' r n = attr σ s n).
Proof.
  intros Ht Hg Hm.
  destruct (change_mjdref_run σ s t g m m' Ht Hg Hm)
    as (r & σ' & Hrun & Hfresh & Hframe & Hm' & Ht' & Hg' & Hrest).
  exists r, σ'. eexists _, _.
  split; [done|]. split; [done|]. split; [done|]. split; [done|].
  split; [exact Ht'|]. split; [exact Hg'|].
  split; [done|]. split; [done|]. split; [|split; [|done]].
  - intros Hshift Hsums. unfold shift_times.
    apply Forall2_fmap_r, Forall_Forall2_diag.
    eapply Forall_impl; [exact Hsums|]. intros x Hx.
    unfold exact_add in Hx. unfold exact_epochs in Hshift.
    unfold absolute, compose. cbv beta. rewrite Hx, Hshift. ring.
  - intros Hshift Hsums. unfold shift_gti.
    apply Forall2_fmap_r, Forall_Forall2_diag.
    eapply Forall_impl; [exact Hsums|]. intros i [H1 H2].
    unfold exact_add in H1, H2. unfold exact_epochs in Hshift.
    unfold absolute, compose. cbn [fst snd]. rewrite H1, H2, Hshift.
    split; ring.
Qed.

Lemma change_mjdref_keeps_instants_witness :
  ∃ r σ' t' g',
    change_mjdref 0%nat 55001 mjdref_store = Ok (r, σ')
    ∧ heap mjdref_store !! r = None
    ∧ attr σ' r "mjdref" = Some (VNum 55001)
    ∧ attr σ' r "time" = Some (VArr t')
    ∧ attr σ' r "gti" = Some (VArr2 g')
    ∧ Forall2 (λ x y, absolute 55001 y == absolute 55000 x) [10; 20]%Q t'
    ∧ Forall2 (λ i j, absolute 55001 j.1 == absolute 55000 i.1
                      ∧ absolute 55001 j.2 == absolute 55000 i.2)
        [(0, 30)%Q] g'.
Proof.
  destruct (change_mjdref_keeps_instants mjdref_store 0%nat [10; 20]%Q
              [(0, 30)%Q] 55000 55001)
    as (r & σ' & t' & g' & Hrun & Hfresh & _ & Hm & Ht & Hg & _ & _ & Hti & Hgi & _).
  - vm_compute. reflexivity.
  - vm_compute. reflexivity.
  - vm_compute. reflexivity.
  - exists r, σ', t', g'. split; [exact Hrun|]. split; [exact Hfresh|].
    split; [exact Hm|]. split; [exact Ht|]. split; [exact Hg|]. split.
    + apply Hti; [vm_compute; reflexivity|].
      repeat constructor; vm_compute; reflexivity.
    + apply Hgi; [vm_compute; reflexivity|].
      repeat constructor; vm_compute; reflexivity.
Defined.

(** X15: changing the epoch and changing it back gives a list with the
    [mjdref] of the first one and its other attributes; each time and each
    GTI boundary has had the two shifts added, one after the other, and is
    the number it was where neither the shifts nor the sums are rounded. *)
Theorem change_mjdref_round_trip σ s t g m m' :
  attr σ s "time" = Some (VArr t) → attr σ s "gti" = Some (VArr2 g) →
  attr σ s "mjdref" = Some (VNum m) →
  let there := epoch_shift m' m in
  let back := epoch_shift m m' in
  let exact x := exact_add there x ∧ exact_add back (fadd x there) in
  ∃ r1 σ1 r2 σ2 t2 g2,
    change_mjdref s m' σ = Ok (r1, σ1)
    ∧ change_mjdref r1 m σ1 = Ok (r2, σ2)
    ∧ attr σ2 r2 "mjdref" = Some (VNum m)
    ∧ attr σ2 r2 "time" = Some (VArr t2)
    ∧ attr σ2 r2 "gti" = Some (VArr2 g2)
    ∧ t2 = (λ x, fadd (fadd x there) back) <$> t
    ∧ g2 = (λ i, (fadd (fadd i.1 there) back, fadd (fadd i.2 there) back)) <$> g
    ∧ (exact_epochs m m' → exact_epochs m' m → Forall exact t →
       Forall2 Qeq t t2)
    ∧ (exact_epochs m m' → exact_epochs m' m →
       Forall (λ i, exact i.1 ∧ exact i.2) g →
       Forall2 (λ i j, i.1 == j.1 ∧ i.2 == j.2) g g2)
    ∧ (∀ n, n ≠ "time" → n ≠ "gti" → n ≠ "mjdref" →
         attr σ2 r2 n = attr σ s n).
Proof.
  intros Ht Hg Hm there back exact.
  destruct (change_mjdref_run σ s t g m m' Ht Hg Hm)
    as (r1 & σ1 & Hrun1 & _ & _ & Hm1 & Ht1 & Hg1 & Hrest1).
  destruct (change_mjdref_run σ1 r1 _ _ m' m Ht1 Hg1 Hm1)
    as (r2 & σ2 & Hrun2 & _ & _ & Hm2 & Ht2 & Hg2 & Hrest2).
  exists r1, σ1, r2, σ2. eexists _, _.
  split; [done|]. split; [done|]. split; [done|].
  split; [exact Ht2|]. split; [exact Hg2|].
  assert (∀ x, exact_epochs m m' → exact_epochs m' m → exact x →
    (x == fadd (fadd x there) back)%Q) as Hback.
  { intros x Hthere Hbackward [H1 H2].
    unfold exact_add in H1, H2. unfold exact_epochs in Hthere, Hbackward.
    fold there in Hthere, H1, H2. fold back in Hbackward, H2.
    rewrite H2, H1, Hthere, Hbackward. ring. }
  split; [unfold shift_times; by rewrite <- list_fmap_compose|].
  split; [unfold shift_gti; by rewrite <- list_fmap_compose|].
  split; [|split].
  - intros Hthere Hbackward Hsums. unfold shift_times.
    apply Forall2_fmap_r, Forall2_fmap_r, Forall_Forall2_diag.
    eapply Forall_impl; [exact Hsums|]. intros x Hx. unfold compose.
    by apply Hback.
  - intros Hthere Hbackward Hsums. unfold shift_gti.
    apply Forall2_fmap_r, Forall2_fmap_r, Forall_Forall2_diag.
    eapply Forall_impl; [exact Hsums|]. intros i [H1 H2].
    unfold compose. cbn [fst snd]. split; by apply Hback.
  - intros n ???. rewrite Hrest2 by done. by apply Hrest1.
Qed.

Lemma change_mjdref_round_trip_witness :
  ∃ r1 σ1 r2 σ2 t2 g2,
    change_mjdref 0%nat 55001 mjdref_store = Ok (r1, σ1)
    ∧ change_mjdref r1 55000 σ1 = Ok (r2, σ2)
    ∧ attr σ2 r2 "mjdref" = Some (VNum 55000)
    ∧ attr σ2 r2 "time" = Some (VArr t2)
    ∧ attr σ2 r2 "gti" = Some (VArr2 g2)
    ∧ Forall2 Qeq [10; 20]%Q t2
    ∧ Forall2 (λ i j, i.1 == j.1 ∧ i.2 == j.2) [(0, 30)%Q] g2.
Proof.
  destruct (change_mjdref_round_trip mjdref_store 0%nat [10; 20]%Q
              [(0, 30)%Q] 55000 55001)
    as (r1 & σ1 & r2 & σ2 & t2 & g2 & Hrun1 & Hrun2 & Hm & Ht & Hg & _ & _
        & Hti & Hgi & _).
  - vm_compute. reflexivity.
  - vm_compute. reflexivity.
  - vm_compute. reflexivity.
  - exists r1, σ1, r2, σ2, t2, g2. split; [exact Hrun1|]. split; [exact Hrun2|].
    split; [exact Hm|]. split; [exact Ht|]. split; [exact Hg|]. split.
    + apply Hti; [vm_compute; reflexivity..|].
      repeat constructor; vm_compute; reflexivity.
    + apply Hgi; [vm_compute; reflexivity..|].
      repeat constructor; vm_compute; reflexivity.
Defined.

(** ** Light curves and event lists *)

Local Abbreviation f := (λ ij : Q * Q, py_repeat ij.1 (py_int ij.2)).

Lemma events_length time counts :
  length (mjoin (f <$> zip time counts))
  = sum_list (bin_events <$> take (length time) counts).
Proof.
  revert counts. induction time as [|t time IH]; intros [|c counts]; try done.
  cbn [zip zip_with length take]. rewrite !fmap_cons. cbn [mjoin list_join sum_list sum_list_with].
  rewrite length_app, IH. unfold py_repeat, bin_events. cbn [fst snd].
  by rewrite length_replicate.
Qed.

Lemma events_elem_of time counts t :
  t ∈ mjoin (f <$> zip time counts) → t ∈ time.
Proof.
  intros (l & Ht & Hl)%list_elem_of_join.
  apply list_elem_of_fmap in Hl as ([x c] & -> & Hxc).
  unfold py_repeat in Ht. cbn [fst snd] in Ht.
  apply elem_of_replicate_inv in Ht as ->. by eapply elem_of_zip_l.
Qed.

Lemma events_sorted time counts :
  StronglySorted Qle time → StronglySorted Qle (mjoin (f <$> zip time counts)).
Proof.
  intros Hs. revert counts.
  induction Hs as [|t time Hs IH Hall]; intros [|c counts]; try constructor.
  cbn [zip zip_with]. rewrite fmap_cons. cbn [mjoin list_join].
  apply StronglySorted_app_2.
  - intros x1 x2 Hx1 Hx2%events_elem_of.
    unfold py_repeat in Hx1. cbn [fst snd] in Hx1.
    apply elem_of_replicate_inv in Hx1 as ->.
    rewrite Forall_forall in Hall. by apply Hall.
  - unfold py_repeat. cbn [fst snd].
    induction (Z.to_nat (py_int c)) as [|n IHn]; simpl; constructor; [done|].
    apply Forall_forall. intros x ->%elem_of_replicate_inv. apply Qle_refl.
  - apply IH.
Qed.

Lemma occurrences_app t l k :
  occurrences t (l ++ k) = (occurrences t l + occurrences t k)%nat.
Proof. unfold occurrences. by rewrite List.filter_app, length_app. Qed.

Lemma occurrences_replicate t n x :
  occurrences t (replicate n x) = if Qeq_bool t x then n else 0%nat.
Proof.
  unfold occurrences. induction n as [|n IH]; simpl.
  - by destruct (Qeq_bool t x).
  - destruct (Qeq_bool t x); simpl; [by rewrite IH|done].
Qed.

Lemma occurrences_none t ts :
  (∀ u, u ∈ ts → ¬ (u == t)%Q) → occurrences t ts = 0%nat.
Proof.
  intros Hno. unfold occurrences. rewrite filter_none; [done|].
  apply Forall_forall. intros u Hu. apply not_true_iff_false.
  intros Heq%Qeq_bool_iff. apply (Hno u Hu). by symmetry.
Qed.

Lemma events_occurrences time counts i t c :
  time !! i = Some t → counts !! i = Some c →
  (∀ j u, j ≠ i → time !! j = Some u → ¬ (u == t)%Q) →
  occurrences t (mjoin (f <$> zip time counts)) = bin_events c.
Proof.
  revert counts i.
  induction time as [|x time IH]; intros [|c0 counts] i Ht Hc Hother; try done.
  cbn [zip zip_with]. rewrite fmap_cons. cbn [mjoin list_join].
  rewrite occurrences_app. unfold py_repeat at 1. cbn [fst snd].
  rewrite occurrences_replicate. destruct i as [|i]; simpl in Ht, Hc; simplify_eq.
  - rewrite (proj2 (Qeq_bool_iff t t)) by reflexivity.
    rewrite occurrences_none; [unfold bin_events; lia|].
    intros u Hu%events_elem_of. apply list_elem_of_lookup in Hu as [j Hj].
    by apply (Hother (S j) u).
  - assert (Qeq_bool t x = false) as ->.
    { apply not_true_iff_false. intros Heq%Qeq_bool_iff.
      apply (Hother 0%nat x); [done|done|by symmetry]. }
    rewrite Nat.add_0_l. apply (IH counts i); [done|done|].
    intros j u Hj Hu. apply (Hother (S j) u); [congruence|done].
Qed.

(** X16: [from_lc] returns a new event list with the GTIs of the light
    curve and leaves every other instance as it was.  Each bin gives
    [int(count)] events at the time of the bin, none for a count below 1:
    the number of events, which [ncounts] holds, is the sum of these; every
    event time is a bin time; events of bins in ascending order are in
    ascending order; a bin time that no other bin has occurs [int(count)]
    times. *)
Theorem from_lc_spec lc σ :
  ∃ r σ' ts,
    from_lc lc σ = Ok (r, σ')
    ∧ heap σ !! r = None
    ∧ (∀ r' n, r' ≠ r → attr σ' r' n = attr σ r' n)
    ∧ attr σ' r "time" = Some (VArr ts)
    ∧ attr σ' r "ncounts" = Some (count (length ts))
    ∧ attr σ' r "gti" = Some (bins_gti lc)
    ∧ length ts
      = sum_list (bin_events <$> take (length (bins_time lc)) (bins_counts lc))
    ∧ (∀ t, t ∈ ts → t ∈ bins_time lc)
    ∧ (StronglySorted Qle (bins_time lc) → StronglySorted Qle ts)
    ∧ (∀ i t c,
         bins_time lc !! i = Some t → bins_counts lc !! i = Some c →
         (∀ j u, j ≠ i → bins_time lc !! j = Some u → ¬ (u == t)%Q) →
         occurrences t ts = bin_events c).
Proof.
  unfold from_lc.
  set (ts := mjoin ((λ ij : Q * Q, py_repeat ij.1 (py_int ij.2))
                    <$> zip (bins_time lc) (bins_counts lc))).
  destruct (EventList_with_times [("time", VArr ts); ("gti", bins_gti lc)] σ ts)
    as (o & w & Hdef & ->); [done|by left|].
  eexists _, _, ts. split; [reflexivity|]. split; [apply fresh_heap|].
  split; [intros r' n Hne; by rewrite attr_old|].
  split; [rewrite attr_new;
          by rewrite lookup_attr_insert, decide_False,
                     lookup_attr_insert, decide_True|].
  split; [rewrite attr_new; by rewrite lookup_attr_insert, decide_True|].
  split.
  { rewrite attr_new, !lookup_attr_insert, !decide_False by done.
    rewrite (Hdef "gti" VNone); [done|]. unfold init_defaults.
    do 4 apply list_elem_of_further. apply list_elem_of_here. }
  split; [apply events_length|]. split; [apply events_elem_of|].
  split; [apply events_sorted|]. apply events_occurrences.
Qed.

(** ** [to_lc] *)

Lemma gti_span first rest last_ g :
  gti_ordered (first :: rest) → gti_forward (first :: rest) →
  last (first :: rest) = Some last_ → g ∈ first :: rest →
  (first.1 <= g.1)%Q ∧ (g.2 <= last_.2)%Q.
Proof.
  intros Hord Hfwd Hlast Hg. unfold gti_ordered, gti_forward in *. split.
  - apply elem_of_cons in Hg as [->|Hg]; [apply Qle_refl|].
    apply StronglySorted_inv in Hord as [_ Hall].
    rewrite Forall_forall in Hall.
    apply Forall_cons in Hfwd as [Hf _].
    eapply Qle_trans; [exact Hf|]. by apply Hall.
  - apply last_Some in Hlast as [l' Hl]. rewrite Hl in Hord, Hfwd, Hg.
    apply elem_of_app in Hg as [Hg| ->%list_elem_of_singleton]; [|apply Qle_refl].
    apply StronglySorted_app in Hord as (Hlt & _ & _).
    rewrite Forall_app, Forall_singleton in Hfwd. destruct Hfwd as [_ Hf].
    eapply Qle_trans; [|exact Hf]. apply Hlt; [done|]. by left.
Qed.

(** X17: [to_lc] without [tstart], on a list with GTIs in order, makes
    the light curve from all the times, from the start of the first GTI to
    the end of the last one; a [tseg] that was given is not used.  Each
    light curve that [to_lc_list] makes for a GTI lies in that span. *)
Theorem to_lc_span σ self t first rest mjdref dt tseg :
  attr σ self "time" = Some (VArr t) →
  attr σ self "gti" = Some (VArr2 (first :: rest)) →
  attr σ self "mjdref" = Some mjdref →
  gti_ordered (first :: rest) → gti_forward (first :: rest) →
  ∃ len lcs,
    to_lc self dt None tseg σ
    = Ok (make_call (VArr t) dt (Some first.1) (VArr2 (first :: rest))
            (Some len) mjdref, σ)
    ∧ (∃ last_, last (first :: rest) = Some last_ ∧ (first.1 + len == last_.2)%Q)
    ∧ to_lc_list self dt σ = Ok (lcs, σ)
    ∧ length lcs = length (first :: rest)
    ∧ Forall (λ lc, (first.1 <= lc_tstart lc)%Q
                    ∧ (lc_tstart lc + lc_tseg lc <= first.1 + len)%Q) lcs.
Proof.
  intros Ht Hg Hm Hord Hfwd.
  destruct (last (first :: rest)) as [last_|] eqn:Hlast;
    [|by apply last_None in Hlast].
  exists (last_.2 - first.1)%Q, (segment t dt mjdref <$> first :: rest).
  split; [|split; [|split; [|split]]].
  - unfold to_lc. erewrite bind_getattr by done.
    cbn [is_none negb andb as_gti]. rewrite bool_decide_eq_true_2 by done.
    cbn [andb]. rewrite bind_assoc, bind_lift.
    cbn [head]. rewrite Hlast. rewrite bind_ret.
    erewrite bind_getattr by done. erewrite bind_getattr by done.
    erewrite bind_getattr by done. reflexivity.
  - exists last_. split; [done|]. ring.
  - by apply to_lc_list_eq.
  - by rewrite length_fmap.
  - apply Forall_fmap, Forall_forall. intros g Hin.
    destruct (gti_span first rest last_ g Hord Hfwd Hlast Hin) as [Hlo Hhi].
    unfold compose, segment. cbn [lc_tstart lc_tseg]. split; [done|].
    assert (g.1 + (g.2 - g.1) == g.2)%Q as -> by ring.
    assert (first.1 + (last_.2 - first.1) == last_.2)%Q as -> by ring.
    done.
Qed.

Lemma to_lc_span_witness :
  ∃ len lcs,
    to_lc 0%nat 1%Q None (Some 100%Q) span_store
    = Ok (make_call (VArr [1; 5; 6]%Q) 1%Q (Some 0%Q)
            (VArr2 [(0, 2)%Q; (4, 7)%Q]) (Some len) (VNum 0%Q), span_store)
    ∧ (∃ last_, last [(0, 2)%Q; (4, 7)%Q] = Some last_ ∧ (0 + len == last_.2)%Q)
    ∧ to_lc_list 0%nat 1%Q span_store = Ok (lcs, span_store)
    ∧ length lcs = 2%nat
    ∧ Forall (λ lc, (0 <= lc_tstart lc)%Q
                    ∧ (lc_tstart lc + lc_tseg lc <= 0 + len)%Q) lcs.
Proof.
  apply (to_lc_span span_store 0%nat [1; 5; 6]%Q (0, 2)%Q [(4, 7)%Q]
           (VNum 0%Q) 1%Q (Some 100%Q)).
  - vm_compute. reflexivity.
  - vm_compute. reflexivity.
  - vm_compute. reflexivity.
  - repeat constructor. simpl. discriminate.
  - repeat constructor; simpl; discriminate.
Defined.

(** ** [simulate_times] *)

(** X18: [simulate_times] puts the drawn times and the GTIs of the light
    curve on the list and sets [ncounts] to the number of drawn times; no
    other attribute changes, so energies or channels of earlier events stay
    as they were; a [bin_time] only gives a warning. *)
Theorem simulate_times_spec σ self lc drawn bin_time :
  is_Some (heap σ !! self) →
  ∃ σ',
    simulate_times self lc drawn bin_time σ = Ok (tt, σ')
    ∧ attr σ' self "time" = Some (VArr drawn)
    ∧ attr σ' self "gti" = Some (bins_gti lc)
    ∧ attr σ' self "ncounts" = Some (count (length drawn))
    ∧ (∀ r n, ¬ (r = self ∧ (n = "time" ∨ n = "gti" ∨ n = "ncounts")) →
         attr σ' r n = attr σ r n)
    ∧ warnings σ'
      = warnings σ ++ match bin_time with
                      | Some _ => ["Bin time will be ignored in simulate_times"]
                      | None => []
                      end.
Proof.
  intros [o Ho]. unfold simulate_times. destruct σ as [h w0]. simpl in Ho.
  assert (∃ w, when (negb (bool_decide (bin_time = None)))
                 (simon "Bin time will be ignored in simulate_times") (State h w0)
               = Ok (tt, State h w)
             ∧ w = w0 ++ match bin_time with
                         | Some _ => ["Bin time will be ignored in simulate_times"]
                         | None => []
                         end) as (w & Hwhen & Hw).
  { destruct bin_time; eexists; (split; [reflexivity|]); [done|].
    simpl. by rewrite app_nil_r. }
  rewrite (bind_eq _ _ _ _ _ Hwhen).
  erewrite bind_setattr by done. simpl.
  rewrite bind_setattr_new.
  erewrite bind_getattr_new
    by (by rewrite lookup_attr_insert, decide_False, lookup_attr_insert, decide_True).
  cbn [py_len]. rewrite bind_lift, setattr_new.
  eexists. split; [reflexivity|].
  split; [rewrite attr_new;
          by rewrite !lookup_attr_insert, decide_False, decide_False, decide_True|].
  split; [rewrite attr_new;
          by rewrite !lookup_attr_insert, decide_False, decide_True|].
  split; [rewrite attr_new; by rewrite lookup_attr_insert, decide_True|].
  split; [|done].
  intros r n Hnot. rewrite attr_insert. case_decide as Hr.
  - subst r. rewrite !lookup_attr_insert.
    rewrite !decide_False by (intros ->; apply Hnot; auto).
    by erewrite attr_lookup.
  - done.
Qed.

Lemma simulate_times_spec_witness :
  ∃ σ',
    simulate_times 0%nat (make_binned [] [] (VArr2 [(0, 9)%Q])) [4; 8]%Q
      (Some 1%Q) energy_store = Ok (tt, σ')
    ∧ attr σ' 0%nat "time" = Some (VArr [4; 8]%Q)
    ∧ attr σ' 0%nat "gti" = Some (VArr2 [(0, 9)%Q])
    ∧ attr σ' 0%nat "ncounts" = Some (count 2)
    ∧ (∀ r n, ¬ (r = 0%nat ∧ (n = "time" ∨ n = "gti" ∨ n = "ncounts")) →
         attr σ' r n = attr energy_store r n)
    ∧ warnings σ'
      = warnings energy_store ++ ["Bin time will be ignored in simulate_times"].
Proof.
  apply (simulate_times_spec energy_store 0%nat
           (make_binned [] [] (VArr2 [(0, 9)%Q])) [4; 8]%Q (Some 1%Q)).
  apply (attr_is_Some energy_store 0%nat "time" (VArr [0; 1; 2]%Q)).
  vm_compute. reflexivity.
Defined.

(** ** [apply_deadtime] *)

(** X19: on a list that holds no method as an attribute of its own,
    [apply_deadtime] is [apply_mask] with the mask, a boolean array, that
    the mask generator gives for the times of the list.  When the generator
    raises, so does [apply_deadtime], before anything is changed; a mask as
    long as [time] gives the instance that [apply_mask] gives (the list
    itself with [inplace]), with the times under the mask; what the
    generator returns besides the mask is returned with [return_all] and
    dropped without. *)
Theorem apply_deadtime_applies_mask G σ s t deadtime inplace return_all :
  attr σ s "time" = Some (VArr t) →
  plain σ s = true →
  (∀ e, G (VArr t) deadtime = Raise e →
     apply_deadtime G s deadtime inplace return_all σ = Raise e)
  ∧ (∀ bits retall,
       G (VArr t) deadtime = Ok (bits, retall) → length bits = length t →
       ∃ r σ',
         apply_mask s (MaskArray bits) inplace σ = Ok (r, σ')
         ∧ apply_deadtime G s deadtime inplace return_all σ
           = Ok ((r, if return_all then Some retall else None), σ')
         ∧ method s "apply_deadtime"
             (λ self, apply_deadtime G self deadtime inplace return_all) σ
           = Ok ((r, if return_all then Some retall else None), σ')
         ∧ (if inplace then r = s else heap σ !! r = None)
         ∧ attr σ' r "time" = Some (VArr (select t bits))).
Proof.
  intros Ht Hplain. split.
  - intros e He. unfold apply_deadtime.
    erewrite bind_getattr by done. by rewrite He.
  - intros bits retall HG Hlen.
    destruct (attr_is_Some _ _ _ _ Ht) as [o Hs].
    assert (∀ n, n ∈ methods → o !! n = None) as Hown
      by (intros n; by apply (plain_lookup σ s)).
    assert (o !! "array_attrs" = None) as Hown_arr by (apply Hown; solve_method).
    assert (o !! "apply_mask" = None) as Hown_mask by (apply Hown; solve_method).
    assert (o !! "apply_deadtime" = None) as Hown_dead
      by (apply Hown; solve_method).
    pose proof Ht as Ht'. rewrite (attr_lookup _ _ _ "time" Hs) in Ht'.
    pose proof (time_is_array o t Ht') as Htime.
    assert (∃ r σ',
      apply_mask s (MaskArray bits) inplace σ = Ok (r, σ')
      ∧ (if inplace then r = s else heap σ !! r = None)
      ∧ attr σ' r "time" = Some (VArr (select t bits)))
      as (r & σ' & Hrun & Hr & Htr).
    { destruct inplace.
      - eexists s, _. split; [eapply apply_mask_inplace_eq; eauto|].
        split; [done|]. cbn [mask_bits].
        rewrite attr_insert, decide_True by done.
        destruct (masked_attr o (length t) bits o "time" Htime)
          as (a & Ha & _ & ->).
        by assert (a = t) as -> by congruence.
      - eexists _, _. split; [eapply apply_mask_copy_eq; eauto|].
        split; [apply fresh_heap|]. cbn [mask_bits].
        rewrite attr_insert, decide_True by done.
        destruct (masked_attr o (length t) bits
                    (foldl (copy_step s o (List.filter (is_array o [length t]) (dir o)))
                       empty_event (dir o)) "time" Htime) as (a & Ha & _ & ->).
        by assert (a = t) as -> by congruence. }
    assert (apply_deadtime G s deadtime inplace return_all σ
            = Ok ((r, if return_all then Some retall else None), σ')) as Hdead.
    { unfold apply_deadtime. erewrite bind_getattr by done.
      rewrite HG, bind_lift. cbn [fst snd].
      rewrite (bind_eq _ _ _ r σ')
        by (by rewrite (method_self σ s o)).
      by destruct return_all. }
    exists r, σ'. split; [done|]. split; [done|].
    split; [by rewrite (method_self σ s o)|done].
Qed.

Lemma apply_deadtime_applies_mask_witness :
  (∀ e, every_other (VArr [0; 1; 2]%Q) 1 = Raise e →
     apply_deadtime every_other 0%nat 1 false true bubu_store = Raise e)
  ∧ (∀ bits retall,
       every_other (VArr [0; 1; 2]%Q) 1 = Ok (bits, retall) →
       length bits = 3%nat →
       ∃ r σ',
         apply_mask 0%nat (MaskArray bits) false bubu_store = Ok (r, σ')
         ∧ apply_deadtime every_other 0%nat 1 false true bubu_store
           = Ok ((r, Some retall), σ')
         ∧ method 0%nat "apply_deadtime"
             (λ self, apply_deadtime every_other self 1 false true) bubu_store
           = Ok ((r, Some retall), σ')
         ∧ heap bubu_store !! r = None
         ∧ attr σ' r "time" = Some (VArr (select [0; 1; 2]%Q bits))).
Proof.
  apply (apply_deadtime_applies_mask every_other bubu_store 0%nat
           [0; 1; 2]%Q 1 false true).
  - vm_compute. reflexivity.
  - vm_compute. reflexivity.
Defined.
